(** * C-Wiper: a shallow embedding of the safety-critical core

    The development follows the Python sources under [src/src]:
    - [core/security.py]            -> module [SecurityLayer]
    - [core/rule_engine.py]         -> module [RuleEngine]
    - [core/rule_engine_optimized.py] -> module [OptimizedRuleEngine]
    - [core/cleaner.py]             -> module [Cleaner]
    - [models/scan_result.py]       -> module [ScanModels]
    - [controllers/state_manager.py]  -> module [StateManager]
    - [controllers/clean_controller.py] -> module [CleanController]
    - [controllers/scan_controller.py] -> module [ScanController]

    Library code the sources call (pathlib, os.path, re, send2trash) is not
    part of the repository.  Pure path manipulation is modelled in module
    [Pathlib]; everything that asks the operating system is an explicit
    oracle ([FileSystem], [Regex]). *)

From Stdlib Require Import Ascii ZArith QArith Qround Lia Lqa DecimalString Sorted.
From stdpp Require Import gmap strings list fin_maps.



(* ===================================================================== *)
(** ** Python string operations used by the sources *)
(* ===================================================================== *)

Module PyStr.

(** [c.lower()] on the ASCII range: only 'A'..'Z' are changed. *)
Definition lower_ascii (c : ascii) : ascii :=
  let n := nat_of_ascii c in
  if (65 <=? n)%nat && (n <=? 90)%nat then ascii_of_nat (n + 32) else c.

(** [s.lower()] on text in the ASCII range; Python also folds letters
    outside it, which a string of bytes does not show. *)
Fixpoint lower (s : string) : string :=
  match s with
  | EmptyString => EmptyString
  | String c s' => String (lower_ascii c) (lower s')
  end.

(** [s.startswith(p)] *)
Fixpoint startswith (p s : string) : bool :=
  match p, s with
  | EmptyString, _ => true
  | String a p', String b s' => if Ascii.eqb a b then startswith p' s' else false
  | String _ _, EmptyString => false
  end.

(** [p in s] (substring test) *)
Fixpoint contains (p s : string) : bool :=
  startswith p s ||
  match s with
  | EmptyString => false
  | String _ s' => contains p s'
  end.

(** [x in xs] for a list of strings *)
Definition mem (x : string) (xs : list string) : bool :=
  existsb (String.eqb x) xs.

(** [sep.join(xs)] *)
Fixpoint join (sep : string) (xs : list string) : string :=
  match xs with
  | [] => ""
  | [x] => x
  | x :: rest => x +:+ sep +:+ join sep rest
  end.

(** [s.split(c)] for a one-character separator: the pieces between
    separators, empty pieces included. *)
Fixpoint split (c : ascii) (s : string) : list string :=
  match s with
  | EmptyString => [""]
  | String a s' =>
      if Ascii.eqb a c then "" :: split c s'
      else match split c s' with
           | [] => [String a ""]
           | x :: rest => String a x :: rest
           end
  end.

(** [s.replace(c, r)] for a one-character pattern *)
Fixpoint replace (c : ascii) (r : string) (s : string) : string :=
  match s with
  | EmptyString => EmptyString
  | String a s' =>
      if Ascii.eqb a c then r +:+ replace c r s' else String a (replace c r s')
  end.

(** [s.rfind(c)]: index of the last occurrence, [None] for Python's -1 *)
Fixpoint rfind (c : ascii) (s : string) : option nat :=
  match s with
  | EmptyString => None
  | String a s' =>
      match rfind c s' with
      | Some i => Some (S i)
      | None => if Ascii.eqb a c then Some 0%nat else None
      end
  end.

(** [s[i:]] *)
Fixpoint drop (i : nat) (s : string) : string :=
  match i, s with
  | O, _ => s
  | S i', String _ s' => drop i' s'
  | S _, EmptyString => EmptyString
  end.

(** [s.endswith(c)] for one character *)
Fixpoint endswith (c : ascii) (s : string) : bool :=
  match s with
  | EmptyString => false
  | String a EmptyString => Ascii.eqb a c
  | String _ s' => endswith c s'
  end.

End PyStr.

(* ===================================================================== *)
(** ** pathlib: pure Windows paths *)
(* ===================================================================== *)

Module Pathlib.

(** A path is its [parts] tuple, as [PureWindowsPath.parts] gives it: an
    optional anchor (["C:\"], ["\"] or the drive-relative ["C:"]) followed by
    the names.  Letter case is kept as written.  UNC anchors are not
    modelled. *)
Definition Path := list string.

Definition backslash : ascii := "\"%char.
Definition slash : ascii := "/"%char.
Definition colon : ascii := ":"%char.
Definition dot : ascii := "."%char.

Definition is_letter (c : ascii) : bool :=
  let n := nat_of_ascii c in
  ((65 <=? n)%nat && (n <=? 90)%nat) || ((97 <=? n)%nat && (n <=? 122)%nat).

(** splits a drive letter off: ["C:\x"] gives [("C:", "\x")] *)
Definition splitdrive (s : string) : string * string :=
  match s with
  | String d (String c rest) =>
      if is_letter d && Ascii.eqb c colon
      then (String d (String c ""), rest)
      else ("", s)
  | _ => ("", s)
  end.

(** [Path(s)]: both separators are accepted, empty and ["."] segments and
    trailing separators are dropped. *)
Definition of_string (s : string) : Path :=
  let s := PyStr.replace slash (String backslash "") s in
  let '(drv, rest) := splitdrive s in
  let root := if PyStr.startswith (String backslash "") rest
              then String backslash "" else "" in
  let names := filter (fun n => negb (String.eqb n "") && negb (String.eqb n "."))
                      (PyStr.split backslash rest) in
  let anchor := drv +:+ root in
  if String.eqb anchor "" then names else anchor :: names.

(** the first part is an anchor when it carries a root or is a bare drive *)
Definition is_anchor (s : string) : bool :=
  PyStr.endswith backslash s ||
  match s with
  | String d (String c EmptyString) => is_letter d && Ascii.eqb c colon
  | _ => false
  end.

(** [path.name] *)
Definition name (p : Path) : string :=
  match p with
  | [] => ""
  | [a] => if is_anchor a then "" else a
  | _ => List.last p ""
  end.

(** [path.suffix]: from the last dot of the name, unless that dot is the
    first or the last character. *)
Definition suffix (p : Path) : string :=
  let n := name p in
  match PyStr.rfind dot n with
  | Some i =>
      if (0 <? i)%nat && (i <? String.length n - 1)%nat then PyStr.drop i n else ""
  | None => ""
  end.

(** [str(path)] *)
Definition to_string (p : Path) : string :=
  match p with
  | [] => "."
  | a :: rest =>
      if is_anchor a then a +:+ PyStr.join (String backslash "") rest
      else PyStr.join (String backslash "") p
  end.

End Pathlib.

Export Pathlib(Path).

(* ===================================================================== *)
(** ** Python numbers *)
(* ===================================================================== *)

Module PyNum.

(** A Python number is an [int] or a [float].  A float is kept as the exact
    rational it denotes: the sources only divide byte counts by [1024.0], a
    power of two, which binary floating point does without rounding for
    counts up to 2^53.  Above that Python rounds the int to the nearest
    float before dividing (and refuses ints from 2^1024 on), which these
    definitions do not do. *)
Inductive num : Type :=
| Int (z : Z)
| Float (q : Q).

Definition value (x : num) : Q :=
  match x with
  | Int z => inject_Z z
  | Float q => q
  end.

Definition is_float (x : num) : bool :=
  match x with Float _ => true | Int _ => false end.

(** [a < b] *)
Definition ltb (a b : num) : bool := negb (Qle_bool (value b) (value a)).
(** [a > b] *)
Definition gtb (a b : num) : bool := ltb b a.

(** [a + b]: int + int stays an int, anything else is a float *)
Definition add (a b : num) : num :=
  match a, b with
  | Int x, Int y => Int (x + y)
  | _, _ => Float (Qred (value a + value b))
  end.

(** [a / b] (true division always gives a float) *)
Definition truediv (a b : num) : num := Float (Qred (value a / value b)).

(** [a * b] *)
Definition mul (a b : num) : num :=
  match a, b with
  | Int x, Int y => Int (x * y)
  | _, _ => Float (Qred (value a * value b))
  end.

(** nearest integer, ties to even *)
Definition round_half_even (q : Q) : Z :=
  let f := Qfloor q in
  match Qcompare (q - inject_Z f) (1 # 2) with
  | Lt => f
  | Gt => (f + 1)%Z
  | Eq => if Z.even f then f else (f + 1)%Z
  end.

Definition string_of_nonneg (z : Z) : string :=
  NilZero.string_of_uint (N.to_uint (Z.to_N z)).

Fixpoint zeros (n : nat) : string :=
  match n with O => "" | S n' => String "0"%char (zeros n') end.

(** [f"{x:.<d>f}"] *)
Definition format_f (d : nat) (x : num) : string :=
  let scale := (10 ^ Z.of_nat d)%Z in
  let n := round_half_even (value x * inject_Z scale) in
  let a := Z.abs n in
  let ip := string_of_nonneg (a / scale) in
  let fp := string_of_nonneg (a mod scale) in
  let sign := if (n <? 0)%Z then "-" else "" in
  match d with
  | O => sign +:+ ip
  | _ => sign +:+ ip +:+ "." +:+ zeros (d - String.length fp) +:+ fp
  end.

Definition KB : num := Float (1024 # 1).

End PyNum.

(* ===================================================================== *)
(** ** What the operating system answers *)
(* ===================================================================== *)

(** The outcome of a library call that may raise. *)
Inductive result (A : Type) : Type :=
| Ok (a : A)
| Raise (msg : string).
Arguments Ok {A} a.
Arguments Raise {A} msg.

(** The file-system calls the sources make.  [fs_realpath] stands for both
    [os.path.realpath(p)] and [p.resolve()], which pathlib implements by the
    former. *)
Record FileSystem : Type := {
  fs_exists : Path -> bool;
  fs_realpath : Path -> result Path
}.

(* ===================================================================== *)
(** ** core/security.py *)
(* ===================================================================== *)

Module SecurityLayer.

(** The class object: [HARDCODED_PROTECTED] is a class attribute that
    [add_protected_path] extends at run time. *)
Record cls_t : Type := { HARDCODED_PROTECTED : list string }.

Definition initial : cls_t :=
  {| HARDCODED_PROTECTED :=
       [ "C:\Windows";
         "C:\Program Files";
         "C:\Program Files (x86)";
         "C:\ProgramData";
         "C:\System Volume Information";
         "C:\Recovery";
         "C:\Boot";
         "C:\EFI";
         "C:$Recycle.Bin" ] |}.

Definition SYSTEM_FILES : list string :=
  [ "pagefile.sys"; "hiberfil.sys"; "swapfile.sys"; "ntldr";
    "ntdetect.com"; "boot.ini"; "bootsect.bak" ].

Definition CRITICAL_EXTENSIONS : list string :=
  [ ".sys"; ".dll"; ".exe"; ".com"; ".bat"; ".cmd"; ".ps1"; ".reg"; ".inf" ].

Section WithFileSystem.
Variable fs : FileSystem.

(** [_is_path_under]: both paths are resolved, then the parent's parts
    must be a prefix of the path's parts.  Any exception gives [False]. *)
Definition _is_path_under (path parent : Path) : bool :=
  match fs_realpath fs path, fs_realpath fs parent with
  | Ok path_parts, Ok parent_parts =>
      if (length path_parts <? length parent_parts)%nat then false
      else bool_decide (take (length parent_parts) path_parts = parent_parts)
  | _, _ => false
  end.

(** the [for protected in cls.HARDCODED_PROTECTED] loop: the first entry
    the real path lies under *)
Definition first_protected (cls : cls_t) (real_path : Path) : option string :=
  List.find (fun protected => _is_path_under real_path (Pathlib.of_string protected))
            (HARDCODED_PROTECTED cls).

(** [is_safe_to_delete].  Logging is left out; the warning-only check 4
    returns nothing and is therefore not visible in the result. *)
Definition is_safe_to_delete (cls : cls_t) (path : Path)
    (whitelist_extensions : list string) : bool * string :=
  if negb (fs_exists fs path) then
    (false, "File does not exist: " +:+ Pathlib.to_string path)
  else
    match fs_realpath fs path with
    | Raise e => (false, "Failed to resolve path: " +:+ e)
    | Ok real_path =>
        match first_protected cls real_path with
        | Some protected => (false, "Protected path: " +:+ protected)
        | None =>
            let filename := PyStr.lower (Pathlib.name path) in
            if PyStr.mem filename SYSTEM_FILES then
              (false, "System file: " +:+ filename)
            else if PyStr.mem (PyStr.lower (Pathlib.suffix path))
                              (map PyStr.lower whitelist_extensions) then
              (false, "Whitelisted extension: " +:+ Pathlib.suffix path)
            else
              (true, "OK")
        end
    end.

(** [is_system_path] *)
Definition is_system_path (cls : cls_t) (path : Path) : bool :=
  match fs_realpath fs path with
  | Raise _ => false
  | Ok real_path =>
      match first_protected cls real_path with
      | Some _ => true
      | None => false
      end
  end.

End WithFileSystem.

(** [add_protected_path] *)
Definition add_protected_path (cls : cls_t) (path : string) : cls_t :=
  if PyStr.mem path (HARDCODED_PROTECTED cls) then cls
  else {| HARDCODED_PROTECTED := HARDCODED_PROTECTED cls ++ [path] |}.

End SecurityLayer.

(* ===================================================================== *)
(** ** models/scan_result.py *)
(* ===================================================================== *)

Module ScanModels.

(** [FileInfo].  The timestamps and the two attribute flags are carried as
    given; [__post_init__] reads the flags from the operating system, which
    nothing below depends on. *)
Record FileInfo : Type := {
  path : Path;
  size : PyNum.num;
  is_dir : bool;
  modified_time : Q;
  file_extension : string;
  is_hidden : bool;
  is_readonly : bool
}.

(** the constructor with [__post_init__]'s extension extraction *)
Definition make (p : Path) (sz : PyNum.num) (dir : bool) (mtime : Q)
    (ext : string) : FileInfo :=
  {| path := p; size := sz; is_dir := dir; modified_time := mtime;
     file_extension :=
       if String.eqb ext "" && negb (String.eqb (Pathlib.suffix p) "")
       then Pathlib.suffix p else ext;
     is_hidden := false; is_readonly := false |}.

Definition set_size (f : FileInfo) (sz : PyNum.num) : FileInfo :=
  {| path := path f; size := sz; is_dir := is_dir f;
     modified_time := modified_time f; file_extension := file_extension f;
     is_hidden := is_hidden f; is_readonly := is_readonly f |}.

Definition UNITS : list string := ["B"; "KB"; "MB"; "GB"; "TB"].

(** The loop of [format_size] over a mutable field: returns the string and
    the value left in the field. *)
Fixpoint format_loop (units : list string) (field : PyNum.num) : string * PyNum.num :=
  match units with
  | [] => (PyNum.format_f 2 field +:+ " PB", field)
  | unit :: rest =>
      if PyNum.ltb field PyNum.KB then (PyNum.format_f 2 field +:+ " " +:+ unit, field)
      else format_loop rest (PyNum.truediv field PyNum.KB)
  end.

(** [FileInfo.format_size]: the loop assigns to [self.size] *)
Definition format_size (f : FileInfo) : string * FileInfo :=
  let '(s, v) := format_loop UNITS (size f) in (s, set_size f v).

End ScanModels.

(* ===================================================================== *)
(** ** The regular-expression library *)
(* ===================================================================== *)

(** What [re] answers, always with [re.IGNORECASE] as every call site has it:
    whether a pattern compiles, [pattern.match(text)] and
    [pattern.search(text)]. *)
Record Regex : Type := {
  re_compiles : string -> bool;
  re_match : string -> string -> bool;
  re_search : string -> string -> bool
}.

(* ===================================================================== *)
(** ** core/rule_engine.py *)
(* ===================================================================== *)

Module RuleEngine.
Import ScanModels.

Inductive RiskLevel : Type := L1_SAFE | L2_REVIEW | L3_SYSTEM.

(** [RuleConditions].  [optimized] tells which class the object is an
    instance of: [RuleConditions] or its subclass
    [OptimizedRuleConditions], whose [matches] overrides the base one. *)
Record RuleConditions : Type := {
  path_pattern : option string;
  file_extensions : list string;
  min_size : option PyNum.num;
  max_size : option PyNum.num;
  name_pattern : option string;
  optimized : bool
}.

Record Rule : Type := {
  id : string;
  name : string;
  conditions : RuleConditions;
  risk_level : RiskLevel;
  enabled : bool;
  description : option string;
  category : option string
}.

Record RuleMatch : Type := {
  rule : option Rule;
  file_info : FileInfo;
  matched : bool;
  reason : string
}.

(** Python truthiness of an optional string: [None] and [""] are false *)
Definition truthy (o : option string) : bool :=
  match o with
  | Some s => negb (String.eqb s "")
  | None => false
  end.

Definition pattern_of (o : option string) : string :=
  match o with Some s => s | None => "" end.

(** the wildcard-to-regex rewriting shared by both engines *)
Definition wildcard_regex (pattern : string) : string :=
  let p := PyStr.replace "."%char "\." pattern in
  let p := PyStr.replace "*"%char ".*" p in
  let p := PyStr.replace "?"%char "." p in
  "^" +:+ p +:+ "$".

Section WithRegex.
Variable re : Regex.

(** [RuleConditions._match_path_pattern]: [re.error] gives [False] *)
Definition _match_path_pattern (c : RuleConditions) (p : Path) : bool :=
  if negb (truthy (path_pattern c)) then true
  else
    let regex_pattern := wildcard_regex (pattern_of (path_pattern c)) in
    if re_compiles re regex_pattern
    then re_match re regex_pattern (Pathlib.to_string p)
    else false.

Definition extension_listed (c : RuleConditions) (f : FileInfo) : bool :=
  PyStr.mem (PyStr.lower (ScanModels.file_extension f))
            (map PyStr.lower (file_extensions c)).

Definition below_min (c : RuleConditions) (f : FileInfo) : bool :=
  match min_size c with
  | Some m => PyNum.ltb (ScanModels.size f) m
  | None => false
  end.

Definition above_max (c : RuleConditions) (f : FileInfo) : bool :=
  match max_size c with
  | Some m => PyNum.gtb (ScanModels.size f) m
  | None => false
  end.

Definition nonempty {A} (l : list A) : bool :=
  match l with [] => false | _ => true end.

(** [RuleConditions.matches] *)
Definition base_matches (c : RuleConditions) (f : FileInfo) : bool :=
  if truthy (path_pattern c) && negb (_match_path_pattern c (ScanModels.path f)) then false
  else if nonempty (file_extensions c) && negb (extension_listed c f) then false
  else if below_min c f then false
  else if above_max c f then false
  else if truthy (name_pattern c)
          && negb (re_search re (pattern_of (name_pattern c))
                             (Pathlib.name (ScanModels.path f))) then false
  else true.

(** [OptimizedRuleConditions.matches]: the patterns were compiled when the
    object was built. *)
Definition optimized_matches (c : RuleConditions) (f : FileInfo) : bool :=
  if nonempty (file_extensions c) && negb (extension_listed c f) then false
  else if truthy (path_pattern c)
          && negb (re_match re (wildcard_regex (pattern_of (path_pattern c)))
                            (Pathlib.to_string (ScanModels.path f))) then false
  else if below_min c f then false
  else if above_max c f then false
  else if truthy (name_pattern c)
          && negb (re_search re (pattern_of (name_pattern c))
                             (Pathlib.name (ScanModels.path f))) then false
  else true.

(** [self.conditions.matches(file_info)], dispatched on the class *)
Definition conditions_matches (c : RuleConditions) (f : FileInfo) : bool :=
  if optimized c then optimized_matches c f else base_matches c f.

(** [Rule.matches] *)
Definition rule_matches (r : Rule) (f : FileInfo) : bool :=
  if negb (enabled r) then false else conditions_matches (conditions r) f.

End WithRegex.

(** [RuleIndex] *)
Record RuleIndex : Type := {
  rules_by_category : gmap string (list Rule);
  rules_by_risk : RiskLevel -> list Rule;
  enabled_rules : list Rule
}.

Definition empty_index : RuleIndex :=
  {| rules_by_category := ∅; rules_by_risk := fun _ => []; enabled_rules := [] |}.

Definition RiskLevel_eqb (a b : RiskLevel) : bool :=
  match a, b with
  | L1_SAFE, L1_SAFE | L2_REVIEW, L2_REVIEW | L3_SYSTEM, L3_SYSTEM => true
  | _, _ => false
  end.

(** one turn of the loop in [RuleIndex._index_rules] *)
Definition index_rule (idx : RuleIndex) (r : Rule) : RuleIndex :=
  let cat := match category r with
             | Some c => if String.eqb c "" then "uncategorized" else c
             | None => "uncategorized"
             end in
  {| rules_by_category :=
       <[cat := default [] (rules_by_category idx !! cat) ++ [r]]> (rules_by_category idx);
     rules_by_risk := fun lvl =>
       if RiskLevel_eqb lvl (risk_level r)
       then rules_by_risk idx lvl ++ [r] else rules_by_risk idx lvl;
     enabled_rules :=
       if enabled r then enabled_rules idx ++ [r] else enabled_rules idx |}.

(** [RuleIndex(rules)] *)
Definition RuleIndex_init (rules : list Rule) : RuleIndex :=
  fold_left index_rule rules empty_index.

(** [RuleEngine] *)
Record Engine : Type := {
  rules : list Rule;
  rule_index : option RuleIndex
}.

Definition Engine_init : Engine := {| rules := []; rule_index := None |}.

(** What [load_rules] finds at [config_path]: no file, a file that cannot
    be read or parsed, or a rule list whose entries each either build a
    [Rule] or raise. *)
Inductive ConfigFile : Type :=
| Missing
| Unreadable (msg : string)
| Parsed (entries : list (result Rule)).

Definition mk_conditions (exts : list string) : RuleConditions :=
  {| path_pattern := None; file_extensions := exts; min_size := None;
     max_size := None; name_pattern := None; optimized := false |}.

(** [_create_default_rules] *)
Definition default_rules : list Rule :=
  [ {| id := "temp_files"; name := "临时文件";
       conditions := mk_conditions [".tmp"; ".temp"];
       risk_level := L1_SAFE; enabled := true;
       description := Some "Windows 临时文件"; category := Some "temp" |};
    {| id := "log_files"; name := "日志文件";
       conditions := mk_conditions [".log"; ".log1"; ".log2"];
       risk_level := L2_REVIEW; enabled := true;
       description := Some "应用程序日志文件"; category := Some "logs" |};
    {| id := "cache_files"; name := "缓存文件";
       conditions := mk_conditions [".cache"; ".cache2"];
       risk_level := L1_SAFE; enabled := true;
       description := Some "浏览器和应用缓存";
       category := Some "cache" |} ].

Definition loaded_entries (entries : list (result Rule)) : list Rule :=
  omap (fun e => match e with Ok r => Some r | Raise _ => None end) entries.

(** [load_rules] *)
Definition load_rules (cfg : ConfigFile) (e : Engine) : result Engine :=
  match cfg with
  | Missing =>
      Ok {| rules := default_rules; rule_index := Some (RuleIndex_init default_rules) |}
  | Unreadable msg => Raise msg
  | Parsed entries =>
      let rs := loaded_entries entries in
      Ok {| rules := rs; rule_index := Some (RuleIndex_init rs) |}
  end.

(** [add_rule] *)
Definition add_rule (e : Engine) (r : Rule) : Engine :=
  let rs := rules e ++ [r] in
  {| rules := rs; rule_index := Some (RuleIndex_init rs) |}.

Definition matched_by (r : Rule) (f : FileInfo) : RuleMatch :=
  {| rule := Some r; file_info := f; matched := true;
     reason := "Matched rule: " +:+ name r |}.

Definition unmatched (f : FileInfo) : RuleMatch :=
  {| rule := None; file_info := f; matched := false;
     reason := "No matching rule found" |}.

Section WithRegex.
Variable re : Regex.

(** the [for rule in ...enabled_rules] loop of [match_file] *)
Fixpoint match_loop (candidates : list Rule) (f : FileInfo) : RuleMatch :=
  match candidates with
  | [] => unmatched f
  | r :: rest =>
      if rule_matches re r f then matched_by r f else match_loop rest f
  end.

(** [RuleEngine.match_file]; the engine is returned because a missing
    index makes the call load the rules first. *)
Definition match_file (cfg : ConfigFile) (e : Engine) (f : FileInfo)
    : result (RuleMatch * Engine) :=
  let loaded := match rule_index e with
                | Some _ => Ok e
                | None => load_rules cfg e
                end in
  match loaded with
  | Raise msg => Raise msg
  | Ok e' =>
      match rule_index e' with
      | Some idx => Ok (match_loop (enabled_rules idx) f, e')
      | None => Raise "AttributeError: 'NoneType' object has no attribute 'enabled_rules'"
      end
  end.

(** [evaluate_risk] *)
Definition evaluate_risk (m : RuleMatch) : RiskLevel :=
  match matched m, rule m with
  | true, Some r => risk_level r
  | _, _ => L2_REVIEW
  end.

End WithRegex.

End RuleEngine.

(* ===================================================================== *)
(** ** core/rule_engine_optimized.py *)
(* ===================================================================== *)

Module OptimizedRuleEngine.
Import ScanModels RuleEngine.

(** [ExtensionIndex] *)
Record ExtensionIndex : Type := {
  rules_by_extension : gmap string (list Rule);
  rules_without_extension : list Rule
}.

Definition ExtensionIndex_init : ExtensionIndex :=
  {| rules_by_extension := ∅; rules_without_extension := [] |}.

(** [ExtensionIndex.add_rule] *)
Definition ExtensionIndex_add_rule (ix : ExtensionIndex) (r : Rule) : ExtensionIndex :=
  match file_extensions (conditions r) with
  | [] =>
      {| rules_by_extension := rules_by_extension ix;
         rules_without_extension := rules_without_extension ix ++ [r] |}
  | exts =>
      {| rules_by_extension :=
           fold_left
             (fun m ext =>
                let ext_lower := PyStr.lower ext in
                <[ext_lower := default [] (m !! ext_lower) ++ [r]]> m)
             exts (rules_by_extension ix);
         rules_without_extension := rules_without_extension ix |}
  end.

(** [ExtensionIndex.get_rules] *)
Definition ExtensionIndex_get_rules (ix : ExtensionIndex) (file_extension : string)
    : list Rule :=
  default [] (rules_by_extension ix !! PyStr.lower file_extension).

(** [PatternCache]: the sets of pattern strings compiled so far and the
    two counters. *)
Record PatternCache : Type := {
  regex_cache : gset string;
  wildcard_cache : gset string;
  cache_hits : nat;
  cache_misses : nat
}.

Definition PatternCache_init : PatternCache :=
  {| regex_cache := ∅; wildcard_cache := ∅; cache_hits := 0; cache_misses := 0 |}.

Section WithRegex.
Variable re : Regex.

(** [PatternCache.get_regex]; [re.compile] may raise *)
Definition get_regex (pc : PatternCache) (pattern : string) : result PatternCache :=
  if bool_decide (pattern ∈ regex_cache pc) then
    Ok {| regex_cache := regex_cache pc; wildcard_cache := wildcard_cache pc;
          cache_hits := S (cache_hits pc); cache_misses := cache_misses pc |}
  else if re_compiles re pattern then
    Ok {| regex_cache := {[pattern]} ∪ regex_cache pc;
          wildcard_cache := wildcard_cache pc;
          cache_hits := cache_hits pc; cache_misses := S (cache_misses pc) |}
  else Raise "re.error".

(** [PatternCache.get_wildcard_pattern] *)
Definition get_wildcard_pattern (pc : PatternCache) (pattern : string)
    : result PatternCache :=
  if bool_decide (pattern ∈ wildcard_cache pc) then
    Ok {| regex_cache := regex_cache pc; wildcard_cache := wildcard_cache pc;
          cache_hits := S (cache_hits pc); cache_misses := cache_misses pc |}
  else if re_compiles re (wildcard_regex pattern) then
    Ok {| regex_cache := regex_cache pc;
          wildcard_cache := {[pattern]} ∪ wildcard_cache pc;
          cache_hits := cache_hits pc; cache_misses := S (cache_misses pc) |}
  else Raise "re.error".

(** [OptimizedRuleConditions(...)]: the inherited constructor copies the
    fields and compiles the name pattern, raising [ValueError] if it cannot;
    then both patterns are compiled through the shared cache. *)
Definition optimize_conditions (pc : PatternCache) (c : RuleConditions)
    : result (RuleConditions * PatternCache) :=
  let c' := {| path_pattern := path_pattern c;
               file_extensions := file_extensions c;
               min_size := min_size c; max_size := max_size c;
               name_pattern := name_pattern c; optimized := true |} in
  let after_name :=
    if truthy (name_pattern c) then
      if re_compiles re (pattern_of (name_pattern c))
      then get_regex pc (pattern_of (name_pattern c))
      else Raise "ValueError: Invalid regex pattern"
    else Ok pc in
  match after_name with
  | Raise m => Raise m
  | Ok pc1 =>
      let after_path :=
        if truthy (path_pattern c)
        then get_wildcard_pattern pc1 (pattern_of (path_pattern c))
        else Ok pc1 in
      match after_path with
      | Raise m => Raise m
      | Ok pc2 => Ok (c', pc2)
      end
  end.

Definition set_conditions (r : Rule) (c : RuleConditions) : Rule :=
  {| id := id r; name := name r; conditions := c; risk_level := risk_level r;
     enabled := enabled r; description := description r; category := category r |}.

(** the [for rule in self.rules] loop of [load_rules] *)
Fixpoint optimize_rules (pc : PatternCache) (rs : list Rule)
    : result (list Rule * PatternCache) :=
  match rs with
  | [] => Ok ([], pc)
  | r :: rest =>
      match optimize_conditions pc (conditions r) with
      | Raise m => Raise m
      | Ok (c', pc1) =>
          match optimize_rules pc1 rest with
          | Raise m => Raise m
          | Ok (rest', pc2) => Ok (set_conditions r c' :: rest', pc2)
          end
      end
  end.

End WithRegex.

(** [OptimizedRuleIndex] *)
Record OptimizedRuleIndex : Type := {
  ix_rules : list Rule;
  ix_enabled_rules : list Rule;
  extension_index : ExtensionIndex;
  ix_rules_by_risk : RiskLevel -> list Rule
}.

Definition opt_index_rule (ix : OptimizedRuleIndex) (r : Rule) : OptimizedRuleIndex :=
  {| ix_rules := ix_rules ix;
     ix_enabled_rules :=
       if enabled r then ix_enabled_rules ix ++ [r] else ix_enabled_rules ix;
     extension_index := ExtensionIndex_add_rule (extension_index ix) r;
     ix_rules_by_risk := fun lvl =>
       if RiskLevel_eqb lvl (risk_level r)
       then ix_rules_by_risk ix lvl ++ [r] else ix_rules_by_risk ix lvl |}.

(** [OptimizedRuleIndex(rules)] *)
Definition OptimizedRuleIndex_init (rs : list Rule) : OptimizedRuleIndex :=
  fold_left opt_index_rule rs
    {| ix_rules := rs; ix_enabled_rules := [];
       extension_index := ExtensionIndex_init; ix_rules_by_risk := fun _ => [] |}.

(** [self.rule_index] holds a [RuleIndex] after the inherited [load_rules]
    and [add_rule], an [OptimizedRuleIndex] after the overriding
    [load_rules] found at least one rule. *)
Inductive AnyIndex : Type :=
| BaseIndex (ix : RuleIndex)
| OptIndex (ix : OptimizedRuleIndex).

(** [OptimizedRuleEngine].  [match_cache] is a Python dict, which iterates
    in insertion order: an association list, oldest entry first. *)
Record Engine : Type := {
  rules : list Rule;
  rule_index : option AnyIndex;
  pattern_cache : PatternCache;
  match_cache : list (string * RuleMatch);
  cache_size_limit : N
}.

Definition Engine_init : Engine :=
  {| rules := []; rule_index := None; pattern_cache := PatternCache_init;
     match_cache := []; cache_size_limit := 10000%N |}.

Fixpoint cache_lookup (c : list (string * RuleMatch)) (key : string) : option RuleMatch :=
  match c with
  | [] => None
  | (k, m) :: rest => if String.eqb k key then Some m else cache_lookup rest key
  end.

(** [d[key] = m]: an existing key keeps its place *)
Fixpoint cache_store (c : list (string * RuleMatch)) (key : string) (m : RuleMatch)
    : list (string * RuleMatch) :=
  match c with
  | [] => [(key, m)]
  | (k, v) :: rest =>
      if String.eqb k key then (k, m) :: rest else (k, v) :: cache_store rest key m
  end.

(** [_cache_match].  The limit is 10000 in every engine the code builds;
    with a limit of 0 and an empty cache Python's [next(iter(...))] raises,
    where [tail] leaves the empty cache. *)
Definition _cache_match (e : Engine) (key : string) (m : RuleMatch) : Engine :=
  let c := if (cache_size_limit e <=? N.of_nat (length (match_cache e)))%N
           then tail (match_cache e) else match_cache e in
  {| rules := rules e; rule_index := rule_index e; pattern_cache := pattern_cache e;
     match_cache := cache_store c key m; cache_size_limit := cache_size_limit e |}.

Section WithRegex.
Variable re : Regex.

(** [OptimizedRuleEngine.load_rules] *)
Definition load_rules (cfg : ConfigFile) (e : Engine) : result Engine :=
  match RuleEngine.load_rules cfg
          {| RuleEngine.rules := rules e; RuleEngine.rule_index := None |} with
  | Raise m => Raise m
  | Ok b =>
      match RuleEngine.rules b with
      | [] =>
          Ok {| rules := [];
                rule_index := option_map BaseIndex (RuleEngine.rule_index b);
                pattern_cache := pattern_cache e; match_cache := match_cache e;
                cache_size_limit := cache_size_limit e |}
      | rs =>
          match optimize_rules re (pattern_cache e) rs with
          | Raise m => Raise m
          | Ok (rs', pc) =>
              Ok {| rules := rs';
                    rule_index := Some (OptIndex (OptimizedRuleIndex_init rs'));
                    pattern_cache := pc; match_cache := match_cache e;
                    cache_size_limit := cache_size_limit e |}
          end
      end
  end.

(** the [for rule in candidate_rules] loop *)
Fixpoint candidate_loop (candidates : list Rule) (f : FileInfo) : RuleMatch :=
  match candidates with
  | [] => unmatched f
  | r :: rest =>
      if negb (enabled r) then candidate_loop rest f
      else if rule_matches re r f then matched_by r f
      else candidate_loop rest f
  end.

(** [OptimizedRuleEngine.match_file] *)
Definition match_file (cfg : ConfigFile) (e : Engine) (f : FileInfo)
    : result (RuleMatch * Engine) :=
  let loaded := match rule_index e with
                | Some _ => Ok e
                | None => load_rules cfg e
                end in
  match loaded with
  | Raise m => Raise m
  | Ok e' =>
      let cache_key := Pathlib.to_string (ScanModels.path f) in
      match cache_lookup (match_cache e') cache_key with
      | Some m => Ok (m, e')
      | None =>
          match rule_index e' with
          | Some (OptIndex ix) =>
              let by_ext := ExtensionIndex_get_rules (extension_index ix)
                              (ScanModels.file_extension f) in
              let candidate_rules :=
                match by_ext with
                | [] => ix_enabled_rules ix
                | _ => by_ext
                end in
              let m := candidate_loop candidate_rules f in
              Ok (m, _cache_match e' cache_key m)
          | Some (BaseIndex _) =>
              Raise "AttributeError: 'RuleIndex' object has no attribute 'get_rules_by_extension'"
          | None =>
              Raise "AttributeError: 'NoneType' object has no attribute 'get_rules_by_extension'"
          end
      end
  end.

End WithRegex.

End OptimizedRuleEngine.

(* ===================================================================== *)
(** ** controllers/state_manager.py *)
(* ===================================================================== *)

Module StateManager.

Inductive SystemState : Type := IDLE | SCANNING | CLEANING | ANALYZING.

Definition SystemState_eqb (a b : SystemState) : bool :=
  match a, b with
  | IDLE, IDLE | SCANNING, SCANNING | CLEANING, CLEANING | ANALYZING, ANALYZING => true
  | _, _ => false
  end.

(** [StateTransitionError(from_state, to_state)] *)
Record StateTransitionError : Type := {
  from_state : SystemState;
  to_state : SystemState
}.

Definition value (s : SystemState) : string :=
  match s with
  | IDLE => "idle"
  | SCANNING => "scanning"
  | CLEANING => "cleaning"
  | ANALYZING => "analyzing"
  end.

(** [StateTransitionError.message] *)
Definition message (e : StateTransitionError) : string :=
  "Invalid state transition: " +:+ value (from_state e) +:+ " -> "
  +:+ value (to_state e) +:+ ". Please check valid transitions.".

(** A call either returns a value or raises; both leave a state behind. *)
Inductive outcome (S A : Type) : Type :=
| Returns (a : A) (s : S)
| Raises (e : StateTransitionError) (s : S).
Arguments Returns {S A} a s.
Arguments Raises {S A} e s.

(** The singleton's fields.  The lock only serialises callers and the
    result queue is not read by any transition. *)
Record t : Type := {
  _state : SystemState;
  _cancel_flag : bool
}.

(** the instance [__new__] creates *)
Definition new : t := {| _state := IDLE; _cancel_flag := false |}.

(** [VALID_TRANSITIONS.get(state, [])] *)
Definition VALID_TRANSITIONS (s : SystemState) : list SystemState :=
  match s with
  | IDLE => [SCANNING; ANALYZING; CLEANING]
  | SCANNING => [IDLE; CLEANING]
  | ANALYZING => [IDLE]
  | CLEANING => [IDLE]
  end.

(** [transition_to] *)
Definition transition_to (m : t) (new_state : SystemState) : outcome t bool :=
  let valid_next_states := VALID_TRANSITIONS (_state m) in
  if negb (existsb (SystemState_eqb new_state) valid_next_states) then
    Raises {| from_state := _state m; to_state := new_state |} m
  else
    Returns true {| _state := new_state; _cancel_flag := false |}.

(** [request_cancel] *)
Definition request_cancel (m : t) : t :=
  {| _state := _state m; _cancel_flag := true |}.

(** [reset_cancel_flag] *)
Definition reset_cancel_flag (m : t) : t :=
  {| _state := _state m; _cancel_flag := false |}.

Definition current_state (m : t) : SystemState := _state m.
Definition is_cancel_requested (m : t) : bool := _cancel_flag m.
Definition is_idle (m : t) : bool := SystemState_eqb (current_state m) IDLE.
Definition is_scanning (m : t) : bool := SystemState_eqb (current_state m) SCANNING.
Definition is_cleaning (m : t) : bool := SystemState_eqb (current_state m) CLEANING.
Definition is_analyzing (m : t) : bool := SystemState_eqb (current_state m) ANALYZING.

End StateManager.

(* ===================================================================== *)
(** ** core/cleaner.py *)
(* ===================================================================== *)

Module Cleaner.
Import ScanModels.

(** [CleanResult]; [duration] is wall-clock time and is left out. *)
Record CleanResult : Type := {
  success : bool;
  files_deleted : nat;
  total_size : PyNum.num;
  errors : list string;
  skipped : nat
}.

(** [CleanResult()] *)
Definition CleanResult_init : CleanResult :=
  {| success := true; files_deleted := 0; total_size := PyNum.Int 0;
     errors := []; skipped := 0 |}.

Definition set_total_size (r : CleanResult) (v : PyNum.num) : CleanResult :=
  {| success := success r; files_deleted := files_deleted r; total_size := v;
     errors := errors r; skipped := skipped r |}.

(** the [formatted_size] property: its loop assigns to [self.total_size],
    so reading it returns the string and leaves a changed object. *)
Definition formatted_size (r : CleanResult) : string * CleanResult :=
  let '(s, v) := format_loop UNITS (total_size r) in (s, set_total_size r v).

(** [CleanerExecutor._format_size]: the same loop over a local variable *)
Definition _format_size (size_bytes : PyNum.num) : string :=
  fst (format_loop UNITS size_bytes).

(** The clean events as [EventBus.publish] receives them. *)
Inductive Event : Type :=
| CLEAN_STARTED (file_count : nat)
| CLEAN_PROGRESS (current total deleted : nat) (size : PyNum.num)
| CLEAN_COMPLETED (files_deleted : nat) (total_size : PyNum.num)
| CLEAN_FAILED (files_deleted error_count : nat) (errors : list string).

(** Everything outside the process: the file system, whether the
    [send2trash] package is installed, which paths it fails on, and the
    events published so far. *)
Record World : Type := {
  fs : FileSystem;
  send2trash_installed : bool;
  send2trash_fails : Path -> bool;
  published : list Event
}.

Definition publish (w : World) (e : Event) : World :=
  {| fs := fs w; send2trash_installed := send2trash_installed w;
     send2trash_fails := send2trash_fails w; published := published w ++ [e] |}.

(** a path moved to the recycle bin no longer exists, nor does anything
    below it.  Paths are compared by their parts as written: what another
    spelling of the same file shows afterwards is not described. *)
Definition remove (w : World) (p : Path) : World :=
  {| fs := {| fs_exists := fun q =>
                if bool_decide (take (length p) q = p) then false
                else fs_exists (fs w) q;
              fs_realpath := fs_realpath (fs w) |};
     send2trash_installed := send2trash_installed w;
     send2trash_fails := send2trash_fails w; published := published w |}.

(** [_delete_file]: a simulated delete when the package is missing, else
    [send2trash], whose exception gives [False] *)
Definition _delete_file (w : World) (p : Path) : bool * World :=
  if negb (send2trash_installed w) then (true, w)
  else if send2trash_fails w p then (false, w)
  else (true, remove w p).

(** [CleanerExecutor] with the two objects it shares with its callers *)
Record Executor : Type := {
  security : SecurityLayer.cls_t;
  _cancelled : bool
}.

Definition Executor_init : Executor :=
  {| security := SecurityLayer.initial; _cancelled := false |}.

Definition skip (r : CleanResult) : CleanResult :=
  {| success := success r; files_deleted := files_deleted r;
     total_size := total_size r; errors := errors r; skipped := S (skipped r) |}.

Definition deleted (r : CleanResult) (f : FileInfo) : CleanResult :=
  {| success := success r; files_deleted := S (files_deleted r);
     total_size := PyNum.add (total_size r) (ScanModels.size f);
     errors := errors r; skipped := skipped r |}.

Definition add_error (r : CleanResult) (msg : string) : CleanResult :=
  {| success := success r; files_deleted := files_deleted r;
     total_size := total_size r; errors := errors r ++ [msg]; skipped := skipped r |}.

Definition cancelled_result (r : CleanResult) : CleanResult :=
  {| success := false; files_deleted := files_deleted r;
     total_size := total_size r; errors := errors r ++ ["Cancelled by user"];
     skipped := skipped r |}.

Section Clean.
Variable ex : Executor.
Variable state_manager : StateManager.t.

(** The [for index, file_info in enumerate(files)] loop.  A skipped file
    leaves by [continue], before the progress event.  The progress
    callback is caller code and is not modelled.  The [except Exception]
    branch, which records "Error deleting <path>: <e>" and goes on to the
    progress event, is entered only when the safety check itself raises;
    the [FileSystem] oracle always answers, so the branch does not appear
    here. *)
Fixpoint clean_loop (total_files index : nat) (files : list FileInfo)
    (w : World) (r : CleanResult) : World * CleanResult :=
  match files with
  | [] => (w, r)
  | file_info :: rest =>
      if _cancelled ex || StateManager.is_cancel_requested state_manager then
        (w, cancelled_result r)
      else
        let '(is_safe, _) :=
          SecurityLayer.is_safe_to_delete (fs w) (security ex)
            (ScanModels.path file_info) [] in
        if negb is_safe then
          clean_loop total_files (S index) rest w (skip r)
        else
          let '(ok, w1) := _delete_file w (ScanModels.path file_info) in
          let r1 := if ok then deleted r file_info
                    else add_error r ("Failed to delete: "
                                      +:+ Pathlib.to_string (ScanModels.path file_info)) in
          let w2 :=
            if ((S index) mod 10 =? 0)%nat || (S index =? total_files)%nat
            then publish w1 (CLEAN_PROGRESS (S index) total_files
                               (files_deleted r1) (total_size r1))
            else w1 in
          clean_loop total_files (S index) rest w2 r1
  end.

(** [CleanerExecutor.clean] *)
Definition clean (files : list FileInfo) (w : World) : World * CleanResult :=
  match files with
  | [] => (w, CleanResult_init)
  | _ =>
      let w0 := publish w (CLEAN_STARTED (length files)) in
      let '(w1, r) := clean_loop (length files) 0 files w0 CleanResult_init in
      if success r && (length (errors r) =? 0)%nat then
        (publish w1 (CLEAN_COMPLETED (files_deleted r) (total_size r)), r)
      else
        (publish w1 (CLEAN_FAILED (files_deleted r) (length (errors r))
                       (take 5 (errors r))), r)
  end.

End Clean.

(** [cancel] and [reset_cancel] also reach into the shared state manager *)
Definition cancel (ex : Executor) (m : StateManager.t) : Executor * StateManager.t :=
  ({| security := security ex; _cancelled := true |}, StateManager.request_cancel m).

Definition reset_cancel (ex : Executor) (m : StateManager.t) : Executor * StateManager.t :=
  ({| security := security ex; _cancelled := false |}, StateManager.reset_cancel_flag m).

End Cleaner.

(* ===================================================================== *)
(** ** controllers/clean_controller.py *)
(* ===================================================================== *)

Module CleanController.
Import ScanModels StateManager.

(** The controller together with the objects it holds references to.  The
    state manager is the process-wide singleton, shared with the executor;
    [security] and the executor's [security] stand for the one
    [SecurityLayer] class, whose protected list is a class attribute.
    [_clean_thread] is the argument list of the last worker thread that was
    started, [None] if none was. *)
Record t : Type := {
  cleaner : Cleaner.Executor;
  security : SecurityLayer.cls_t;
  state_manager : StateManager.t;
  _clean_thread : option (list FileInfo);
  _result : option Cleaner.CleanResult;
  _confirmed : bool;
  _preview_files : list FileInfo;
  _complete_event : bool
}.

(** [RECYCLE_BIN_THRESHOLD = 1024 * 1024 * 1024] *)
Definition RECYCLE_BIN_THRESHOLD : PyNum.num := PyNum.Int (1024 * 1024 * 1024).

(** [__init__] *)
Definition init (m : StateManager.t) : t :=
  {| cleaner := Cleaner.Executor_init; security := SecurityLayer.initial;
     state_manager := m; _clean_thread := None; _result := None;
     _confirmed := false; _preview_files := []; _complete_event := false |}.

Definition set_confirmation (c : t) (confirmed : bool) (preview : list FileInfo) : t :=
  {| cleaner := cleaner c; security := security c; state_manager := state_manager c;
     _clean_thread := _clean_thread c; _result := _result c;
     _confirmed := confirmed; _preview_files := preview;
     _complete_event := _complete_event c |}.

Definition set_state_manager (c : t) (m : StateManager.t) : t :=
  {| cleaner := cleaner c; security := security c; state_manager := m;
     _clean_thread := _clean_thread c; _result := _result c;
     _confirmed := _confirmed c; _preview_files := _preview_files c;
     _complete_event := _complete_event c |}.

(** the dictionary [preview_clean] returns *)
Record PreviewInfo : Type := {
  file_count : nat;
  total_size : PyNum.num;
  formatted_size : string;
  safe_files : nat;
  risky_files : nat;
  system_files : nat;
  recycle_bin_warning : bool;
  recycle_bin_usage : string
}.

(** [_format_size]: a static method, its loop works on the argument *)
Definition _format_size (size_bytes : PyNum.num) : string :=
  fst (format_loop UNITS size_bytes).

Section WithFileSystem.
Variable filesystem : FileSystem.

(** the classification loop of [preview_clean]: (risky, safe, system) *)
Fixpoint classify (c : t) (files : list FileInfo) (acc : nat * nat * nat)
    : nat * nat * nat :=
  match files with
  | [] => acc
  | file_info :: rest =>
      let '(risky_count, safe_count, system_count) := acc in
      let '(is_safe, reason) :=
        SecurityLayer.is_safe_to_delete filesystem (security c)
          (ScanModels.path file_info) [] in
      if negb is_safe then
        if PyStr.contains "system" (PyStr.lower reason)
           || PyStr.contains "protected" (PyStr.lower reason)
        then classify c rest (risky_count, safe_count, S system_count)
        else classify c rest acc
      else if PyStr.mem (ScanModels.file_extension file_info) [".tmp"; ".cache"; ".temp"]
      then classify c rest (risky_count, S safe_count, system_count)
      else classify c rest (S risky_count, safe_count, system_count)
  end.

(** [preview_clean] *)
Definition preview_clean (c : t) (files : list FileInfo) : PreviewInfo * t :=
  let c := set_confirmation c false files in
  let total := fold_left (fun acc f => PyNum.add acc (ScanModels.size f))
                         files (PyNum.Int 0) in
  let '(risky_count, safe_count, system_count) := classify c files (0, 0, 0)%nat in
  ({| file_count := length files;
      total_size := total;
      formatted_size := _format_size total;
      safe_files := safe_count;
      risky_files := risky_count;
      system_files := system_count;
      recycle_bin_warning := PyNum.gtb total RECYCLE_BIN_THRESHOLD;
      recycle_bin_usage :=
        PyNum.format_f 1
          (PyNum.mul (PyNum.truediv total RECYCLE_BIN_THRESHOLD) (PyNum.Int 100))
        +:+ "%" |}, c).

End WithFileSystem.

(** [confirm_clean] *)
Definition confirm_clean (c : t) : bool * t :=
  (true, set_confirmation c true (_preview_files c)).

(** [reset_confirmation] *)
Definition reset_confirmation (c : t) : t := set_confirmation c false [].

(** [is_confirmed] *)
Definition is_confirmed (c : t) : bool := _confirmed c.

(** [start_clean].  Starting the thread is recorded in [_clean_thread]; the
    worker body is [_clean_worker] below, and creating the thread is taken
    to succeed.  The handler of the [try] makes a second transition, which
    can raise out of the call. *)
Definition start_clean (c : t) (files : list FileInfo) (require_confirmation : bool)
    : outcome t bool :=
  if negb (StateManager.is_idle (state_manager c)) then Returns false c
  else match files with
  | [] => Returns false c
  | _ =>
      if require_confirmation && negb (_confirmed c) then Returns false c
      else
        let c1 := {| cleaner := cleaner c; security := security c;
                     state_manager := state_manager c;
                     _clean_thread := _clean_thread c; _result := None;
                     _confirmed := _confirmed c; _preview_files := _preview_files c;
                     _complete_event := false |} in
        match StateManager.transition_to (state_manager c1) CLEANING with
        | Returns _ m =>
            Returns true
              {| cleaner := cleaner c1; security := security c1; state_manager := m;
                 _clean_thread := Some files; _result := _result c1;
                 _confirmed := _confirmed c1; _preview_files := _preview_files c1;
                 _complete_event := _complete_event c1 |}
        | Raises _ m =>
            match StateManager.transition_to m IDLE with
            | Returns _ m' => Returns false (set_state_manager c1 m')
            | Raises e m' => Raises e (set_state_manager c1 m')
            end
        end
  end.

(** [start_clean(files)] with the default arguments *)
Definition start_clean_default (c : t) (files : list FileInfo) : outcome t bool :=
  start_clean c files true.

(** [_clean_worker], the body of the worker thread *)
Definition _clean_worker (c : t) (files : list FileInfo) (w : Cleaner.World)
    : Cleaner.World * outcome t unit :=
  let '(w', r) := Cleaner.clean (cleaner c) (state_manager c) files w in
  let finish (m : StateManager.t) (res : option Cleaner.CleanResult) : t :=
    {| cleaner := cleaner c; security := security c; state_manager := m;
       _clean_thread := _clean_thread c; _result := res;
       _confirmed := _confirmed c; _preview_files := _preview_files c;
       _complete_event := true |} in
  match StateManager.transition_to (state_manager c) IDLE with
  | Returns _ m => (w', Returns tt (finish m (Some r)))
  | Raises e m =>
      match StateManager.transition_to m IDLE with
      | Returns _ m' =>
          (w', Returns tt
                 (finish m' (Some {| Cleaner.success := false; Cleaner.files_deleted := 0;
                                     Cleaner.total_size := PyNum.Int 0;
                                     Cleaner.errors := [StateManager.message e];
                                     Cleaner.skipped := 0 |})))
      | Raises e' m' =>
          (w', Raises e'
                 {| cleaner := cleaner c; security := security c; state_manager := m';
                    _clean_thread := _clean_thread c; _result := Some r;
                    _confirmed := _confirmed c; _preview_files := _preview_files c;
                    _complete_event := _complete_event c |})
      end
  end.

(** [start_clean] followed by the worker thread it started, run to
    completion: the only path from the controller to a deletion. *)
Definition start_clean_then_worker (c : t) (files : list FileInfo)
    (require_confirmation : bool) (w : Cleaner.World)
    : Cleaner.World * outcome t bool :=
  match start_clean c files require_confirmation with
  | Returns true c' =>
      match _clean_worker c' files w with
      | (w', Returns _ c'') => (w', Returns true c'')
      | (w', Raises e c'') => (w', Raises e c'')
      end
  | other => (w, other)
  end.

(** [get_result] *)
Definition get_result (c : t) : option Cleaner.CleanResult := _result c.

(** [is_cleaning] *)
Definition is_cleaning (c : t) : bool := StateManager.is_cleaning (state_manager c).

End CleanController.

(* ===================================================================== *)
(** ** Example environments *)
(* ===================================================================== *)

Module Examples.
Import ScanModels.

(** A case-insensitive, case-preserving disk without links: a path exists
    when each of its parts is the name of an entry in [names], up to letter
    case, and resolving a path spells each part the way the disk stores
    it. *)
Section Disk.
Variable names : list string.

Definition same_name (c d : string) : bool :=
  String.eqb (PyStr.lower d) (PyStr.lower c).

Definition stored (c : string) : string :=
  match List.find (same_name c) names with
  | Some d => d
  | None => c
  end.

Definition known (c : string) : bool := existsb (same_name c) names.

Definition disk : FileSystem :=
  {| fs_exists := fun p => forallb known p;
     fs_realpath := fun p => Ok (map stored p) |}.
End Disk.

(** a disk where links send some paths elsewhere *)
Definition linked (links : list (Path * Path)) (existing : list Path) : FileSystem :=
  {| fs_exists := fun p => bool_decide (p ∈ existing);
     fs_realpath := fun p =>
       match List.find (fun l => bool_decide (fst l = p)) links with
       | Some l => Ok (snd l)
       | None => Ok p
       end |}.

(** a regular-expression library that is never asked anything *)
Definition no_regex : Regex :=
  {| re_compiles := fun _ => true;
     re_match := fun _ _ => false;
     re_search := fun _ _ => false |}.

Definition windows_disk : FileSystem :=
  disk ["C:\"; "Windows"; "System32"; "kernel32.dll"; "Temp";
        "a.tmp"; "b.tmp"; "d.tmp"; "e.tmp"].

Definition file (s : string) (bytes : Z) : FileInfo :=
  ScanModels.make (Pathlib.of_string s) (PyNum.Int bytes) false 0 "".

Definition world : Cleaner.World :=
  {| Cleaner.fs := windows_disk; Cleaner.send2trash_installed := true;
     Cleaner.send2trash_fails := fun _ => false; Cleaner.published := [] |}.

(** five files, the third of which is not on the disk *)
Definition five_files : list FileInfo :=
  [ file "C:\Temp\a.tmp" 10; file "C:\Temp\b.tmp" 20; file "C:\Temp\c.tmp" 30;
    file "C:\Temp\d.tmp" 40; file "C:\Temp\e.tmp" 50 ].

End Examples.

(* ===================================================================== *)
(** * Properties of the state manager *)
(* ===================================================================== *)

Module StateManagerFacts.
Import StateManager.

Lemma SystemState_eqb_eq (a b : SystemState) : SystemState_eqb a b = true <-> a = b.
Proof. destruct a, b; simpl; split; intros H; congruence. Qed.

Lemma allowed_spec (s s' : SystemState) :
  existsb (SystemState_eqb s') (VALID_TRANSITIONS s) = true <-> In s' (VALID_TRANSITIONS s).
Proof.
  rewrite existsb_exists. split.
  - intros (x & Hin & Heq). apply SystemState_eqb_eq in Heq. now subst.
  - intros Hin. exists s'. split; [assumption | now apply SystemState_eqb_eq].
Qed.

Lemma transition_to_allowed (m : t) (s' : SystemState) :
  In s' (VALID_TRANSITIONS (_state m)) ->
  transition_to m s' = Returns true {| _state := s'; _cancel_flag := false |}.
Proof.
  intros Hin. unfold transition_to.
  apply allowed_spec in Hin. now rewrite Hin.
Qed.

Lemma transition_to_refused (m : t) (s' : SystemState) :
  ~ In s' (VALID_TRANSITIONS (_state m)) ->
  transition_to m s' = Raises {| from_state := _state m; to_state := s' |} m.
Proof.
  intros Hnin. unfold transition_to.
  destruct (existsb (SystemState_eqb s') (VALID_TRANSITIONS (_state m))) eqn:E.
  - apply allowed_spec in E. contradiction.
  - reflexivity.
Qed.

Lemma allowed_dec (s s' : SystemState) :
  {In s' (VALID_TRANSITIONS s)} + {~ In s' (VALID_TRANSITIONS s)}.
Proof.
  destruct (existsb (SystemState_eqb s') (VALID_TRANSITIONS s)) eqn:E.
  - left. now apply allowed_spec.
  - right. intros H. apply allowed_spec in H. congruence.
Qed.

(** C6.  [transition_to] raises a [StateTransitionError] exactly when the
    target is not among the states allowed after the current one, the
    allowed pairs being Idle to Scanning, Analyzing or Cleaning, Scanning to
    Idle or Cleaning, Analyzing to Idle and Cleaning to Idle.  The error
    carries the current and the requested state and the manager is left as
    it was; a successful call returns [True], makes the requested state
    current and clears the cancel flag. *)
Theorem transition_to_spec (m : t) (s' : SystemState) :
  ((exists e m', transition_to m s' = Raises e m')
     <-> ~ In s' (VALID_TRANSITIONS (_state m)))
  /\ (forall e m', transition_to m s' = Raises e m' ->
        from_state e = _state m /\ to_state e = s' /\ m' = m)
  /\ (forall b m', transition_to m s' = Returns b m' ->
        b = true /\ _state m' = s' /\ _cancel_flag m' = false)
  /\ (In s' (VALID_TRANSITIONS (_state m)) <->
      In (_state m, s')
         [ (IDLE, SCANNING); (IDLE, ANALYZING); (IDLE, CLEANING);
           (SCANNING, IDLE); (SCANNING, CLEANING);
           (ANALYZING, IDLE); (CLEANING, IDLE) ]).
Proof.
  split; [| split; [| split]].
  - split.
    + intros (e & m' & Hr) Hin.
      rewrite (transition_to_allowed m s' Hin) in Hr. discriminate.
    + intros Hnin. eexists _, _. now apply transition_to_refused.
  - intros e m' Hr. destruct (allowed_dec (_state m) s') as [Hin | Hnin].
    + rewrite (transition_to_allowed m s' Hin) in Hr. discriminate.
    + rewrite (transition_to_refused m s' Hnin) in Hr. now inversion Hr.
  - intros b m' Hr. destruct (allowed_dec (_state m) s') as [Hin | Hnin].
    + rewrite (transition_to_allowed m s' Hin) in Hr. now inversion Hr.
    + rewrite (transition_to_refused m s' Hnin) in Hr. discriminate.
  - destruct (_state m), s'; simpl; intuition congruence.
Qed.

End StateManagerFacts.

(* ===================================================================== *)
(** * Properties of the clean controller *)
(* ===================================================================== *)

Module CleanControllerFacts.
Import ScanModels StateManager CleanController.

Lemma is_idle_spec (m : StateManager.t) : is_idle m = true <-> _state m = IDLE.
Proof. unfold is_idle, current_state. apply StateManagerFacts.SystemState_eqb_eq. Qed.

Lemma not_idle (m : StateManager.t) : _state m <> IDLE -> is_idle m = false.
Proof.
  intros H. destruct (is_idle m) eqn:E; [| reflexivity].
  apply is_idle_spec in E. contradiction.
Qed.

(** a call that returns [False] starts no worker, so the world stays *)
Lemma refused_then_worker (c : t) (files : list FileInfo) (rc : bool) (w : Cleaner.World) :
  start_clean c files rc = Returns false c ->
  start_clean_then_worker c files rc w = (w, Returns false c).
Proof. intros H. unfold start_clean_then_worker. now rewrite H. Qed.

Lemma start_clean_needs_confirmation (c : t) (files : list FileInfo) :
  _confirmed c = false -> start_clean c files true = Returns false c.
Proof.
  intros Hc. unfold start_clean.
  destruct (is_idle (state_manager c)); simpl; [| reflexivity].
  destruct files; [reflexivity |]. now rewrite Hc.
Qed.

(** C2.  Without confirmation ([_confirmed] is false, as it is in a new
    controller and after [reset_confirmation]), [start_clean] with
    [require_confirmation=True] returns [False] for every file list and
    leaves the controller, the state manager in it and the thread field as
    they were; running whatever worker the call started changes nothing in
    the world, so nothing is deleted. *)
Theorem start_clean_unconfirmed (c : t) (files : list FileInfo) (w : Cleaner.World) :
  _confirmed c = false ->
  start_clean c files true = Returns false c
  /\ start_clean_then_worker c files true w = (w, Returns false c)
  /\ (forall m, _confirmed (init m) = false)
  /\ _confirmed (reset_confirmation c) = false.
Proof.
  intros Hc.
  pose proof (start_clean_needs_confirmation c files Hc) as Hs.
  repeat split; try assumption.
  now apply refused_then_worker.
Qed.

Lemma start_clean_unconfirmed_witness :
  let c := init StateManager.new in
  start_clean c Examples.five_files true = Returns false c
  /\ start_clean_then_worker c Examples.five_files true Examples.world
     = (Examples.world, Returns false c)
  /\ (forall m, _confirmed (init m) = false)
  /\ _confirmed (reset_confirmation c) = false.
Proof.
  exact (start_clean_unconfirmed (init StateManager.new) Examples.five_files
           Examples.world eq_refl).
Defined.

(** C8.  In every state other than Idle, Scanning included, [start_clean]
    returns [False] whatever its arguments, without touching the controller
    or the state manager and without starting a worker, although the
    transition table allows Scanning to Cleaning. *)
Theorem start_clean_not_idle (c : t) (files : list FileInfo) (rc : bool)
    (w : Cleaner.World) :
  _state (state_manager c) <> IDLE ->
  start_clean c files rc = Returns false c
  /\ start_clean_then_worker c files rc w = (w, Returns false c)
  /\ In CLEANING (VALID_TRANSITIONS SCANNING).
Proof.
  intros Hs.
  assert (start_clean c files rc = Returns false c) as H.
  { unfold start_clean. now rewrite (not_idle _ Hs). }
  repeat split; [assumption | now apply refused_then_worker | simpl; tauto].
Qed.

Definition scanning_confirmed : t :=
  snd (confirm_clean (init {| _state := SCANNING; _cancel_flag := false |})).

Lemma start_clean_not_idle_witness :
  start_clean scanning_confirmed Examples.five_files false
    = Returns false scanning_confirmed
  /\ start_clean_then_worker scanning_confirmed Examples.five_files false Examples.world
     = (Examples.world, Returns false scanning_confirmed)
  /\ In CLEANING (VALID_TRANSITIONS SCANNING).
Proof.
  apply (start_clean_not_idle scanning_confirmed Examples.five_files false Examples.world).
  simpl. discriminate.
Defined.

Lemma preview_clean_resets (filesystem : FileSystem) (c : t) (files : list FileInfo) :
  _confirmed (snd (preview_clean filesystem c files)) = false.
Proof.
  unfold preview_clean.
  destruct (classify filesystem (set_confirmation c false files) files (0, 0, 0)%nat)
    as [[risky safe] sys].
  reflexivity.
Qed.

(** C9.  [preview_clean] always leaves [_confirmed] false; hence after
    [confirm_clean] followed by [preview_clean], [start_clean] with default
    arguments returns [False], changes nothing and deletes nothing. *)
Theorem preview_clean_revokes_confirmation (filesystem : FileSystem) (c : t)
    (previewed files : list FileInfo) (w : Cleaner.World) :
  _confirmed (snd (preview_clean filesystem c previewed)) = false
  /\ (let c1 := snd (confirm_clean c) in
      let c2 := snd (preview_clean filesystem c1 previewed) in
      _confirmed c1 = true
      /\ start_clean_default c2 files = Returns false c2
      /\ start_clean_then_worker c2 files true w = (w, Returns false c2)).
Proof.
  split; [apply preview_clean_resets |].
  cbv zeta. split; [reflexivity |].
  pose proof (preview_clean_resets filesystem (snd (confirm_clean c)) previewed) as Hp.
  pose proof (start_clean_needs_confirmation _ files Hp) as Hs.
  split; [exact Hs | now apply refused_then_worker].
Qed.

End CleanControllerFacts.

(* ===================================================================== *)
(** * Properties of the rule engines *)
(* ===================================================================== *)

Module RuleEngineFacts.
Import ScanModels RuleEngine.

Lemma enabled_rules_fold (rs : list Rule) (idx : RuleIndex) :
  enabled_rules (fold_left index_rule rs idx)
  = enabled_rules idx ++ List.filter enabled rs.
Proof.
  revert idx. induction rs as [| r rs IH]; intros idx; simpl.
  - now rewrite app_nil_r.
  - rewrite IH. simpl. destruct (enabled r); simpl.
    + now rewrite <- app_assoc.
    + reflexivity.
Qed.

(** the index keeps the enabled rules in configured order *)
Lemma enabled_rules_init (rs : list Rule) :
  enabled_rules (RuleIndex_init rs) = List.filter enabled rs.
Proof. unfold RuleIndex_init. now rewrite enabled_rules_fold. Qed.

Section WithRegex.
Variable re : Regex.

Lemma rule_matches_enabled (r : Rule) (f : FileInfo) :
  rule_matches re r f = true -> enabled r = true.
Proof. unfold rule_matches. now destruct (enabled r). Qed.

(** disabled rules never match, so filtering them out changes nothing *)
Lemma match_loop_filter (rs : list Rule) (f : FileInfo) :
  match_loop re (List.filter enabled rs) f = match_loop re rs f.
Proof.
  induction rs as [| r rs IH]; simpl; [reflexivity |].
  destruct (enabled r) eqn:E; simpl.
  - now rewrite IH.
  - assert (rule_matches re r f = false) as Hr
      by (unfold rule_matches; now rewrite E).
    now rewrite Hr.
Qed.

Lemma match_loop_first (pre post : list Rule) (A : Rule) (f : FileInfo) :
  (forall r, In r pre -> rule_matches re r f = false) ->
  rule_matches re A f = true ->
  match_loop re (pre ++ A :: post) f = matched_by A f.
Proof.
  intros Hpre HA. induction pre as [| r pre IH]; simpl.
  - now rewrite HA.
  - rewrite (Hpre r) by now left.
    apply IH. intros r' Hr'. apply Hpre. now right.
Qed.

Lemma match_loop_none (rs : list Rule) (f : FileInfo) :
  (forall r, In r rs -> rule_matches re r f = false) ->
  match_loop re rs f = unmatched f.
Proof.
  intros H. induction rs as [| r rs IH]; simpl; [reflexivity |].
  rewrite (H r) by now left.
  apply IH. intros r' Hr'. apply H. now right.
Qed.

(** whatever the loop returns sits no later than any matching rule *)
Lemma match_loop_no_later (pre post : list Rule) (A : Rule) (f : FileInfo) :
  rule_matches re A f = true ->
  exists R, In R (pre ++ [A]) /\ rule_matches re R f = true
            /\ match_loop re (pre ++ A :: post) f = matched_by R f.
Proof.
  intros HA. induction pre as [| r pre IH]; simpl.
  - exists A. rewrite HA. auto.
  - destruct (rule_matches re r f) eqn:E.
    + exists r. auto.
    + destruct IH as (R & Hin & HR & Hm). exists R. auto.
Qed.

Lemma match_file_loaded (cfg : ConfigFile) (e : Engine) (f : FileInfo) :
  rule_index e = Some (RuleIndex_init (rules e)) ->
  match_file re cfg e f = Ok (match_loop re (rules e) f, e).
Proof.
  intros Hl. unfold match_file. rewrite Hl. cbv beta iota zeta. rewrite Hl.
  now rewrite enabled_rules_init, match_loop_filter.
Qed.

(** C5.  On an engine whose index was built from its rules ([load_rules]
    and [add_rule] leave it so), [match_file] returns the first enabled
    rule, in configured order, whose conditions the file satisfies: the
    rule [A] when no rule before it matches; never a rule placed after a
    matching one, so of two matching rules the later cannot win; and the
    explicit unmatched result, with no rule and [matched] false, when no
    enabled rule matches. *)
Theorem match_file_first_match (cfg : ConfigFile) (e : Engine) (f : FileInfo) :
  rule_index e = Some (RuleIndex_init (rules e)) ->
  (forall pre A post,
      rules e = pre ++ A :: post ->
      enabled A = true ->
      conditions_matches re (conditions A) f = true ->
      (forall r, In r pre ->
                 enabled r && conditions_matches re (conditions r) f = false) ->
      match_file re cfg e f
      = Ok ({| rule := Some A; file_info := f; matched := true;
               reason := "Matched rule: " +:+ name A |}, e))
  /\ (forall pre A mid B post,
      rules e = pre ++ A :: mid ++ B :: post ->
      enabled A = true -> conditions_matches re (conditions A) f = true ->
      enabled B = true -> conditions_matches re (conditions B) f = true ->
      exists R, In R (pre ++ [A])
                /\ match_file re cfg e f = Ok (matched_by R f, e))
  /\ ((forall r, In r (rules e) ->
                 enabled r && conditions_matches re (conditions r) f = false) ->
      match_file re cfg e f
      = Ok ({| rule := None; file_info := f; matched := false;
               reason := "No matching rule found" |}, e)).
Proof.
  intros Hl. rewrite (match_file_loaded cfg e f Hl).
  assert (forall r, rule_matches re r f
                    = enabled r && conditions_matches re (conditions r) f) as Hrm.
  { intros r. unfold rule_matches. now destruct (enabled r). }
  repeat split.
  - intros pre A post Hrs HA HcA Hpre. rewrite Hrs.
    rewrite match_loop_first; [reflexivity | |].
    + intros r Hr. rewrite Hrm. now apply Hpre.
    + rewrite Hrm, HA, HcA. reflexivity.
  - intros pre A mid B post Hrs HA HcA _ _. rewrite Hrs.
    destruct (match_loop_no_later pre (mid ++ B :: post) A f) as (R & Hin & _ & Hm).
    + rewrite Hrm, HA, HcA. reflexivity.
    + exists R. split; [assumption | now rewrite Hm].
  - intros Hnone. rewrite match_loop_none; [reflexivity |].
    intros r Hr. rewrite Hrm. now apply Hnone.
Qed.

Lemma load_rules_loaded (cfg : ConfigFile) (e e' : Engine) :
  load_rules cfg e = Ok e' -> rule_index e' = Some (RuleIndex_init (rules e')).
Proof. destruct cfg; simpl; intros H; inversion H; reflexivity. Qed.

Lemma add_rule_loaded (e : Engine) (r : Rule) :
  rule_index (add_rule e r) = Some (RuleIndex_init (rules (add_rule e r))).
Proof. reflexivity. Qed.

End WithRegex.

Definition by_extension (i n : string) (exts : list string) (lvl : RiskLevel) : Rule :=
  {| id := i; name := n; conditions := mk_conditions exts; risk_level := lvl;
     enabled := true; description := None; category := None |}.

(** two rules that both accept a [.tmp] file *)
Definition two_rules : Engine :=
  add_rule (add_rule Engine_init (by_extension "a" "A" [".tmp"; ".log"] L1_SAFE))
           (by_extension "b" "B" [".tmp"] L2_REVIEW).

Lemma match_file_first_match_witness :
  let f := Examples.file "C:\Temp\a.tmp" 10 in
  match_file Examples.no_regex Missing two_rules f
  = Ok (matched_by (by_extension "a" "A" [".tmp"; ".log"] L1_SAFE) f, two_rules).
Proof.
  cbv zeta.
  exact (proj1 (match_file_first_match Examples.no_regex Missing two_rules
                  (Examples.file "C:\Temp\a.tmp" 10) eq_refl)
               [] (by_extension "a" "A" [".tmp"; ".log"] L1_SAFE)
               [by_extension "b" "B" [".tmp"] L2_REVIEW]
               eq_refl eq_refl eq_refl (fun r (H : In r []) => False_ind _ H)).
Defined.

End RuleEngineFacts.

Module OptimizedRuleEngineFacts.
Import ScanModels RuleEngine.

(** what a caller sees of a [RuleMatch]: the flag and the matched rule's id *)
Definition verdict (m : RuleMatch) : bool * option string :=
  (matched m, option_map id (rule m)).

(** load the configuration into a new baseline engine and match once *)
Definition baseline_verdict (re : Regex) (cfg : ConfigFile) (f : FileInfo)
    : result (bool * option string) :=
  match RuleEngine.load_rules cfg RuleEngine.Engine_init with
  | Raise m => Raise m
  | Ok e =>
      match RuleEngine.match_file re cfg e f with
      | Raise m => Raise m
      | Ok (m, _) => Ok (verdict m)
      end
  end.

(** the same with a new optimized engine, whose match cache is empty *)
Definition optimized_verdict (re : Regex) (cfg : ConfigFile) (f : FileInfo)
    : result (bool * option string) :=
  match OptimizedRuleEngine.load_rules re cfg OptimizedRuleEngine.Engine_init with
  | Raise m => Raise m
  | Ok e =>
      match OptimizedRuleEngine.match_file re cfg e f with
      | Raise m => Raise m
      | Ok (m, _) => Ok (verdict m)
      end
  end.

(** a rule without an extension list: any file of at most 1000 bytes *)
Definition small_files : Rule :=
  {| id := "small"; name := "small files";
     conditions := {| path_pattern := None; file_extensions := [];
                      min_size := None; max_size := Some (PyNum.Int 1000);
                      name_pattern := None; optimized := false |};
     risk_level := L2_REVIEW; enabled := true;
     description := None; category := None |}.

(** a rule with an extension list *)
Definition tmp_files : Rule :=
  {| id := "tmp"; name := "temp files";
     conditions := mk_conditions [".tmp"];
     risk_level := L1_SAFE; enabled := true;
     description := None; category := None |}.

(** the same, for files of at least 100 bytes only *)
Definition big_tmp_files : Rule :=
  {| id := "bigtmp"; name := "big temp files";
     conditions := {| path_pattern := None; file_extensions := [".tmp"];
                      min_size := Some (PyNum.Int 100); max_size := None;
                      name_pattern := None; optimized := false |};
     risk_level := L1_SAFE; enabled := true;
     description := None; category := None |}.

(** C4.  The two engines disagree on a first, uncached call.  With the
    rules [small_files; tmp_files] a 10-byte [a.tmp] matches both: the
    baseline returns the first, [small_files], the optimized engine only
    looks at the rules indexed under [.tmp] and returns [tmp_files].  With
    [small_files; big_tmp_files] the baseline still matches [small_files]
    and the optimized engine reports no match.  With no rule at all the
    optimized engine raises where the baseline reports no match. *)
Theorem optimized_match_file_diverges :
  let f := Examples.file "C:\Temp\a.tmp" 10 in
  let re := Examples.no_regex in
  baseline_verdict re (Parsed [Ok small_files; Ok tmp_files]) f = Ok (true, Some "small")
  /\ optimized_verdict re (Parsed [Ok small_files; Ok tmp_files]) f = Ok (true, Some "tmp")
  /\ baseline_verdict re (Parsed [Ok small_files; Ok big_tmp_files]) f = Ok (true, Some "small")
  /\ optimized_verdict re (Parsed [Ok small_files; Ok big_tmp_files]) f = Ok (false, None)
  /\ baseline_verdict re (Parsed []) f = Ok (false, None)
  /\ optimized_verdict re (Parsed []) f
     = Raise "AttributeError: 'RuleIndex' object has no attribute 'get_rules_by_extension'".
Proof. cbv zeta. repeat split; vm_compute; reflexivity. Qed.

End OptimizedRuleEngineFacts.

(* ===================================================================== *)
(** * The size formatters *)
(* ===================================================================== *)

Module FormatFacts.
Import ScanModels PyNum.
Local Open Scope Q_scope.

(** one division of the loop, on the value *)
Definition div1024 (q : Q) : Q := q / (1024 # 1).

Lemma div1024_proper (a b : Q) : a == b -> div1024 a == div1024 b.
Proof. intros H. unfold div1024. now rewrite H. Qed.

Lemma iter_div1024_proper (k : nat) (a b : Q) :
  a == b -> Nat.iter k div1024 a == Nat.iter k div1024 b.
Proof.
  intros H. induction k as [| k IH]; simpl; [assumption |].
  now apply div1024_proper.
Qed.

Lemma iter_div1024_shift (k : nat) (a : Q) :
  Nat.iter k div1024 (div1024 a) = Nat.iter (S k) div1024 a.
Proof. induction k as [| k IH]; simpl; [reflexivity | now rewrite IH]. Qed.

Lemma value_truediv_KB (x : num) : value (truediv x KB) == div1024 (value x).
Proof. unfold truediv, KB, div1024. simpl. apply Qred_correct. Qed.

Lemma not_below_KB (x : num) : (1024 # 1) <= value x -> ltb x KB = false.
Proof.
  intros H. unfold ltb, KB. simpl.
  apply (proj2 (Qle_bool_iff _ _)) in H. now rewrite H.
Qed.

Lemma at_least_KB (x : num) : ltb x KB = false -> (1024 # 1) <= value x.
Proof.
  unfold ltb, KB. simpl. intros H.
  apply Qle_bool_iff. now destruct (Qle_bool (1024 # 1) (value x)).
Qed.

Lemma div1024_smaller (q : Q) : (1024 # 1) <= q -> div1024 q < q /\ 0 < div1024 q.
Proof.
  intros H. unfold div1024, Qdiv. change (/ (1024 # 1)) with (1 # 1024). lra.
Qed.

(** wherever the loop stops, the field holds the start value divided by
    1024 some number of times *)
Lemma format_loop_field (units : list string) (x : num) :
  exists k : nat,
    (k <= length units)%nat
    /\ value (snd (format_loop units x)) == Nat.iter k div1024 (value x)
    /\ value (snd (format_loop units x)) <= value x
    /\ (is_float x = true -> is_float (snd (format_loop units x)) = true).
Proof.
  revert x. induction units as [| unit rest IH]; intros x.
  - exists 0%nat. simpl. repeat split; auto with arith; lra.
  - simpl. destruct (ltb x KB) eqn:E; simpl.
    + exists 0%nat. simpl. repeat split; auto with arith; lra.
    + destruct (IH (truediv x KB)) as (k & Hk & Hv & Hle & Hf).
      exists (S k). repeat split.
      * lia.
      * rewrite Hv, <- iter_div1024_shift.
        apply iter_div1024_proper, value_truediv_KB.
      * pose proof (value_truediv_KB x) as Hd.
        pose proof (div1024_smaller (value x) (at_least_KB x E)) as [Hs _]. lra.
      * intros _. now apply Hf.
Qed.

(** a value of at least 1024 is divided at least once *)
Lemma format_loop_mutates (x : num) :
  (1024 # 1) <= value x ->
  value (snd (format_loop UNITS x)) < value x
  /\ is_float (snd (format_loop UNITS x)) = true
  /\ exists k : nat,
       (1 <= k <= 5)%nat
       /\ value (snd (format_loop UNITS x)) == Nat.iter k div1024 (value x).
Proof.
  intros H. unfold UNITS.
  change (format_loop ("B" :: ["KB"; "MB"; "GB"; "TB"]) x)
    with (if ltb x KB then (format_f 2 x +:+ " " +:+ "B", x)
          else format_loop ["KB"; "MB"; "GB"; "TB"] (truediv x KB)).
  rewrite (not_below_KB x H).
  destruct (format_loop_field ["KB"; "MB"; "GB"; "TB"] (truediv x KB))
    as (k & Hk & Hv & Hle & Hf).
  pose proof (value_truediv_KB x) as Hd.
  pose proof (div1024_smaller (value x) H) as [Hs _].
  repeat split.
  - lra.
  - now apply Hf.
  - exists (S k). simpl in Hk. split; [lia |].
    rewrite Hv, <- iter_div1024_shift. now apply iter_div1024_proper.
Qed.

Definition freed (bytes : Z) : Cleaner.CleanResult :=
  {| Cleaner.success := true; Cleaner.files_deleted := 1;
     Cleaner.total_size := Int bytes; Cleaner.errors := []; Cleaner.skipped := 0 |}.

(** a byte count that Python's float holds exactly: the division by
    [1024.0] first converts the int, which rounds only above 2**53 *)
Definition exact_bytes (x : num) (z : Z) : Prop :=
  x = Int z /\ (z <= 2 ^ 53)%Z.

Lemma exact_bytes_value (x : num) (z : Z) :
  exact_bytes x z -> (1024 <= z)%Z -> (1024 # 1) <= value x.
Proof.
  intros [-> _] H. cbn [value]. change (1024 # 1) with (inject_Z 1024).
  now rewrite <- Zle_Qle.
Qed.

(** C10.  Reading [formatted_size] of a [CleanResult] whose [total_size] is
    a byte count of at least 1024 (and at most 2**53, so that the float
    arithmetic is exact) leaves a different [total_size] behind: a float,
    strictly smaller, equal to the byte count divided by 1024 between one
    and five times, the other fields untouched.  A second read can then give
    another string: 1536 bytes read as "1.50 KB" first and as "1.50 B" next.
    [FileInfo.format_size] does the same to [size]. *)
Theorem formatted_size_mutates_field :
  (forall (r : Cleaner.CleanResult) (z : Z),
      exact_bytes (Cleaner.total_size r) z ->
      (1024 <= z)%Z ->
      let r' := snd (Cleaner.formatted_size r) in
      value (Cleaner.total_size r') < value (Cleaner.total_size r)
      /\ is_float (Cleaner.total_size r') = true
      /\ (exists k : nat, (1 <= k <= 5)%nat
            /\ value (Cleaner.total_size r')
               == Nat.iter k div1024 (value (Cleaner.total_size r)))
      /\ Cleaner.files_deleted r' = Cleaner.files_deleted r
      /\ Cleaner.errors r' = Cleaner.errors r)
  /\ (fst (Cleaner.formatted_size (freed 1536)) = "1.50 KB"
      /\ Cleaner.total_size (snd (Cleaner.formatted_size (freed 1536))) = Float (3 # 2)
      /\ fst (Cleaner.formatted_size (snd (Cleaner.formatted_size (freed 1536))))
         = "1.50 B")
  /\ (forall (f : FileInfo) (z : Z),
      exact_bytes (ScanModels.size f) z ->
      (1024 <= z)%Z ->
      let f' := snd (format_size f) in
      value (ScanModels.size f') < value (ScanModels.size f)
      /\ is_float (ScanModels.size f') = true
      /\ (exists k : nat, (1 <= k <= 5)%nat
            /\ value (ScanModels.size f')
               == Nat.iter k div1024 (value (ScanModels.size f)))
      /\ ScanModels.path f' = ScanModels.path f)
  /\ (fst (format_size (Examples.file "C:\Temp\a.tmp" 1536)) = "1.50 KB"
      /\ fst (format_size (snd (format_size (Examples.file "C:\Temp\a.tmp" 1536))))
         = "1.50 B").
Proof.
  split; [| split; [| split]].
  - intros r z Hz H. cbv zeta.
    destruct (format_loop_mutates (Cleaner.total_size r)
                (exact_bytes_value _ z Hz H)) as (Hlt & Hfl & Hk).
    unfold Cleaner.formatted_size.
    destruct (format_loop UNITS (Cleaner.total_size r)) as [s v]. simpl in *.
    repeat split; assumption.
  - repeat split; vm_compute; reflexivity.
  - intros f z Hz H. cbv zeta.
    destruct (format_loop_mutates (ScanModels.size f)
                (exact_bytes_value _ z Hz H)) as (Hlt & Hfl & Hk).
    unfold format_size.
    destruct (format_loop UNITS (ScanModels.size f)) as [s v]. simpl in *.
    repeat split; assumption.
  - repeat split; vm_compute; reflexivity.
Qed.

End FormatFacts.

(* ===================================================================== *)
(** * Properties of the security layer *)
(* ===================================================================== *)

Module SecurityFacts.
Import SecurityLayer.

Lemma startswith_app (p s : string) : PyStr.startswith p (p +:+ s) = true.
Proof.
  induction p as [| a p IH]; simpl; [reflexivity |].
  now rewrite Ascii.eqb_refl.
Qed.

Lemma contains_app (p s : string) : PyStr.contains p (p +:+ s) = true.
Proof.
  destruct p as [| a p]; [now destruct s |].
  change (PyStr.contains (String a p) (String a p +:+ s))
    with (PyStr.startswith (String a p) (String a p +:+ s)
          || PyStr.contains (String a p) (p +:+ s)).
  now rewrite startswith_app.
Qed.

Lemma find_exists {A} (f : A -> bool) (l : list A) (x : A) :
  In x l -> f x = true -> exists y, List.find f l = Some y /\ In y l /\ f y = true.
Proof.
  intros Hin Hf. destruct (List.find f l) as [y |] eqn:E.
  - exists y. apply find_some in E. tauto.
  - pose proof (find_none f l E x Hin). congruence.
Qed.

(** the spec's comparison: [root] is a prefix of [real], part by part, up to
    letter case *)
Definition ci_under (real root : Path) : Prop :=
  (length root <= length real)%nat
  /\ map PyStr.lower root = map PyStr.lower (take (length root) real).

Section CaseInsensitiveFileSystem.
Variable fs : FileSystem.

(** What holds of path resolution on a case-insensitive, case-preserving
    file system such as NTFS.  The nonempty prefixes of the resolved form of
    an existing path exist and are their own resolved form. *)
Hypothesis canonical_ancestors :
  forall (p r : Path) (n : nat),
    fs_exists fs p = true -> fs_realpath fs p = Ok r -> (1 <= n)%nat ->
    fs_exists fs (take n r) = true /\ fs_realpath fs (take n r) = Ok (take n r).

(** Any spelling that differs from an existing resolved path in letter case
    only resolves to that path. *)
Hypothesis case_insensitive :
  forall p q : Path,
    fs_exists fs p = true -> fs_realpath fs p = Ok p ->
    map PyStr.lower q = map PyStr.lower p ->
    fs_realpath fs q = Ok p.

(** Resolving a resolved path changes nothing. *)
Hypothesis resolved_is_fixed :
  forall p r : Path, fs_realpath fs p = Ok r -> fs_realpath fs r = Ok r.

(** [real] lies at or below the protected entry: below the entry as pathlib
    parses it, or below the directory the entry resolves to (the reading that
    fits an entry written relative to a drive), compared without regard to
    letter case either way. *)
Definition descends (real : Path) (entry : string) : Prop :=
  (Pathlib.of_string entry <> [] /\ ci_under real (Pathlib.of_string entry))
  \/ (exists root, fs_realpath fs (Pathlib.of_string entry) = Ok root
                   /\ root <> [] /\ ci_under real root).

(** a prefix of the resolved path is what any other spelling of it resolves to *)
Lemma resolves_to_prefix (path real root : Path) :
  fs_exists fs path = true ->
  fs_realpath fs path = Ok real ->
  root <> [] ->
  ci_under real root ->
  fs_realpath fs root = Ok (take (length root) real).
Proof.
  intros Hex Hreal Hne [Hlen Hci].
  assert (1 <= length root)%nat as H1 by (destruct root; simpl; [congruence | lia]).
  destruct (canonical_ancestors path real (length root) Hex Hreal H1) as [Hpex Hpre].
  exact (case_insensitive _ root Hpex Hpre Hci).
Qed.

Lemma is_path_under_prefix (real parent : Path) (n : nat) :
  (n <= length real)%nat ->
  fs_realpath fs real = Ok real ->
  fs_realpath fs parent = Ok (take n real) ->
  _is_path_under fs real parent = true.
Proof.
  intros Hn Hreal Hparent. unfold _is_path_under. rewrite Hreal, Hparent.
  rewrite length_take, Nat.min_l by lia.
  replace (length real <? n)%nat with false by (symmetry; apply Nat.ltb_ge; lia).
  now apply bool_decide_eq_true.
Qed.

Lemma is_path_under_descends (path real : Path) (entry : string) :
  fs_exists fs path = true ->
  fs_realpath fs path = Ok real ->
  descends real entry ->
  _is_path_under fs real (Pathlib.of_string entry) = true.
Proof.
  intros Hex Hreal Hd.
  pose proof (resolved_is_fixed path real Hreal) as Hself.
  destruct Hd as [[Hne Hci] | (root & Hroot & Hne & Hci)].
  - apply (is_path_under_prefix real _ (length (Pathlib.of_string entry)));
      [apply Hci | assumption |].
    now apply (resolves_to_prefix path).
  - pose proof (resolves_to_prefix path real root Hex Hreal Hne Hci) as Hpre.
    rewrite (resolved_is_fixed _ root Hroot) in Hpre.
    apply (is_path_under_prefix real _ (length root)); [apply Hci | assumption |].
    rewrite Hroot. exact Hpre.
Qed.

(** What the list does protect.  On a case-insensitive file system, let
    [path] exist and let its resolved form lie at or below a protected
    entry, compared part by part without regard to letter case, the entry
    being parsed the way pathlib parses it (so that a trailing separator or
    another letter case in the entry makes no difference).  Then
    [is_safe_to_delete] answers [False] with a reason "Protected path: ..."
    naming an entry of the list.  The letter case is settled by path
    resolution, not by the comparison, and an entry that pathlib parses as
    drive-relative stands for a directory below the working directory. *)
Theorem protected_descendant_rejected (cls : cls_t) (path real : Path)
    (entry : string) (whitelist_extensions : list string) :
  fs_exists fs path = true ->
  fs_realpath fs path = Ok real ->
  In entry (HARDCODED_PROTECTED cls) ->
  descends real entry ->
  exists protected,
    In protected (HARDCODED_PROTECTED cls)
    /\ is_safe_to_delete fs cls path whitelist_extensions
       = (false, "Protected path: " +:+ protected)
    /\ PyStr.contains "Protected path"
         (snd (is_safe_to_delete fs cls path whitelist_extensions)) = true.
Proof.
  intros Hex Hreal Hin Hd.
  pose proof (is_path_under_descends path real entry Hex Hreal Hd) as Hunder.
  destruct (find_exists
              (fun protected => _is_path_under fs real (Pathlib.of_string protected))
              (HARDCODED_PROTECTED cls) entry Hin Hunder)
    as (protected & Hfind & Hin' & _).
  assert (is_safe_to_delete fs cls path whitelist_extensions
          = (false, "Protected path: " +:+ protected)) as Hres.
  { unfold is_safe_to_delete, first_protected. now rewrite Hex, Hreal, Hfind. }
  exists protected. repeat split; [assumption | assumption |].
  rewrite Hres. apply (contains_app "Protected path" (": " +:+ protected)).
Qed.

End CaseInsensitiveFileSystem.

(** The example disk obeys both laws. *)
Section DiskLaws.
Import Examples.
Variable names : list string.

Lemma find_ext_eq {A} (f g : A -> bool) (l : list A) :
  (forall x, f x = g x) -> List.find f l = List.find g l.
Proof.
  intros H. induction l as [| a l IH]; simpl; [reflexivity |].
  now rewrite H, IH.
Qed.

Lemma same_name_lower (c d : string) :
  PyStr.lower c = PyStr.lower d -> forall x, same_name c x = same_name d x.
Proof. intros H x. unfold same_name. now rewrite H. Qed.

Lemma known_find (c : string) :
  known names c = true ->
  exists d, List.find (same_name c) names = Some d
            /\ In d names /\ PyStr.lower d = PyStr.lower c.
Proof.
  unfold known. intros H. apply existsb_exists in H as (x & Hin & Hx).
  destruct (find_exists (same_name c) names x Hin Hx) as (d & Hf & Hd & Hs).
  exists d. repeat split; [assumption | assumption |].
  unfold same_name in Hs. now apply String.eqb_eq in Hs.
Qed.

Lemma stored_same_case (c c' : string) :
  PyStr.lower c' = PyStr.lower c -> stored names c' = stored names c \/ stored names c = c.
Proof.
  intros H. unfold stored.
  rewrite (find_ext_eq _ _ names (same_name_lower c' c H)).
  destruct (List.find (same_name c) names); auto.
Qed.

Lemma stored_known (c : string) :
  known names c = true ->
  known names (stored names c) = true
  /\ stored names (stored names c) = stored names c
  /\ (forall c', PyStr.lower c' = PyStr.lower c -> stored names c' = stored names c).
Proof.
  intros Hk. destruct (known_find c Hk) as (d & Hf & Hd & Hl).
  assert (stored names c = d) as Hs by (unfold stored; now rewrite Hf).
  rewrite Hs. repeat split.
  - unfold known. apply existsb_exists. exists d. split; [assumption |].
    unfold same_name. apply String.eqb_refl.
  - unfold stored at 1.
    rewrite (find_ext_eq _ _ names (same_name_lower d c Hl)). now rewrite Hf.
  - intros c' Hc'. unfold stored.
    rewrite (find_ext_eq _ _ names (same_name_lower c' c Hc')). now rewrite Hf.
Qed.

Lemma stored_idem (c : string) : stored names (stored names c) = stored names c.
Proof.
  destruct (known names c) eqn:Hk.
  - now destruct (stored_known c Hk) as (_ & Hi & _).
  - assert (stored names c = c) as Hs.
    { unfold stored. destruct (List.find (same_name c) names) as [d |] eqn:E;
        [| reflexivity].
      apply find_some in E as [Hin Hd].
      assert (known names c = true) as Hk'
        by (unfold known; apply existsb_exists; eauto).
      congruence. }
    now rewrite Hs.
Qed.

Lemma disk_resolved_is_fixed (p r : Path) :
  fs_realpath (disk names) p = Ok r -> fs_realpath (disk names) r = Ok r.
Proof.
  simpl. intros H. inversion H as [Hr]. f_equal. rewrite map_map.
  apply map_ext. intros c. apply stored_idem.
Qed.

Lemma disk_canonical (p : Path) :
  forallb (known names) p = true ->
  forallb (known names) (map (stored names) p) = true
  /\ map (stored names) (map (stored names) p) = map (stored names) p.
Proof.
  induction p as [| c p IH]; simpl; [auto |].
  intros H. apply andb_prop in H as [Hc Hp].
  destruct (stored_known c Hc) as (Hk & Hi & _).
  destruct (IH Hp) as [IH1 IH2].
  rewrite Hk, IH1, Hi, IH2. auto.
Qed.

Lemma forallb_take {A} (f : A -> bool) (l : list A) (n : nat) :
  forallb f l = true -> forallb f (take n l) = true.
Proof.
  revert n. induction l as [| a l IH]; intros [| n]; simpl; auto.
  intros H. apply andb_prop in H as [Ha Hl]. now rewrite Ha, IH.
Qed.

Lemma disk_canonical_ancestors (p r : Path) (n : nat) :
  fs_exists (disk names) p = true -> fs_realpath (disk names) p = Ok r -> (1 <= n)%nat ->
  fs_exists (disk names) (take n r) = true
  /\ fs_realpath (disk names) (take n r) = Ok (take n r).
Proof.
  simpl. intros Hex Hr _. inversion Hr as [Hr']. clear Hr.
  rewrite !firstn_map.
  destruct (disk_canonical (take n p) (forallb_take _ _ n Hex)) as [H1 H2].
  split; [assumption | now rewrite H2].
Qed.

Lemma disk_case_insensitive (p q : Path) :
  fs_exists (disk names) p = true -> fs_realpath (disk names) p = Ok p ->
  map PyStr.lower q = map PyStr.lower p ->
  fs_realpath (disk names) q = Ok p.
Proof.
  simpl. intros Hex Hp Hq. inversion Hp as [Hp']. rewrite Hp'. f_equal.
  rewrite <- Hp'. clear Hp Hp'.
  revert q Hq. induction p as [| c p IH]; intros [| c' q] Hq; simpl in *;
    try discriminate; [reflexivity |].
  apply andb_prop in Hex as [Hc Hex]. inversion Hq as [[Hc' Hq']].
  destruct (stored_known c Hc) as (_ & _ & Hsame).
  now rewrite (Hsame c' Hc'), (IH Hex q Hq').
Qed.

End DiskLaws.

(** The test suite's path against the built-in list; and a list whose only
    entry is spelled with forward slashes, a trailing separator and unusual
    letter case. *)
Lemma protected_descendant_rejected_witness :
  (exists protected,
      In protected (HARDCODED_PROTECTED initial)
      /\ is_safe_to_delete Examples.windows_disk initial
           (Pathlib.of_string "c:/windows/SYSTEM32/kernel32.dll") []
         = (false, "Protected path: " +:+ protected)
      /\ PyStr.contains "Protected path"
           (snd (is_safe_to_delete Examples.windows_disk initial
                   (Pathlib.of_string "c:/windows/SYSTEM32/kernel32.dll") [])) = true)
  /\ (exists protected,
      In protected ["c:/WINDOWS/"]
      /\ is_safe_to_delete Examples.windows_disk {| HARDCODED_PROTECTED := ["c:/WINDOWS/"] |}
           (Pathlib.of_string "C:\Windows\System32\kernel32.dll") []
         = (false, "Protected path: " +:+ protected)
      /\ PyStr.contains "Protected path"
           (snd (is_safe_to_delete Examples.windows_disk
                   {| HARDCODED_PROTECTED := ["c:/WINDOWS/"] |}
                   (Pathlib.of_string "C:\Windows\System32\kernel32.dll") [])) = true).
Proof.
  split.
  - apply (protected_descendant_rejected Examples.windows_disk
             (disk_canonical_ancestors _) (disk_case_insensitive _)
             (disk_resolved_is_fixed _) initial
             (Pathlib.of_string "c:/windows/SYSTEM32/kernel32.dll")
             ["C:\"; "Windows"; "System32"; "kernel32.dll"] "C:\Windows" []).
    + reflexivity.
    + reflexivity.
    + simpl. tauto.
    + left. split; [discriminate | split; [simpl; lia | reflexivity]].
  - apply (protected_descendant_rejected Examples.windows_disk
             (disk_canonical_ancestors _) (disk_case_insensitive _)
             (disk_resolved_is_fixed _)
             {| HARDCODED_PROTECTED := ["c:/WINDOWS/"] |}
             (Pathlib.of_string "C:\Windows\System32\kernel32.dll")
             ["C:\"; "Windows"; "System32"; "kernel32.dll"] "c:/WINDOWS/" []).
    + reflexivity.
    + reflexivity.
    + simpl. tauto.
    + right. exists ["C:\"; "Windows"].
      split; [reflexivity | split; [discriminate | split; [simpl; lia | reflexivity]]].
Defined.

End SecurityFacts.

Module RecycleBinFacts.
Import SecurityLayer.

(** A file in the recycle-bin store of drive C. *)
Definition recycled : Path := Pathlib.of_string "C:\$Recycle.Bin\S-1-5-21\$RABC.tmp".
(** A system file below the Windows directory. *)
Definition system_dll : Path := Pathlib.of_string "C:\Windows\System32\kernel32.dll".

(** A disk on which the working directory of drive C is [C:\Users\me], so
    that the drive-relative ["C:$Recycle.Bin"] resolves to a directory below
    it; every other path resolves to itself. *)
Definition recycle_disk : FileSystem :=
  Examples.linked
    [(Pathlib.of_string "C:$Recycle.Bin",
      Pathlib.of_string "C:\Users\me\$Recycle.Bin")]
    [recycled; system_dll].

(** the list with its last entry written like the eight before it *)
Definition absolute_entries : cls_t :=
  {| HARDCODED_PROTECTED :=
       [ "C:\Windows"; "C:\Program Files"; "C:\Program Files (x86)";
         "C:\ProgramData"; "C:\System Volume Information"; "C:\Recovery";
         "C:\Boot"; "C:\EFI"; "C:\$Recycle.Bin" ] |}.

(** C1.  The recycle-bin store is not protected.  The last entry of the
    list, ["C:$Recycle.Bin"], lacks the separator its eight siblings have:
    pathlib parses it as a path relative to the working directory of drive
    C, not as the directory [C:\$Recycle.Bin].  An existing file in that
    directory therefore lies under no entry and [is_safe_to_delete] answers
    (True, "OK"), while the same file is refused with "Protected path" once
    the entry is written like its siblings, and a file below [C:\Windows] is
    refused on the same disk. *)
Theorem recycle_bin_store_is_not_protected :
  In "C:$Recycle.Bin" (HARDCODED_PROTECTED initial)
  /\ Pathlib.of_string "C:$Recycle.Bin" = ["C:"; "$Recycle.Bin"]
  /\ Pathlib.of_string "C:\Windows" = ["C:\"; "Windows"]
  /\ fs_exists recycle_disk recycled = true
  /\ fs_realpath recycle_disk recycled
     = Ok ["C:\"; "$Recycle.Bin"; "S-1-5-21"; "$RABC.tmp"]
  /\ is_safe_to_delete recycle_disk initial recycled [] = (true, "OK")
  /\ is_system_path recycle_disk initial recycled = false
  /\ is_safe_to_delete recycle_disk absolute_entries recycled []
     = (false, "Protected path: C:\$Recycle.Bin")
  /\ is_safe_to_delete recycle_disk initial system_dll []
     = (false, "Protected path: C:\Windows").
Proof. repeat split; try (vm_compute; reflexivity). cbn. tauto. Qed.

End RecycleBinFacts.

Module SymlinkFacts.
Import SecurityLayer.

(** Two links in a temp directory: one to a page file, one to a document. *)
Definition link_to_pagefile : Path := Pathlib.of_string "C:\Temp\link.tmp".
Definition pagefile : Path := Pathlib.of_string "D:\Data\pagefile.sys".
Definition link_to_document : Path := Pathlib.of_string "C:\Temp\report.tmp".
Definition document : Path := Pathlib.of_string "D:\Docs\report.docx".

Definition linked_disk : FileSystem :=
  Examples.linked
    [(link_to_pagefile, pagefile); (link_to_document, document)]
    [link_to_pagefile; pagefile; link_to_document; document].

(** C3.  The checks after path resolution do not all use the resolved path:
    the system-file check and the whitelist check read the name and the
    extension of the path as given.  A link named [link.tmp] that resolves to
    [pagefile.sys] is declared safe although the file it resolves to is
    refused as a system file, and a link named [report.tmp] that resolves to
    [report.docx] is declared safe under the whitelist [.docx] although the
    document itself is refused. *)
Theorem is_safe_to_delete_reads_unresolved_name :
  fs_realpath linked_disk link_to_pagefile = Ok pagefile
  /\ PyStr.mem (PyStr.lower (Pathlib.name pagefile)) SYSTEM_FILES = true
  /\ is_safe_to_delete linked_disk initial link_to_pagefile [] = (true, "OK")
  /\ is_safe_to_delete linked_disk initial pagefile [] = (false, "System file: pagefile.sys")
  /\ fs_realpath linked_disk link_to_document = Ok document
  /\ is_safe_to_delete linked_disk initial link_to_document [".docx"] = (true, "OK")
  /\ is_safe_to_delete linked_disk initial document [".docx"]
     = (false, "Whitelisted extension: .docx").
Proof. repeat split; vm_compute; reflexivity. Qed.

End SymlinkFacts.

(* ===================================================================== *)
(** * Properties of the cleaner *)
(* ===================================================================== *)

Module CleanerFacts.
Import ScanModels Cleaner.

(** [w'] answers every question about the files [fs] as [w] does *)
Definition agrees (w w' : World) (files : list FileInfo) : Prop :=
  fs_realpath (fs w') = fs_realpath (fs w)
  /\ send2trash_installed w' = send2trash_installed w
  /\ send2trash_fails w' = send2trash_fails w
  /\ Forall (fun f => fs_exists (fs w') (ScanModels.path f)
                      = fs_exists (fs w) (ScanModels.path f)) files.

Lemma is_safe_agrees (w w' : World) (cls : SecurityLayer.cls_t) (f : FileInfo)
    (wl : list string) :
  fs_realpath (fs w') = fs_realpath (fs w) ->
  fs_exists (fs w') (ScanModels.path f) = fs_exists (fs w) (ScanModels.path f) ->
  SecurityLayer.is_safe_to_delete (fs w') cls (ScanModels.path f) wl
  = SecurityLayer.is_safe_to_delete (fs w) cls (ScanModels.path f) wl.
Proof.
  intros Hr He.
  unfold SecurityLayer.is_safe_to_delete, SecurityLayer.first_protected,
    SecurityLayer._is_path_under.
  now rewrite Hr, He.
Qed.

Lemma agrees_publish (w : World) (e : Event) (files : list FileInfo) :
  agrees w (publish w e) files.
Proof. unfold agrees. simpl. repeat split. now apply Forall_forall. Qed.

(** removing [p] is invisible to files that do not lie at or below [p] *)
Lemma agrees_remove (w : World) (p : Path) (files : list FileInfo) :
  Forall (fun g => take (length p) (ScanModels.path g) <> p) files ->
  agrees w (remove w p) files.
Proof.
  intros H. unfold agrees. simpl. repeat split.
  eapply Forall_impl; [exact H |]. simpl. intros g Hg.
  now rewrite bool_decide_eq_false_2.
Qed.

Lemma agrees_trans (w1 w2 w3 : World) (files : list FileInfo) :
  agrees w1 w2 files -> agrees w2 w3 files -> agrees w1 w3 files.
Proof.
  intros (Hr & Hi & Hf & He) (Hr' & Hi' & Hf' & He'). unfold agrees.
  rewrite Hr', Hi', Hf'. repeat split; try assumption.
  rewrite Forall_forall in *. intros g Hg. now rewrite He', He.
Qed.

Lemma agrees_refl (w : World) (files : list FileInfo) : agrees w w files.
Proof. unfold agrees. repeat split. now apply Forall_forall. Qed.

Section Scenario.
Variable ex : Executor.
Variable state_manager : StateManager.t.
Hypothesis not_cancelled : _cancelled ex = false.
Hypothesis no_cancel_request : StateManager.is_cancel_requested state_manager = false.

(** a file the safety check passes and the recycle bin accepts *)
Definition deletable (w : World) (f : FileInfo) : Prop :=
  fst (SecurityLayer.is_safe_to_delete (fs w) (security ex) (ScanModels.path f) []) = true
  /\ send2trash_fails w (ScanModels.path f) = false.

(** [missing] says, file by file, whether the file is absent or deletable *)
Definition as_described (w : World) (f : FileInfo) (missing : bool) : Prop :=
  if missing then fs_exists (fs w) (ScanModels.path f) = false else deletable w f.

(** no file of the list lies at or below an earlier one *)
Fixpoint separate (files : list FileInfo) : Prop :=
  match files with
  | [] => True
  | f :: rest =>
      Forall (fun g => take (length (ScanModels.path f)) (ScanModels.path g)
                       <> ScanModels.path f) rest
      /\ separate rest
  end.

Definition count (b : bool) (flags : list bool) : nat :=
  length (List.filter (Bool.eqb b) flags).

Lemma as_described_agrees (w w' : World) (files : list FileInfo) (flags : list bool) :
  agrees w w' files ->
  Forall2 (as_described w) files flags -> Forall2 (as_described w') files flags.
Proof.
  intros (Hr & _ & Hf & He) H. induction H as [| f b files flags Hfb H IH].
  - constructor.
  - inversion He as [| ? ? Hef He']; subst. constructor; [| now apply IH].
    destruct b; simpl in *.
    + now rewrite Hef.
    + destruct Hfb as [Hs Ht]. unfold deletable.
      now rewrite (is_safe_agrees w w' _ f [] Hr Hef), Hf.
Qed.

(** The loop over files that are each absent or deletable: the absent ones
    are counted as skipped, the others as deleted, and no error is added. *)
Lemma clean_loop_counts (files : list FileInfo) :
  forall (flags : list bool) (total_files index : nat) (w : World) (r : CleanResult),
    Forall2 (as_described w) files flags ->
    separate files ->
    let r' := snd (clean_loop ex state_manager total_files index files w r) in
    files_deleted r' = (files_deleted r + count false flags)%nat
    /\ skipped r' = (skipped r + count true flags)%nat
    /\ errors r' = errors r
    /\ success r' = success r.
Proof.
  induction files as [| f files IH]; intros flags total_files index w r Hd Hs.
  - inversion Hd; subst. simpl. unfold count. simpl. repeat split; lia.
  - inversion Hd as [| ? b ? flags' Hfb Hrest]; subst.
    destruct Hs as [Hsep Hs].
    cbn [clean_loop]. rewrite not_cancelled, no_cancel_request. cbn [orb].
    destruct (SecurityLayer.is_safe_to_delete (fs w) (security ex)
                (ScanModels.path f) []) as [is_safe reason] eqn:Esafe.
    destruct b; simpl in Hfb.
    + (* absent: the safety check fails closed and the file is skipped *)
      unfold SecurityLayer.is_safe_to_delete in Esafe. rewrite Hfb in Esafe.
      simpl in Esafe. inversion Esafe; subst is_safe. cbv beta iota zeta.
      cbn [negb].
      specialize (IH flags' total_files (S index) w (skip r) Hrest Hs).
      cbv zeta in IH. destruct IH as (IHd & IHs & IHe & IHok).
      rewrite IHd, IHs, IHe, IHok. unfold count. simpl. repeat split; lia.
    + (* deletable *)
      destruct Hfb as [Hsafe Htrash]. rewrite Esafe in Hsafe.
      simpl in Hsafe. subst is_safe. cbv beta iota zeta. cbn [negb].
      assert (exists w1, _delete_file w (ScanModels.path f) = (true, w1)
                         /\ agrees w w1 files) as (w1 & Hdel & Hag).
      { unfold _delete_file. destruct (send2trash_installed w); simpl.
        - rewrite Htrash. eexists. split; [reflexivity |]. now apply agrees_remove.
        - eexists. split; [reflexivity |]. apply agrees_refl. }
      rewrite Hdel. cbv beta iota zeta.
      match goal with
      | |- context [clean_loop _ _ _ _ _ ?w2 _] =>
          assert (agrees w w2 files) as Hag2
      end.
      { destruct (_ || _); [| assumption].
        eapply agrees_trans; [exact Hag | apply agrees_publish]. }
      match goal with
      | |- context [clean_loop _ _ _ _ _ ?w2 ?r1] =>
          specialize (IH flags' total_files (S index) w2 r1
                        (as_described_agrees w w2 files flags' Hag2 Hrest) Hs)
      end.
      cbv zeta in IH. destruct IH as (IHd & IHs & IHe & IHok).
      rewrite IHd, IHs, IHe, IHok. unfold count. simpl. repeat split; lia.
Qed.

(** Five files none of which lies below an earlier one, the third absent
    and the others passing the safety check and accepted by the recycle bin:
    four deleted, one skipped, no error. *)
Lemma clean_five_counts (w : World) (f1 f2 f3 f4 f5 : FileInfo) :
  separate [f1; f2; f3; f4; f5] ->
  fs_exists (fs w) (ScanModels.path f3) = false ->
  deletable w f1 -> deletable w f2 -> deletable w f4 -> deletable w f5 ->
  let r := snd (clean ex state_manager [f1; f2; f3; f4; f5] w) in
  files_deleted r = 4%nat /\ skipped r = 1%nat /\ errors r = [] /\ success r = true.
Proof.
  intros Hsep H3 H1 H2 H4 H5. cbv zeta. unfold clean.
  pose proof (agrees_publish w (CLEAN_STARTED (length [f1; f2; f3; f4; f5]))
                [f1; f2; f3; f4; f5]) as Hag.
  assert (Forall2 (as_described w) [f1; f2; f3; f4; f5]
                  [false; false; true; false; false]) as Hd
    by (repeat (apply List.Forall2_cons; [simpl; assumption |]); apply List.Forall2_nil).
  pose proof (clean_loop_counts [f1; f2; f3; f4; f5] [false; false; true; false; false]
                (length [f1; f2; f3; f4; f5]) 0 _ CleanResult_init
                (as_described_agrees _ _ _ _ Hag Hd) Hsep) as Hc.
  cbv zeta in Hc.
  destruct (clean_loop ex state_manager (length [f1; f2; f3; f4; f5]) 0
              [f1; f2; f3; f4; f5] _ CleanResult_init) as [w1 r].
  simpl in Hc. destruct Hc as (Hdel & Hsk & Herr & Hsu).
  rewrite Herr, Hsu. simpl. auto.
Qed.

End Scenario.

End CleanerFacts.


(* ===================================================================== *)
(** * A confirmed clean over a list with a missing file *)
(* ===================================================================== *)

Module CleanScenario.
Import ScanModels StateManager CleanController.

(** a controller that is confirmed, idle and whose executor was not cancelled *)
Definition ready (c : t) : Prop :=
  _confirmed c = true
  /\ _state (state_manager c) = IDLE
  /\ Cleaner._cancelled (cleaner c) = false.

(** C7, as the code has it.  A confirmed clean started through the
    controller over five files none of which lies below an earlier one, the
    third absent and the other four passing the safety check and accepted by
    the recycle bin, starts, runs its worker and leaves a [CleanResult] with
    four files deleted, one skipped, an empty error list and [success] true;
    the state manager is back in Idle. *)
Theorem confirmed_clean_skips_missing_file (c : t) (w : Cleaner.World)
    (f1 f2 f3 f4 f5 : FileInfo) :
  ready c ->
  CleanerFacts.separate [f1; f2; f3; f4; f5] ->
  fs_exists (Cleaner.fs w) (ScanModels.path f3) = false ->
  CleanerFacts.deletable (cleaner c) w f1 ->
  CleanerFacts.deletable (cleaner c) w f2 ->
  CleanerFacts.deletable (cleaner c) w f4 ->
  CleanerFacts.deletable (cleaner c) w f5 ->
  exists w' c' r,
    start_clean_then_worker c [f1; f2; f3; f4; f5] true w = (w', Returns true c')
    /\ _result c' = Some r
    /\ Cleaner.files_deleted r = 4%nat
    /\ Cleaner.skipped r = 1%nat
    /\ Cleaner.errors r = []
    /\ Cleaner.success r = true
    /\ _state (state_manager c') = IDLE.
Proof.
  intros (Hconf & Hidle & Hnc) Hsep H3 H1 H2 H4 H5.
  unfold start_clean_then_worker, start_clean.
  rewrite (proj2 (CleanControllerFacts.is_idle_spec _) Hidle), Hconf.
  cbn [negb andb]. cbv zeta. cbn [state_manager].
  unfold transition_to at 1. rewrite Hidle. cbn.
  unfold _clean_worker. cbn [cleaner state_manager].
  pose proof (CleanerFacts.clean_five_counts (cleaner c)
                {| _state := CLEANING; _cancel_flag := false |}
                Hnc eq_refl w f1 f2 f3 f4 f5 Hsep H3 H1 H2 H4 H5) as Hr.
  cbv zeta in Hr.
  destruct (Cleaner.clean (cleaner c) {| _state := CLEANING; _cancel_flag := false |}
              [f1; f2; f3; f4; f5] w) as [w' r].
  simpl in Hr. destruct Hr as (Hd & Hs & He & Hok).
  exists w'. eexists. exists r.
  split; [cbn; reflexivity |]. simpl. repeat split; assumption.
Qed.

Definition confirmed_controller : t := snd (confirm_clean (init StateManager.new)).

Lemma confirmed_clean_skips_missing_file_witness :
  exists w' c' r,
    start_clean_then_worker confirmed_controller Examples.five_files true Examples.world
    = (w', Returns true c')
    /\ _result c' = Some r
    /\ Cleaner.files_deleted r = 4%nat
    /\ Cleaner.skipped r = 1%nat
    /\ Cleaner.errors r = []
    /\ Cleaner.success r = true
    /\ _state (state_manager c') = IDLE.
Proof.
  apply (confirmed_clean_skips_missing_file confirmed_controller Examples.world).
  - repeat split.
  - simpl. repeat split; repeat constructor; discriminate.
  - reflexivity.
  - split; reflexivity.
  - split; reflexivity.
  - split; reflexivity.
  - split; reflexivity.
Defined.

(** the report of the clean the example controller runs over the five files *)
Definition example_result : option Cleaner.CleanResult :=
  match start_clean_then_worker confirmed_controller Examples.five_files true
          Examples.world with
  | (_, Returns _ c') => _result c'
  | (_, Raises _ c') => _result c'
  end.

(** C7, as the spec has it, fails.  In the example the third file is not on
    the disk, each of the other four passes the safety check, and four files
    are deleted; but the absent file is skipped by the safety check and
    [errors] stays empty, so it does not hold exactly one entry naming the
    third file. *)
Lemma clean_missing_file_is_not_an_error :
  fs_exists Examples.windows_disk (Pathlib.of_string "C:\Temp\c.tmp") = false
  /\ map (fun f => SecurityLayer.is_safe_to_delete Examples.windows_disk
                     SecurityLayer.initial (ScanModels.path f) [])
         Examples.five_files
     = [(true, "OK"); (true, "OK"); (false, "File does not exist: C:\Temp\c.tmp");
        (true, "OK"); (true, "OK")]
  /\ example_result
     = Some {| Cleaner.success := true; Cleaner.files_deleted := 4;
               Cleaner.total_size := PyNum.Int 120; Cleaner.errors := [];
               Cleaner.skipped := 1 |}
  /\ ~ (exists r e,
          example_result = Some r
          /\ Cleaner.files_deleted r = 4%nat
          /\ Cleaner.errors r = [e]
          /\ PyStr.contains "c.tmp" e = true).
Proof.
  assert (example_result
          = Some {| Cleaner.success := true; Cleaner.files_deleted := 4;
                    Cleaner.total_size := PyNum.Int 120; Cleaner.errors := [];
                    Cleaner.skipped := 1 |}) as Hres by (vm_compute; reflexivity).
  repeat split; try (vm_compute; reflexivity); try exact Hres.
  intros (r & e & Hr & _ & He & _).
  rewrite Hres in Hr. inversion Hr; subst r. discriminate He.
Qed.

End CleanScenario.

(* ===================================================================== *)
(** * More of core/security.py *)
(* ===================================================================== *)

Module SecurityMore.
Import SecurityLayer.

(** [get_real_extension]: the text after the last dot of the name, with the
    dot; empty when the name has no dot at all. *)
Definition get_real_extension (path : Path) : string :=
  let filename := Pathlib.name path in
  let parts := PyStr.split Pathlib.dot filename in
  if (length parts <=? 1)%nat then "" else "." +:+ List.last parts "".

Lemma mem_In (x : string) (xs : list string) : PyStr.mem x xs = true <-> In x xs.
Proof.
  unfold PyStr.mem. rewrite existsb_exists. split.
  - intros (y & Hin & Heq). apply String.eqb_eq in Heq. now subst.
  - intros Hin. exists x. split; [assumption | apply String.eqb_refl].
Qed.

Lemma first_protected_none (fs : FileSystem) (cls : cls_t) (real : Path) :
  first_protected fs cls real = None <->
  (forall entry, In entry (HARDCODED_PROTECTED cls) ->
                 _is_path_under fs real (Pathlib.of_string entry) = false).
Proof.
  unfold first_protected. split.
  - intros H entry Hin. exact (find_none _ _ H entry Hin).
  - intros H. destruct (List.find _ _) as [e |] eqn:E; [| reflexivity].
    apply find_some in E as [Hin He]. rewrite (H e Hin) in He. discriminate.
Qed.

(** X2.  For a path that exists, the quick test [is_system_path] says [True]
    exactly when [is_safe_to_delete] rejects the path with a
    "Protected path: ..." reason naming an entry of the list. *)
Theorem is_system_path_iff_protected_rejection (fs : FileSystem) (cls : cls_t)
    (path : Path) (whitelist_extensions : list string) :
  fs_exists fs path = true ->
  (is_system_path fs cls path = true <->
   exists entry,
     In entry (HARDCODED_PROTECTED cls)
     /\ is_safe_to_delete fs cls path whitelist_extensions
        = (false, "Protected path: " +:+ entry)).
Proof.
  intros Hex. unfold is_system_path, is_safe_to_delete. rewrite Hex. cbn [negb].
  destruct (fs_realpath fs path) as [real |].
  2: { split; [discriminate | intros (e & _ & H); inversion H]. }
  destruct (first_protected fs cls real) as [e |] eqn:Ep.
  - split; [| reflexivity]. intros _. exists e. split; [| reflexivity].
    unfold first_protected in Ep. now apply find_some in Ep as [Hin _].
  - split; [discriminate |]. intros (e & _ & H).
    destruct (PyStr.mem _ SYSTEM_FILES); [inversion H |].
    destruct (PyStr.mem _ _); inversion H.
Qed.

Lemma is_system_path_iff_protected_rejection_witness :
  is_system_path Examples.windows_disk initial
    (Pathlib.of_string "c:/windows/SYSTEM32/kernel32.dll") = true <->
  exists entry,
    In entry (HARDCODED_PROTECTED initial)
    /\ is_safe_to_delete Examples.windows_disk initial
         (Pathlib.of_string "c:/windows/SYSTEM32/kernel32.dll") [".docx"]
       = (false, "Protected path: " +:+ entry).
Proof.
  apply (is_system_path_iff_protected_rejection Examples.windows_disk initial
           (Pathlib.of_string "c:/windows/SYSTEM32/kernel32.dll") [".docx"]).
  reflexivity.
Defined.

Lemma find_app_some {A} (f : A -> bool) (l l' : list A) (x : A) :
  List.find f l = Some x -> List.find f (l ++ l') = Some x.
Proof.
  induction l as [| a l IH]; simpl; [discriminate |].
  destruct (f a); [auto | exact IH].
Qed.

Lemma first_protected_add (fs : FileSystem) (cls : cls_t) (p : string) (real : Path)
    (e : string) :
  first_protected fs cls real = Some e ->
  first_protected fs (add_protected_path cls p) real = Some e.
Proof.
  unfold add_protected_path, first_protected.
  destruct (PyStr.mem p (HARDCODED_PROTECTED cls)); [auto |].
  simpl. apply find_app_some.
Qed.

(** X3.  [add_protected_path] appends the path unless the list already has
    it: afterwards the path is in the list, the old entries keep their
    places, a second call changes nothing, and protection only grows: a path
    [is_system_path] flagged stays flagged, a path [is_safe_to_delete]
    refused stays refused, with the same reason if an entry had matched. *)
Theorem add_protected_path_grows (cls : cls_t) (p : string) :
  In p (HARDCODED_PROTECTED (add_protected_path cls p))
  /\ (exists added, HARDCODED_PROTECTED (add_protected_path cls p)
                    = HARDCODED_PROTECTED cls ++ added)
  /\ add_protected_path (add_protected_path cls p) p = add_protected_path cls p
  /\ (forall fs q, is_system_path fs cls q = true ->
                   is_system_path fs (add_protected_path cls p) q = true)
  /\ (forall fs q wl, fst (is_safe_to_delete fs cls q wl) = false ->
                      fst (is_safe_to_delete fs (add_protected_path cls p) q wl) = false)
  /\ (forall fs q wl e,
        is_safe_to_delete fs cls q wl = (false, "Protected path: " +:+ e) ->
        fs_exists fs q = true ->
        is_safe_to_delete fs (add_protected_path cls p) q wl
        = (false, "Protected path: " +:+ e)).
Proof.
  assert (In p (HARDCODED_PROTECTED (add_protected_path cls p))) as Hin.
  { unfold add_protected_path.
    destruct (PyStr.mem p (HARDCODED_PROTECTED cls)) eqn:E.
    - now apply mem_In.
    - simpl. apply in_or_app. right. now left. }
  split; [exact Hin |]. split; [| split; [| split; [| split]]].
  - unfold add_protected_path.
    destruct (PyStr.mem p (HARDCODED_PROTECTED cls)).
    + exists []. now rewrite app_nil_r.
    + exists [p]. reflexivity.
  - unfold add_protected_path at 1.
    now rewrite (proj2 (mem_In _ _) Hin).
  - intros fs q. unfold is_system_path.
    destruct (fs_realpath fs q) as [real |]; [| discriminate].
    destruct (first_protected fs cls real) as [e |] eqn:E; [| discriminate].
    now rewrite (first_protected_add fs cls p real e E).
  - intros fs q wl. unfold is_safe_to_delete.
    destruct (fs_exists fs q); cbn [negb fst]; [| reflexivity].
    destruct (fs_realpath fs q) as [real |]; [| reflexivity].
    destruct (first_protected fs cls real) as [e |] eqn:E.
    + now rewrite (first_protected_add fs cls p real e E).
    + destruct (first_protected fs (add_protected_path cls p) real); [reflexivity |].
      auto.
  - intros fs q wl e H Hex. unfold is_safe_to_delete in *. rewrite Hex in *.
    cbn [negb] in *. destruct (fs_realpath fs q) as [real |]; [| inversion H].
    destruct (first_protected fs cls real) as [e' |] eqn:E.
    + now rewrite (first_protected_add fs cls p real e' E).
    + destruct (PyStr.mem _ SYSTEM_FILES); [inversion H |].
      destruct (PyStr.mem _ _); inversion H.
Qed.

Lemma split_rfind (c : ascii) (s : string) :
  match PyStr.rfind c s with
  | None => PyStr.split c s = [s]
  | Some i =>
      (2 <= length (PyStr.split c s))%nat
      /\ PyStr.drop i s = String c (List.last (PyStr.split c s) "")
  end.
Proof.
  induction s as [| a s IH]; simpl; [reflexivity |].
  destruct (PyStr.rfind c s) as [i |].
  - destruct IH as [Hlen Hdrop]. cbn [PyStr.drop]. rewrite Hdrop.
    destruct (Ascii.eqb a c).
    + split; [simpl; lia |].
      destruct (PyStr.split c s) as [| x rest]; [simpl in Hlen; lia | reflexivity].
    + destruct (PyStr.split c s) as [| x [| y rest]]; simpl in Hlen; try lia.
      split; [simpl; lia | reflexivity].
  - rewrite IH. destruct (Ascii.eqb a c) eqn:E.
    + apply Ascii.eqb_eq in E. subst a. split; [simpl; lia | reflexivity].
    + reflexivity.
Qed.

Lemma rfind_bound (c : ascii) (s : string) (i : nat) :
  PyStr.rfind c s = Some i -> (i < String.length s)%nat.
Proof.
  revert i. induction s as [| a s IH]; simpl; [discriminate |].
  intros i. destruct (PyStr.rfind c s) as [j |].
  - intros H. inversion H. specialize (IH j eq_refl). lia.
  - destruct (Ascii.eqb a c); intros H; inversion H. lia.
Qed.

(** X4.  [get_real_extension] is empty exactly for names without a dot, and
    agrees with pathlib's [suffix] whenever that is not empty.  The two part
    on names that only begin with a dot: for ".hidden" pathlib gives no
    suffix and [get_real_extension] gives the whole name. *)
Theorem get_real_extension_vs_suffix (path : Path) :
  (get_real_extension path = "" <-> PyStr.rfind Pathlib.dot (Pathlib.name path) = None)
  /\ (Pathlib.suffix path <> "" -> get_real_extension path = Pathlib.suffix path)
  /\ (forall rest, Pathlib.name path = String Pathlib.dot rest ->
                   PyStr.rfind Pathlib.dot rest = None ->
                   Pathlib.suffix path = ""
                   /\ get_real_extension path = Pathlib.name path).
Proof.
  unfold get_real_extension, Pathlib.suffix.
  pose proof (split_rfind Pathlib.dot (Pathlib.name path)) as Hs.
  split; [| split].
  - destruct (PyStr.rfind Pathlib.dot (Pathlib.name path)) as [i |].
    + destruct Hs as [Hlen _].
      replace (length _ <=? 1)%nat with false by (symmetry; apply Nat.leb_gt; lia).
      split; discriminate.
    + rewrite Hs. simpl. split; reflexivity.
  - destruct (PyStr.rfind Pathlib.dot (Pathlib.name path)) as [i |];
      [| intros H; now contradiction H].
    destruct Hs as [Hlen Hdrop].
    replace (length _ <=? 1)%nat with false by (symmetry; apply Nat.leb_gt; lia).
    destruct (_ && _); [| intros H; now contradiction H].
    intros _. now rewrite Hdrop.
  - intros rest Hname Hnone. rewrite Hname in *. simpl in *.
    rewrite Hnone in *. destruct Hs as [Hlen Hdrop].
    split; [reflexivity |].
    replace (length _ <=? 0)%nat with false by (symmetry; apply Nat.leb_gt; lia).
    cbn [PyStr.drop] in Hdrop. injection Hdrop as Hl.
    simpl. f_equal. symmetry. exact Hl.
Qed.

End SecurityMore.

(* ===================================================================== *)
(** * More of core/cleaner.py: what a clean does to the world *)
(* ===================================================================== *)

Module CleanerMore.
Import ScanModels Cleaner.

Section Loop.
Variable ex : Executor.
Variable state_manager : StateManager.t.

(** the test at the head of each round of the loop *)
Definition cancel_seen : bool :=
  _cancelled ex || StateManager.is_cancel_requested state_manager.

(** the verdict of the safety check on a listed file, in a given world *)
Definition accepted (w : World) (f : FileInfo) : bool :=
  fst (SecurityLayer.is_safe_to_delete (fs w) (security ex) (ScanModels.path f) []).

(** the result and the world after the delete attempt on an accepted file *)
Definition result_after (w : World) (r : CleanResult) (f : FileInfo) : CleanResult :=
  if fst (_delete_file w (ScanModels.path f)) then deleted r f
  else add_error r ("Failed to delete: " +:+ Pathlib.to_string (ScanModels.path f)).

Definition world_after (total_files index : nat) (w : World) (r : CleanResult)
    (f : FileInfo) : World :=
  let w1 := snd (_delete_file w (ScanModels.path f)) in
  let r1 := result_after w r f in
  if ((S index) mod 10 =? 0)%nat || (S index =? total_files)%nat
  then publish w1 (CLEAN_PROGRESS (S index) total_files (files_deleted r1) (total_size r1))
  else w1.

Lemma clean_loop_cons (total_files index : nat) (f : FileInfo) (rest : list FileInfo)
    (w : World) (r : CleanResult) :
  clean_loop ex state_manager total_files index (f :: rest) w r =
  if cancel_seen then (w, cancelled_result r)
  else if accepted w f
       then clean_loop ex state_manager total_files (S index) rest
              (world_after total_files index w r f) (result_after w r f)
       else clean_loop ex state_manager total_files (S index) rest w (skip r).
Proof.
  cbn [clean_loop]. unfold cancel_seen, accepted, world_after, result_after.
  destruct (_ || _); [reflexivity |].
  destruct (SecurityLayer.is_safe_to_delete _ _ _ _) as [is_safe reason].
  cbn [fst]. destruct is_safe; cbn [negb]; [| reflexivity].
  destruct (_delete_file w (ScanModels.path f)) as [ok w1]. reflexivity.
Qed.

Lemma clean_nonempty (files : list FileInfo) (w : World) :
  files <> [] ->
  clean ex state_manager files w =
  let w0 := publish w (CLEAN_STARTED (length files)) in
  let w1 := fst (clean_loop ex state_manager (length files) 0 files w0 CleanResult_init) in
  let r := snd (clean_loop ex state_manager (length files) 0 files w0 CleanResult_init) in
  (publish w1 (if success r && (length (errors r) =? 0)%nat
               then CLEAN_COMPLETED (files_deleted r) (total_size r)
               else CLEAN_FAILED (files_deleted r) (length (errors r))
                      (take 5 (errors r))), r).
Proof.
  intros Hne. unfold clean. destruct files as [| f rest]; [congruence |].
  cbv zeta. destruct (clean_loop _ _ _ _ _ _ _) as [w1 r]. cbn [fst snd].
  destruct (_ && _); reflexivity.
Qed.


(* --------------------------------------------------------------------- *)
(** ** Every file is accounted for *)

Lemma startswith_refl (p : string) : PyStr.startswith p p = true.
Proof.
  induction p as [| a p IH]; cbn; [reflexivity |]. now rewrite Ascii.eqb_refl.
Qed.

Lemma contains_suffix (pre p : string) : PyStr.contains p (pre +:+ p) = true.
Proof.
  induction pre as [| a pre IH].
  - change ("" +:+ p) with p. destruct p as [| b p]; [reflexivity |].
    cbn [PyStr.contains]. now rewrite startswith_refl.
  - change (String a pre +:+ p) with (String a (pre +:+ p)).
    cbn [PyStr.contains]. rewrite IH. apply orb_true_r.
Qed.

(** an error line that carries the path of one of the files *)
Definition names_file (files : list FileInfo) (e : string) : Prop :=
  exists f, In f files
    /\ PyStr.contains (Pathlib.to_string (ScanModels.path f)) e = true.

Lemma names_file_cons (f : FileInfo) (files : list FileInfo) (e : string) :
  names_file files e -> names_file (f :: files) e.
Proof. intros (g & Hg & He). exists g. split; [now right | exact He]. Qed.

Lemma clean_loop_accounts (files : list FileInfo) :
  forall (total_files index : nat) (w : World) (r : CleanResult),
    cancel_seen = false ->
    let r' := snd (clean_loop ex state_manager total_files index files w r) in
    (files_deleted r' + skipped r' + length (errors r')
     = files_deleted r + skipped r + length (errors r) + length files)%nat
    /\ success r' = success r
    /\ exists added,
         errors r' = errors r ++ added /\ Forall (names_file files) added.
Proof.
  induction files as [| f files IH]; intros total_files index w r Hc; cbv zeta.
  - cbn [clean_loop snd length]. repeat split; [lia |].
    exists []. split; [now rewrite app_nil_r | constructor].
  - rewrite clean_loop_cons, Hc.
    destruct (accepted w f).
    + specialize (IH total_files (S index) (world_after total_files index w r f)
                    (result_after w r f) Hc).
      cbv zeta in IH. destruct IH as (Hsum & Hok & added & Herr & Hall).
      rewrite Hsum, Hok, Herr. unfold result_after.
      destruct (fst (_delete_file w (ScanModels.path f))).
      * cbn. repeat split; [lia |]. exists added. split; [reflexivity |].
        eapply Forall_impl; [exact Hall |]. apply names_file_cons.
      * cbn. rewrite length_app. cbn. repeat split; [lia |].
        exists (("Failed to delete: " +:+ Pathlib.to_string (ScanModels.path f))
                  :: added).
        split; [now rewrite <- app_assoc |].
        constructor.
        -- exists f. split; [now left | apply contains_suffix].
        -- eapply Forall_impl; [exact Hall |]. apply names_file_cons.
    + specialize (IH total_files (S index) w (skip r) Hc).
      cbv zeta in IH. destruct IH as (Hsum & Hok & added & Herr & Hall).
      rewrite Hsum, Hok, Herr. cbn. repeat split; [lia |].
      exists added. split; [reflexivity |].
      eapply Forall_impl; [exact Hall |]. apply names_file_cons.
Qed.

Lemma clean_sums (files : list FileInfo) (w : World) :
  cancel_seen = false ->
  let r := snd (clean ex state_manager files w) in
  (files_deleted r + skipped r + length (errors r) = length files)%nat
  /\ success r = true.
Proof.
  intros Hc. cbv zeta. destruct files as [| f rest].
  - cbn. repeat split.
  - rewrite clean_nonempty by discriminate. cbv zeta. cbn [snd].
    pose proof (clean_loop_accounts (f :: rest) (length (f :: rest)) 0
                  (publish w (CLEAN_STARTED (length (f :: rest)))) CleanResult_init Hc)
      as H.
    cbv zeta in H. destruct H as (Hsum & Hok & _).
    cbn [CleanResult_init files_deleted skipped errors success] in Hsum, Hok.
    rewrite Hok. split; [cbn [length] in *; lia | reflexivity].
Qed.

(** X5.  A clean that sees no cancel request accounts for every listed file
    exactly once: the files counted as deleted, those counted as skipped and
    the lines of [errors] add up to the length of the list; [success] stays
    true even when deletions failed; and every line of [errors] carries the
    path of a listed file. *)
Theorem clean_accounts_for_every_file (files : list FileInfo) (w : World) :
  cancel_seen = false ->
  let r := snd (clean ex state_manager files w) in
  (files_deleted r + skipped r + length (errors r) = length files)%nat
  /\ success r = true
  /\ Forall (fun e => exists f, In f files
               /\ PyStr.contains (Pathlib.to_string (ScanModels.path f)) e = true)
       (errors r).
Proof.
  intros Hc. cbv zeta. destruct files as [| f rest].
  - cbn. repeat split. constructor.
  - rewrite clean_nonempty by discriminate. cbv zeta. cbn [snd].
    pose proof (clean_loop_accounts (f :: rest) (length (f :: rest)) 0
                  (publish w (CLEAN_STARTED (length (f :: rest)))) CleanResult_init Hc)
      as H.
    cbv zeta in H. destruct H as (Hsum & Hok & added & Herr & Hall).
    cbn [CleanResult_init files_deleted skipped errors success] in Hsum, Hok, Herr.
    rewrite Hok, Herr. cbn [app].
    split; [rewrite Herr in Hsum; cbn [length app] in *; lia |].
    split; [reflexivity | exact Hall].
Qed.

(* --------------------------------------------------------------------- *)
(** ** The disk changes only through the recycle bin *)







(* --------------------------------------------------------------------- *)
(** ** Without [send2trash] *)



(* --------------------------------------------------------------------- *)
(** ** The events of a clean *)

Definition current_of (e : Event) : nat :=
  match e with
  | CLEAN_PROGRESS current _ _ _ => current
  | _ => 0%nat
  end.

(** a progress event of a clean over [n] files *)
Definition is_progress (n : nat) (e : Event) : Prop :=
  match e with
  | CLEAN_PROGRESS current total deleted _ =>
      total = n /\ (current mod 10 = 0 \/ current = n)%nat /\ (deleted <= current)%nat
  | _ => False
  end.

(** the event that ends a clean with result [r] *)
Definition closing_event (r : CleanResult) : Event :=
  match errors r with
  | [] => CLEAN_COMPLETED (files_deleted r) (total_size r)
  | _ => CLEAN_FAILED (files_deleted r) (length (errors r)) (take 5 (errors r))
  end.

Lemma clean_loop_events (files : list FileInfo) :
  forall (total_files index : nat) (w : World) (r : CleanResult),
    (files_deleted r <= index)%nat ->
    (success r = false -> errors r <> []) ->
    let out := clean_loop ex state_manager total_files index files w r in
    (success (snd out) = false -> errors (snd out) <> [])
    /\ exists progress,
         published (fst out) = published w ++ progress
         /\ Forall (is_progress total_files) progress
         /\ Forall (fun e => index < current_of e <= index + length files)%nat progress
         /\ StronglySorted lt (map current_of progress).
Proof.
  induction files as [| f files IH]; intros total_files index w r Hd Hok; cbv zeta.
  - cbn. split; [assumption |]. exists []. rewrite app_nil_r.
    repeat split; constructor.
  - rewrite clean_loop_cons. destruct cancel_seen.
    { cbn. split; [intros _; now destruct (errors r) |].
      exists []. rewrite app_nil_r. repeat split; constructor. }
    destruct (accepted w f).
    + assert (files_deleted (result_after w r f) <= S index)%nat as Hd'.
      { unfold result_after. destruct (fst _); cbn; lia. }
      assert (success (result_after w r f) = false -> errors (result_after w r f) <> [])
        as Hok'.
      { unfold result_after. destruct (fst _); cbn; [assumption |].
        intros _. now destruct (errors r). }
      assert (published (snd (_delete_file w (ScanModels.path f))) = published w)
        as Hpub.
      { unfold _delete_file. destruct (send2trash_installed w); cbn; [| reflexivity].
        now destruct (send2trash_fails w _). }
      unfold world_after. cbv zeta.
      destruct (_ || _) eqn:Etick;
        match goal with
        | |- context [clean_loop _ _ _ _ _ ?w2 ?r1] =>
            specialize (IH total_files (S index) w2 r1 Hd' Hok')
        end;
        cbv zeta in IH;
        destruct IH as (IHok & progress & Hp & Hall & Hrange & Hsorted);
        (split; [assumption |]).
      * exists (CLEAN_PROGRESS (S index) total_files
                  (files_deleted (result_after w r f)) (total_size (result_after w r f))
                :: progress).
        split; [| split; [| split]].
        -- rewrite Hp. cbn [publish published]. rewrite Hpub.
           now rewrite <- app_assoc.
        -- constructor; [| assumption]. cbn. split; [reflexivity |]. split; [| lia].
           apply orb_true_iff in Etick as [E | E].
           ++ left. now apply Nat.eqb_eq in E.
           ++ right. now apply Nat.eqb_eq in E.
        -- constructor; [cbn; lia |].
           eapply Forall_impl; [exact Hrange |]. cbn. intros e He. lia.
        -- cbn [map]. constructor; [assumption |].
           apply List.Forall_forall. intros c Hc. apply in_map_iff in Hc as (e & <- & He).
           rewrite List.Forall_forall in Hrange. specialize (Hrange e He). cbn. lia.
      * exists progress. split; [| split; [| split]]; try assumption.
        -- rewrite Hp. now rewrite Hpub.
        -- eapply Forall_impl; [exact Hrange |]. cbn. intros e He. lia.
    + specialize (IH total_files (S index) w (skip r)).
      cbv zeta in IH. destruct IH as (IHok & progress & Hp & Hall & Hrange & Hsorted);
        [cbn; lia | exact Hok |].
      split; [assumption |]. exists progress. repeat split; try assumption.
      eapply Forall_impl; [exact Hrange |]. cbn. intros e He. lia.
Qed.

(** X8.  The events of a clean over a non-empty list are, in this order:
    one CLEAN_STARTED carrying the number of files; progress events, each
    carrying that number as total, a position that is a multiple of ten or
    the last one, and a deleted count not above the position, positions
    strictly increasing within 1..n; and exactly one closing event,
    CLEAN_COMPLETED when the error list is empty and CLEAN_FAILED with at
    most five of the errors otherwise.  An empty list publishes nothing. *)
Theorem clean_event_protocol (files : list FileInfo) (w : World) :
  let w' := fst (clean ex state_manager files w) in
  let r := snd (clean ex state_manager files w) in
  (files = [] -> published w' = published w)
  /\ (files <> [] ->
      exists progress,
        published w'
        = published w
          ++ CLEAN_STARTED (length files) :: progress ++ [closing_event r]
        /\ Forall (is_progress (length files)) progress
        /\ Forall (fun e => 1 <= current_of e <= length files)%nat progress
        /\ StronglySorted lt (map current_of progress)).
Proof.
  cbv zeta. split; [intros ->; reflexivity |]. intros Hne.
  rewrite clean_nonempty by assumption. cbv zeta. cbn [fst snd].
  set (w0 := publish w (CLEAN_STARTED (length files))).
  pose proof (clean_loop_events files (length files) 0 w0 CleanResult_init) as H.
  cbv zeta in H. destruct H as (Hok & progress & Hp & Hall & Hrange & Hsorted);
    [cbn; lia | discriminate |].
  exists progress. split; [| split; [| split]]; try assumption.
  cbn [publish published]. rewrite Hp. subst w0. cbn [publish published].
  rewrite <- !app_assoc. cbn [app]. do 3 f_equal. unfold closing_event.
  destruct (success _) eqn:Es.
  - destruct (errors _); reflexivity.
  - specialize (Hok eq_refl). destruct (errors _); [congruence | reflexivity].
Qed.

(** a clean that sees the cancel request at its first round *)
Lemma clean_cancelled (files : list FileInfo) (w : World) :
  cancel_seen = true -> files <> [] ->
  clean ex state_manager files w
  = (publish (publish w (CLEAN_STARTED (length files)))
       (CLEAN_FAILED 0 1 ["Cancelled by user"]),
     cancelled_result CleanResult_init).
Proof.
  intros Hc Hne. rewrite clean_nonempty by assumption.
  destruct files as [| f rest]; [congruence |].
  cbv zeta. rewrite clean_loop_cons, Hc. reflexivity.
Qed.

End Loop.



Lemma clean_accounts_for_every_file_witness :
  let r := snd (clean Executor_init StateManager.new Examples.five_files Examples.world) in
  (files_deleted r + skipped r + length (errors r) = length Examples.five_files)%nat
  /\ success r = true
  /\ Forall (fun e => exists f, In f Examples.five_files
               /\ PyStr.contains (Pathlib.to_string (ScanModels.path f)) e = true)
       (errors r).
Proof.
  apply (clean_accounts_for_every_file Executor_init StateManager.new
           Examples.five_files Examples.world).
  reflexivity.
Defined.



End CleanerMore.

(* ===================================================================== *)
(** * What the safety check does not look at: the paths below a path *)
(* ===================================================================== *)

Module ProtectedAncestors.
Import ScanModels SecurityLayer.

Section WithFileSystem.
Variable fs : FileSystem.

(** a resolved path with fewer parts than an entry resolves to is not under
    that entry *)
Lemma shorter_is_not_under (real : Path) (entry : string) :
  fs_realpath fs real = Ok real ->
  (forall resolved, fs_realpath fs (Pathlib.of_string entry) = Ok resolved ->
                    (length real < length resolved)%nat) ->
  _is_path_under fs real (Pathlib.of_string entry) = false.
Proof.
  intros Hreal Hshort. unfold _is_path_under. rewrite Hreal.
  destruct (fs_realpath fs (Pathlib.of_string entry)) as [resolved |]; [| reflexivity].
  now rewrite (proj2 (Nat.ltb_lt _ _) (Hshort resolved eq_refl)).
Qed.

Lemma shorter_is_accepted (cls : cls_t) (path real : Path) :
  fs_exists fs path = true ->
  fs_realpath fs path = Ok real ->
  fs_realpath fs real = Ok real ->
  (forall entry resolved,
      In entry (HARDCODED_PROTECTED cls) ->
      fs_realpath fs (Pathlib.of_string entry) = Ok resolved ->
      (length real < length resolved)%nat) ->
  PyStr.mem (PyStr.lower (Pathlib.name path)) SYSTEM_FILES = false ->
  is_safe_to_delete fs cls path [] = (true, "OK").
Proof.
  intros Hex Hres Hreal Hshort Hname. unfold is_safe_to_delete.
  rewrite Hex, Hres. cbn [negb].
  assert (first_protected fs cls real = None) as ->.
  { apply SecurityMore.first_protected_none. intros entry Hin.
    apply shorter_is_not_under; [assumption |]. intros resolved. now apply Hshort. }
  rewrite Hname. reflexivity.
Qed.

End WithFileSystem.

(** X9.  The safety check looks up from a path, never down.  An existing
    path whose resolved form has fewer parts than every protected entry
    resolves to, a drive root for one, and whose name is no system file, is
    accepted with "OK" although protected directories lie below it; and a
    clean of that one path, accepted by the recycle bin, takes away every
    path below it, those under protected entries included. *)
Theorem ancestor_of_protected_is_accepted (ex : Cleaner.Executor)
    (state_manager : StateManager.t) (w : Cleaner.World) (f : FileInfo) (real : Path) :
  fs_exists (Cleaner.fs w) (ScanModels.path f) = true ->
  fs_realpath (Cleaner.fs w) (ScanModels.path f) = Ok real ->
  fs_realpath (Cleaner.fs w) real = Ok real ->
  (forall entry resolved,
      In entry (HARDCODED_PROTECTED (Cleaner.security ex)) ->
      fs_realpath (Cleaner.fs w) (Pathlib.of_string entry) = Ok resolved ->
      (length real < length resolved)%nat) ->
  PyStr.mem (PyStr.lower (Pathlib.name (ScanModels.path f))) SYSTEM_FILES = false ->
  CleanerMore.cancel_seen ex state_manager = false ->
  Cleaner.send2trash_installed w = true ->
  Cleaner.send2trash_fails w (ScanModels.path f) = false ->
  is_safe_to_delete (Cleaner.fs w) (Cleaner.security ex) (ScanModels.path f) []
  = (true, "OK")
  /\ Cleaner.files_deleted (snd (Cleaner.clean ex state_manager [f] w)) = 1%nat
  /\ forall q, take (length (ScanModels.path f)) q = ScanModels.path f ->
               fs_exists (Cleaner.fs (fst (Cleaner.clean ex state_manager [f] w))) q
               = false.
Proof.
  intros Hex Hres Hreal Hshort Hname Hc Hinst Hfails.
  pose proof (shorter_is_accepted (Cleaner.fs w) (Cleaner.security ex)
                (ScanModels.path f) real Hex Hres Hreal Hshort Hname) as Hsafe.
  split; [exact Hsafe |].
  rewrite CleanerMore.clean_nonempty by discriminate. cbv zeta. cbn [fst snd length].
  rewrite CleanerMore.clean_loop_cons, Hc.
  set (w0 := Cleaner.publish w (Cleaner.CLEAN_STARTED 1)).
  assert (CleanerMore.accepted ex w0 f = true) as ->
    by (unfold CleanerMore.accepted; cbn [w0 Cleaner.publish Cleaner.fs];
        now rewrite Hsafe).
  assert (Cleaner._delete_file w0 (ScanModels.path f)
          = (true, Cleaner.remove w0 (ScanModels.path f))) as Hdel.
  { unfold Cleaner._delete_file. cbn [w0 Cleaner.publish Cleaner.send2trash_installed
                                      Cleaner.send2trash_fails].
    now rewrite Hinst, Hfails. }
  cbn [Cleaner.clean_loop fst snd].
  unfold CleanerMore.result_after, CleanerMore.world_after. rewrite Hdel.
  cbn [fst snd]. split; [reflexivity |].
  intros q Hq. cbn. now rewrite bool_decide_eq_true_2.
Qed.

Lemma ancestor_of_protected_is_accepted_witness :
  let f := Examples.file "C:\" 0 in
  is_safe_to_delete Examples.windows_disk initial (ScanModels.path f) [] = (true, "OK")
  /\ Cleaner.files_deleted
       (snd (Cleaner.clean Cleaner.Executor_init StateManager.new [f] Examples.world))
     = 1%nat
  /\ fs_exists Examples.windows_disk
       (Pathlib.of_string "C:\Windows\System32\kernel32.dll") = true
  /\ is_system_path Examples.windows_disk initial
       (Pathlib.of_string "C:\Windows\System32\kernel32.dll") = true
  /\ fs_exists
       (Cleaner.fs (fst (Cleaner.clean Cleaner.Executor_init StateManager.new [f]
                           Examples.world)))
       (Pathlib.of_string "C:\Windows\System32\kernel32.dll") = false.
Proof.
  cbv zeta.
  destruct (ancestor_of_protected_is_accepted Cleaner.Executor_init StateManager.new
              Examples.world (Examples.file "C:\" 0) ["C:\"])
    as (Hsafe & Hdel & Hgone); try reflexivity.
  - intros entry resolved Hin Hres. cbn in Hin.
    repeat (destruct Hin as [<- | Hin]; [inversion Hres; subst resolved; cbn; lia |]).
    destruct Hin.
  - split; [exact Hsafe |]. split; [exact Hdel |].
    split; [reflexivity |]. split; [reflexivity |].
    apply Hgone. reflexivity.
Defined.

End ProtectedAncestors.

(* ===================================================================== *)
(** * More of controllers/clean_controller.py *)
(* ===================================================================== *)

Module CleanControllerMore.
Import ScanModels StateManager CleanController.

(** [cancel_clean].  The executor's [cancel] sets its own flag and asks the
    shared state manager once more. *)
Definition cancel_clean (c : t) : bool * t :=
  if negb (StateManager.is_cleaning (state_manager c)) then (false, c)
  else
    let m := StateManager.request_cancel (state_manager c) in
    let '(ex, m') := Cleaner.cancel (cleaner c) m in
    (true, {| cleaner := ex; security := security c; state_manager := m';
              _clean_thread := _clean_thread c; _result := _result c;
              _confirmed := _confirmed c; _preview_files := _preview_files c;
              _complete_event := _complete_event c |}).

(** the dictionary [_generate_report] builds; the two clock readings are
    left out *)
Record Report : Type := {
  report_success : bool;
  report_files_deleted : nat;
  report_skipped : nat;
  freed_space : PyNum.num;
  report_formatted_size : string;
  error_count : nat;
  report_errors : list string
}.

Definition _generate_report (result : Cleaner.CleanResult) : Report :=
  {| report_success := Cleaner.success result;
     report_files_deleted := Cleaner.files_deleted result;
     report_skipped := Cleaner.skipped result;
     freed_space := Cleaner.total_size result;
     report_formatted_size := _format_size (Cleaner.total_size result);
     error_count := length (Cleaner.errors result);
     report_errors := Cleaner.errors result |}.

(** [get_report] *)
Definition get_report (c : t) : option Report :=
  match _result c with
  | None => None
  | Some result => Some (_generate_report result)
  end.

(** the controller a finished worker leaves behind *)
Definition finished (c : t) (files : list FileInfo) (r : Cleaner.CleanResult) : t :=
  {| cleaner := cleaner c; security := security c;
     state_manager := {| _state := IDLE; _cancel_flag := false |};
     _clean_thread := Some files; _result := Some r;
     _confirmed := _confirmed c; _preview_files := _preview_files c;
     _complete_event := true |}.

Lemma is_idle_true (m : StateManager.t) : is_idle m = true -> _state m = IDLE.
Proof. unfold is_idle, current_state. destruct (_state m); cbn; congruence. Qed.

(** what [start_clean] answers, in every case *)
Lemma start_clean_cases (c : t) (files : list FileInfo) (require_confirmation : bool) :
  start_clean c files require_confirmation =
  if is_idle (state_manager c) && negb (bool_decide (files = []))
     && (negb require_confirmation || _confirmed c)
  then Returns true
         {| cleaner := cleaner c; security := security c;
            state_manager := {| _state := CLEANING; _cancel_flag := false |};
            _clean_thread := Some files; _result := None;
            _confirmed := _confirmed c; _preview_files := _preview_files c;
            _complete_event := false |}
  else Returns false c.
Proof.
  unfold start_clean.
  destruct (is_idle (state_manager c)) eqn:Ei; cbn [negb andb]; [| reflexivity].
  apply is_idle_true in Ei.
  destruct files as [| f rest]; [reflexivity |].
  rewrite bool_decide_eq_false_2 by discriminate. cbn [negb andb].
  destruct require_confirmation, (_confirmed c); cbn [negb andb orb]; try reflexivity;
    cbv zeta; cbn [state_manager]; unfold transition_to; rewrite Ei; reflexivity.
Qed.

(** X10.  [start_clean] starts a worker exactly when the state manager is
    idle, the list is not empty and, if confirmation is required, the
    controller is confirmed.  It never raises.  When it answers [True] the
    state is Cleaning with the cancel flag cleared, the old result is gone
    and the worker has the list; when it answers [False] nothing has
    changed. *)
Theorem start_clean_starts_iff (c : t) (files : list FileInfo)
    (require_confirmation : bool) :
  exists b c',
    start_clean c files require_confirmation = Returns b c'
    /\ (b = true <->
        _state (state_manager c) = IDLE
        /\ files <> []
        /\ (require_confirmation = true -> _confirmed c = true))
    /\ (b = true ->
        state_manager c' = {| _state := CLEANING; _cancel_flag := false |}
        /\ _clean_thread c' = Some files
        /\ _result c' = None
        /\ _complete_event c' = false
        /\ _confirmed c' = _confirmed c
        /\ _preview_files c' = _preview_files c
        /\ cleaner c' = cleaner c)
    /\ (b = false -> c' = c).
Proof.
  rewrite start_clean_cases.
  destruct (is_idle (state_manager c)) eqn:Ei; cbn [andb].
  - apply is_idle_true in Ei. destruct files as [| f rest].
    + rewrite bool_decide_eq_true_2 by reflexivity. cbn [negb andb].
      exists false, c. repeat split; try discriminate. intros (_ & H & _). congruence.
    + rewrite bool_decide_eq_false_2 by discriminate. cbn [negb andb].
      destruct require_confirmation, (_confirmed c) eqn:Ec; cbn [negb orb];
        eexists _, _; (split; [reflexivity |]);
        repeat split; try discriminate; try congruence; auto.
      intros (_ & _ & H). specialize (H eq_refl). discriminate.
  - exists false, c. repeat split; try discriminate.
    intros (H & _). unfold is_idle, current_state in Ei. rewrite H in Ei. discriminate.
Qed.

(** a worker started in state Cleaning runs the clean and returns to Idle *)
Lemma clean_worker_from_cleaning (c : t) (files : list FileInfo) (w : Cleaner.World) :
  _state (state_manager c) = CLEANING ->
  _clean_worker c files w =
  (fst (Cleaner.clean (cleaner c) (state_manager c) files w),
   Returns tt
     {| cleaner := cleaner c; security := security c;
        state_manager := {| _state := IDLE; _cancel_flag := false |};
        _clean_thread := _clean_thread c;
        _result := Some (snd (Cleaner.clean (cleaner c) (state_manager c) files w));
        _confirmed := _confirmed c; _preview_files := _preview_files c;
        _complete_event := true |}).
Proof.
  intros Hs. unfold _clean_worker.
  destruct (Cleaner.clean _ _ _ _) as [w' r]. cbn [fst snd].
  unfold transition_to. rewrite Hs. reflexivity.
Qed.

(** a clean that starts runs to its end *)
Lemma started_clean_runs (c : t) (files : list FileInfo) (require_confirmation : bool)
    (w : Cleaner.World) :
  _state (state_manager c) = IDLE -> files <> [] ->
  (require_confirmation = true -> _confirmed c = true) ->
  let out := Cleaner.clean (cleaner c) {| _state := CLEANING; _cancel_flag := false |}
               files w in
  start_clean_then_worker c files require_confirmation w
  = (fst out, Returns true (finished c files (snd out))).
Proof.
  intros Hi Hne Hc. cbv zeta. unfold start_clean_then_worker.
  rewrite start_clean_cases.
  replace (is_idle (state_manager c)) with true
    by (unfold is_idle, current_state; now rewrite Hi).
  rewrite bool_decide_eq_false_2 by assumption.
  replace (negb require_confirmation || _confirmed c) with true
    by (destruct require_confirmation; [now rewrite Hc | reflexivity]).
  cbn [negb andb]. rewrite clean_worker_from_cleaning by reflexivity.
  reflexivity.
Qed.

(** X11.  Confirmation outlives the clean it was given for, and is not tied
    to the previewed list: after a confirmed clean has run, the controller
    is idle again and still confirmed, so the next [start_clean] with
    default arguments starts for any non-empty list, previewed or not. *)
Theorem confirmation_is_not_consumed (c : t) (files later : list FileInfo)
    (w : Cleaner.World) :
  _state (state_manager c) = IDLE ->
  _confirmed c = true ->
  files <> [] ->
  later <> [] ->
  exists w' c' c'',
    start_clean_then_worker c files true w = (w', Returns true c')
    /\ _state (state_manager c') = IDLE
    /\ _confirmed c' = true
    /\ _preview_files c' = _preview_files c
    /\ start_clean_default c' later = Returns true c''
    /\ _clean_thread c'' = Some later.
Proof.
  intros Hi Hc Hne Hlater.
  rewrite (started_clean_runs c files true w Hi Hne (fun _ => Hc)).
  eexists _, _, _. split; [reflexivity |].
  split; [reflexivity |]. split; [exact Hc |]. split; [reflexivity |].
  unfold start_clean_default. rewrite start_clean_cases.
  cbn [finished state_manager _confirmed]. rewrite Hc.
  rewrite bool_decide_eq_false_2 by assumption. cbn. split; reflexivity.
Qed.

Lemma confirmation_is_not_consumed_witness :
  exists w' c' c'',
    start_clean_then_worker CleanScenario.confirmed_controller Examples.five_files
      true Examples.world = (w', Returns true c')
    /\ _state (state_manager c') = IDLE
    /\ _confirmed c' = true
    /\ _preview_files c' = _preview_files CleanScenario.confirmed_controller
    /\ start_clean_default c' [Examples.file "C:\Temp\e.tmp" 50] = Returns true c''
    /\ _clean_thread c'' = Some [Examples.file "C:\Temp\e.tmp" 50].
Proof.
  apply (confirmation_is_not_consumed CleanScenario.confirmed_controller
           Examples.five_files [Examples.file "C:\Temp\e.tmp" 50] Examples.world);
    [reflexivity | reflexivity | discriminate | discriminate].
Defined.

(** the result of a clean that was cancelled before its first file *)
Definition cancelled_at_once : Cleaner.CleanResult :=
  {| Cleaner.success := false; Cleaner.files_deleted := 0;
     Cleaner.total_size := PyNum.Int 0; Cleaner.errors := ["Cancelled by user"];
     Cleaner.skipped := 0 |}.

(** X12.  A cancellation is never taken back.  [cancel_clean] answers
    [True] exactly in state Cleaning and then sets the executor's own
    [_cancelled] flag; no operation of the controller clears that flag
    (only the state manager's flag is cleared by the next transition).  So
    from then on every clean the controller starts stops before its first
    file: the file system is untouched and the result is the failure
    "Cancelled by user". *)
Theorem cancel_clean_is_permanent (c : t) :
  Cleaner._cancelled (cleaner c) = true ->
  (forall filesystem files,
      Cleaner._cancelled (cleaner (snd (preview_clean filesystem c files))) = true)
  /\ Cleaner._cancelled (cleaner (snd (confirm_clean c))) = true
  /\ Cleaner._cancelled (cleaner (reset_confirmation c)) = true
  /\ Cleaner._cancelled (cleaner (snd (cancel_clean c))) = true
  /\ (forall files rc w w' b c',
        start_clean_then_worker c files rc w = (w', Returns b c') ->
        Cleaner._cancelled (cleaner c') = true
        /\ (b = true ->
            Cleaner.fs w' = Cleaner.fs w
            /\ _result c' = Some cancelled_at_once
            /\ _state (state_manager c') = IDLE))
  /\ (forall c0, fst (cancel_clean c0) = true <-> _state (state_manager c0) = CLEANING)
  /\ (forall c0, fst (cancel_clean c0) = true ->
        Cleaner._cancelled (cleaner (snd (cancel_clean c0))) = true).
Proof.
  intros Hp. split; [| split; [| split; [| split; [| split; [| split]]]]].
  - intros filesystem files. unfold preview_clean.
    destruct (classify _ _ _ _) as [[a b] d]. exact Hp.
  - exact Hp.
  - exact Hp.
  - unfold cancel_clean. destruct (negb _); [exact Hp | reflexivity].
  - intros files rc w w' b c'. unfold start_clean_then_worker.
    rewrite start_clean_cases.
    destruct (is_idle (state_manager c) && negb (bool_decide (files = []))
              && (negb rc || _confirmed c)) eqn:E.
    + rewrite clean_worker_from_cleaning by reflexivity.
      cbn [cleaner state_manager].
      apply andb_true_iff in E as [E _]. apply andb_true_iff in E as [_ E].
      apply negb_true_iff, bool_decide_eq_false in E.
      rewrite CleanerMore.clean_cancelled
        by (try assumption; unfold CleanerMore.cancel_seen; now rewrite Hp).
      intros H. inversion H; subst. cbn. repeat split; assumption.
    + intros H. inversion H; subst. split; [exact Hp | discriminate].
  - intros c0. unfold cancel_clean, StateManager.is_cleaning, current_state.
    destruct (_state (state_manager c0)); cbn; split; congruence.
  - intros c0. unfold cancel_clean. destruct (negb _); [discriminate | reflexivity].
Qed.

(** a controller whose clean was cancelled while it ran, back in Idle and
    confirmed *)
Definition cancelled_once : t :=
  let cleaning :=
    set_state_manager CleanScenario.confirmed_controller
      {| _state := CLEANING; _cancel_flag := false |} in
  set_state_manager (snd (cancel_clean cleaning)) StateManager.new.

Lemma cancel_clean_is_permanent_witness :
  (forall files rc w w' b c',
      start_clean_then_worker cancelled_once files rc w = (w', Returns b c') ->
      Cleaner._cancelled (cleaner c') = true
      /\ (b = true ->
          Cleaner.fs w' = Cleaner.fs w
          /\ _result c' = Some cancelled_at_once
          /\ _state (state_manager c') = IDLE))
  /\ fst (start_clean_then_worker cancelled_once Examples.five_files true Examples.world)
     = {| Cleaner.fs := Examples.windows_disk; Cleaner.send2trash_installed := true;
          Cleaner.send2trash_fails := Cleaner.send2trash_fails Examples.world;
          Cleaner.published :=
            [Cleaner.CLEAN_STARTED 5; Cleaner.CLEAN_FAILED 0 1 ["Cancelled by user"]] |}.
Proof.
  split; [| reflexivity].
  exact (proj1 (proj2 (proj2 (proj2 (proj2
           (cancel_clean_is_permanent cancelled_once eq_refl)))))).
Defined.

(* --------------------------------------------------------------------- *)
(** ** The preview and the report *)

Section Preview.
Variable filesystem : FileSystem.

(** the safety check as [preview_clean] calls it *)
Definition accepts (c : t) (f : FileInfo) : bool :=
  fst (SecurityLayer.is_safe_to_delete filesystem (security c) (ScanModels.path f) []).

(** the extensions [preview_clean] takes for safe *)
Definition temporary (f : FileInfo) : bool :=
  PyStr.mem (ScanModels.file_extension f) [".tmp"; ".cache"; ".temp"].

Lemma classify_cons (c : t) (f : FileInfo) (rest : list FileInfo)
    (risky safe system : nat) :
  classify filesystem c (f :: rest) (risky, safe, system) =
  if accepts c f then
    if temporary f then classify filesystem c rest (risky, S safe, system)
    else classify filesystem c rest (S risky, safe, system)
  else
    let reason := snd (SecurityLayer.is_safe_to_delete filesystem (security c)
                         (ScanModels.path f) []) in
    if PyStr.contains "system" (PyStr.lower reason)
       || PyStr.contains "protected" (PyStr.lower reason)
    then classify filesystem c rest (risky, safe, S system)
    else classify filesystem c rest (risky, safe, system).
Proof.
  cbn [classify]. unfold accepts, temporary.
  destruct (SecurityLayer.is_safe_to_delete filesystem (security c)
              (ScanModels.path f) []) as [is_safe reason].
  destruct is_safe; reflexivity.
Qed.

Lemma classify_counts (c : t) (files : list FileInfo) :
  forall risky safe system : nat,
    let '(risky', safe', system') := classify filesystem c files (risky, safe, system) in
    safe' = (safe + length (List.filter (fun f => accepts c f && temporary f) files))%nat
    /\ risky' = (risky + length (List.filter
                                  (fun f => accepts c f && negb (temporary f)) files))%nat
    /\ (system <= system')%nat
    /\ (system' <= system + length (List.filter (fun f => negb (accepts c f)) files))%nat
    /\ (risky' + safe' + system' <= risky + safe + system + length files)%nat.
Proof.
  induction files as [| f files IH]; intros risky safe system.
  - cbn. repeat split; lia.
  - rewrite classify_cons. cbn [List.filter].
    destruct (accepts c f); cbn [negb andb].
    + destruct (temporary f); cbn [negb].
      * specialize (IH risky (S safe) system).
        destruct (classify _ _ _ _) as [[r1 s1] y1]. cbn [length]. lia.
      * specialize (IH (S risky) safe system).
        destruct (classify _ _ _ _) as [[r1 s1] y1]. cbn [length]. lia.
    + cbv zeta. destruct (_ || _).
      * specialize (IH risky safe (S system)).
        destruct (classify _ _ _ _) as [[r1 s1] y1]. cbn [length]. lia.
      * specialize (IH risky safe system).
        destruct (classify _ _ _ _) as [[r1 s1] y1]. cbn [length]. lia.
Qed.

(** X13.  [preview_clean] counts every listed file in [file_count] and its
    size in [total_size], whether or not the clean would take it; sorts the
    files the safety check accepts into [safe_files] (extension .tmp, .cache
    or .temp, compared as written) and [risky_files] (all others), counts
    only rejected files in [system_files], and changes nothing in the
    controller but the confirmation, which it withdraws, and the stored
    list. *)
Theorem preview_clean_counts (c : t) (files : list FileInfo) :
  let p := fst (preview_clean filesystem c files) in
  let c' := snd (preview_clean filesystem c files) in
  file_count p = length files
  /\ total_size p
     = fold_left (fun acc f => PyNum.add acc (ScanModels.size f)) files (PyNum.Int 0)
  /\ safe_files p = length (List.filter (fun f => accepts c f && temporary f) files)
  /\ risky_files p
     = length (List.filter (fun f => accepts c f && negb (temporary f)) files)
  /\ (system_files p <= length (List.filter (fun f => negb (accepts c f)) files))%nat
  /\ (safe_files p + risky_files p + system_files p <= file_count p)%nat
  /\ c' = set_confirmation c false files.
Proof.
  cbv zeta. unfold preview_clean.
  pose proof (classify_counts (set_confirmation c false files) files 0 0 0) as H.
  destruct (classify _ _ _ _) as [[risky safe] system].
  cbn [fst snd file_count total_size safe_files risky_files system_files].
  destruct H as (Hs & Hr & _ & Hy & Hsum).
  repeat split; try assumption; lia.
Qed.

End Preview.

(** X14.  The report of a clean that was started through the controller and
    ran without a cancel request accounts for every file handed to
    [start_clean]: deleted, skipped and error counts add up to the length of
    the list, [success] is true, and the size in the report is the one in
    the stored result, which reading the report does not change. *)
Theorem report_accounts_for_every_file (c : t) (files : list FileInfo)
    (require_confirmation : bool) (w : Cleaner.World) :
  _state (state_manager c) = IDLE ->
  files <> [] ->
  (require_confirmation = true -> _confirmed c = true) ->
  Cleaner._cancelled (cleaner c) = false ->
  exists w' c' report result,
    start_clean_then_worker c files require_confirmation w = (w', Returns true c')
    /\ get_report c' = Some report
    /\ get_result c' = Some result
    /\ (report_files_deleted report + report_skipped report + error_count report
        = length files)%nat
    /\ report_success report = true
    /\ freed_space report = Cleaner.total_size result
    /\ report_formatted_size report = _format_size (Cleaner.total_size result).
Proof.
  intros Hi Hne Hc Hnc.
  rewrite (started_clean_runs c files require_confirmation w Hi Hne Hc).
  pose proof (CleanerMore.clean_sums (cleaner c)
                {| _state := CLEANING; _cancel_flag := false |} files w) as H.
  eexists _, _, _, _. split; [reflexivity |].
  unfold get_report, get_result, finished. cbn [_result].
  split; [reflexivity |]. split; [reflexivity |].
  cbv zeta in H. destruct H as (Hsum & Hok); [unfold CleanerMore.cancel_seen; now rewrite Hnc |].
  cbn. repeat split; assumption.
Qed.

Lemma report_accounts_for_every_file_witness :
  exists w' c' report result,
    start_clean_then_worker CleanScenario.confirmed_controller Examples.five_files
      true Examples.world = (w', Returns true c')
    /\ get_report c' = Some report
    /\ get_result c' = Some result
    /\ (report_files_deleted report + report_skipped report + error_count report
        = length Examples.five_files)%nat
    /\ report_success report = true
    /\ freed_space report = Cleaner.total_size result
    /\ report_formatted_size report = _format_size (Cleaner.total_size result).
Proof.
  apply (report_accounts_for_every_file CleanScenario.confirmed_controller
           Examples.five_files true Examples.world);
    [reflexivity | discriminate | reflexivity | reflexivity].
Defined.

End CleanControllerMore.

(* ===================================================================== *)
(** * More of core/rule_engine.py: changing and indexing the rule list *)
(* ===================================================================== *)

Module RuleEngineMore.
Import ScanModels RuleEngine.

(** the [for i, rule in enumerate(self.rules)] search of [remove_rule]:
    the list without the first rule that has the id, if there is one *)
Fixpoint remove_first (rule_id : string) (rs : list Rule) : option (list Rule) :=
  match rs with
  | [] => None
  | r :: rest =>
      if String.eqb (id r) rule_id then Some rest
      else option_map (cons r) (remove_first rule_id rest)
  end.

(** [remove_rule] *)
Definition remove_rule (e : Engine) (rule_id : string) : bool * Engine :=
  match remove_first rule_id (rules e) with
  | Some rs => (true, {| rules := rs; rule_index := Some (RuleIndex_init rs) |})
  | None => (false, e)
  end.

(** [rule.category or "uncategorized"] *)
Definition category_key (r : Rule) : string :=
  match category r with
  | Some c => if String.eqb c "" then "uncategorized" else c
  | None => "uncategorized"
  end.

(** [RuleIndex.get_rules_by_category] *)
Definition get_rules_by_category (idx : RuleIndex) (cat : string) : list Rule :=
  default [] (rules_by_category idx !! cat).

(** [RuleIndex.get_rules_by_risk]; the dictionary has all three keys *)
Definition get_rules_by_risk (idx : RuleIndex) (lvl : RiskLevel) : list Rule :=
  rules_by_risk idx lvl.

(** [RuleMatch.risk_level], the property *)
Definition RuleMatch_risk_level (m : RuleMatch) : RiskLevel :=
  match rule m with
  | Some r => risk_level r
  | None => L2_REVIEW
  end.

Section WithRegex.
Variable re : Regex.

Lemma match_loop_app (l1 l2 : list Rule) (f : FileInfo) :
  match_loop re (l1 ++ l2) f
  = if matched (match_loop re l1 f) then match_loop re l1 f else match_loop re l2 f.
Proof.
  induction l1 as [| r l1 IH]; cbn [app match_loop]; [reflexivity |].
  destruct (rule_matches re r f); [reflexivity | exact IH].
Qed.

(** the shape of every result of the loop *)
Lemma match_loop_shape (rs : list Rule) (f : FileInfo) :
  (exists r, In r rs /\ rule_matches re r f = true /\ match_loop re rs f = matched_by r f)
  \/ ((forall r, In r rs -> rule_matches re r f = false)
      /\ match_loop re rs f = unmatched f).
Proof.
  induction rs as [| r rs IH]; cbn [match_loop].
  - right. split; [intros r [] | reflexivity].
  - destruct (rule_matches re r f) eqn:E.
    + left. exists r. repeat split; [now left | assumption].
    + destruct IH as [(r' & Hin & Hm & Heq) | (Hnone & Heq)].
      * left. exists r'. repeat split; [now right | assumption ..].
      * right. split; [| assumption]. intros r' [<- | Hin]; auto.
Qed.

(** X15.  Adding a rule never changes the answer for a file that already
    matched: [add_rule] puts the rule last, so on an engine whose index was
    built from its rules a file matched before is matched by the same rule
    afterwards, and a file that was unmatched is judged by the new rule
    alone. *)
Theorem add_rule_keeps_earlier_matches (cfg : ConfigFile) (e : Engine) (r : Rule)
    (f : FileInfo) :
  rule_index e = Some (RuleIndex_init (rules e)) ->
  exists m,
    match_file re cfg e f = Ok (m, e)
    /\ (matched m = true -> match_file re cfg (add_rule e r) f = Ok (m, add_rule e r))
    /\ (matched m = false ->
        match_file re cfg (add_rule e r) f
        = Ok (if rule_matches re r f then matched_by r f else unmatched f, add_rule e r)).
Proof.
  intros Hl. exists (match_loop re (rules e) f).
  rewrite (RuleEngineFacts.match_file_loaded re cfg e f Hl).
  rewrite (RuleEngineFacts.match_file_loaded re cfg (add_rule e r) f eq_refl).
  cbn [add_rule rules]. rewrite match_loop_app. cbn [match_loop].
  split; [reflexivity |]. split; intros ->; reflexivity.
Qed.

End WithRegex.

Lemma add_rule_keeps_earlier_matches_witness :
  let f := Examples.file "C:\Temp\a.tmp" 10 in
  let e := RuleEngineFacts.two_rules in
  let r := RuleEngineFacts.by_extension "c" "C" [".tmp"] L3_SYSTEM in
  exists m,
    match_file Examples.no_regex Missing e f = Ok (m, e)
    /\ (matched m = true ->
        match_file Examples.no_regex Missing (add_rule e r) f = Ok (m, add_rule e r))
    /\ (matched m = false ->
        match_file Examples.no_regex Missing (add_rule e r) f
        = Ok (if rule_matches Examples.no_regex r f then matched_by r f else unmatched f,
              add_rule e r)).
Proof.
  cbv zeta.
  exact (add_rule_keeps_earlier_matches Examples.no_regex Missing
           RuleEngineFacts.two_rules
           (RuleEngineFacts.by_extension "c" "C" [".tmp"] L3_SYSTEM)
           (Examples.file "C:\Temp\a.tmp" 10) eq_refl).
Defined.

Lemma remove_first_none (rule_id : string) (rs : list Rule) :
  remove_first rule_id rs = None <-> (forall r, In r rs -> id r <> rule_id).
Proof.
  induction rs as [| r rs IH]; cbn [remove_first].
  - split; [intros _ r [] | reflexivity].
  - destruct (String.eqb (id r) rule_id) eqn:E.
    + apply String.eqb_eq in E. split; [discriminate |].
      intros H. exfalso. apply (H r); [now left | assumption].
    + apply String.eqb_neq in E. destruct (remove_first rule_id rs) as [rs' |].
      * cbn [option_map]. split; [discriminate |]. intros H.
        assert (Some rs' = None) as Hn
          by (apply IH; intros r' Hr'; apply H; now right).
        discriminate Hn.
      * split; [| reflexivity]. intros _ r' [<- | Hr']; [assumption |].
        now apply (proj1 IH).
Qed.

Lemma remove_first_some (rule_id : string) (rs rs' : list Rule) :
  remove_first rule_id rs = Some rs' ->
  exists pre r post,
    rs = pre ++ r :: post /\ rs' = pre ++ post /\ id r = rule_id
    /\ (forall r', In r' pre -> id r' <> rule_id).
Proof.
  revert rs'. induction rs as [| r rs IH]; cbn [remove_first]; intros rs' H.
  - discriminate.
  - destruct (String.eqb (id r) rule_id) eqn:E.
    + inversion H; subst rs'. apply String.eqb_eq in E.
      exists [], r, rs. repeat split; [assumption | intros r' []].
    + apply String.eqb_neq in E. destruct (remove_first rule_id rs) as [rs1 |];
        [| discriminate].
      inversion H; subst rs'.
      destruct (IH rs1 eq_refl) as (pre & r0 & post & -> & -> & Hid & Hpre).
      exists (r :: pre), r0, post. repeat split; [assumption |].
      intros r' [<- | Hr']; auto.
Qed.

Lemma remove_first_last (rule_id : string) (rs : list Rule) (r : Rule) :
  (forall r', In r' rs -> id r' <> rule_id) -> id r = rule_id ->
  remove_first rule_id (rs ++ [r]) = Some rs.
Proof.
  intros Hrs Hr. induction rs as [| a rs IH]; cbn [app remove_first].
  - now rewrite (proj2 (String.eqb_eq _ _) Hr).
  - rewrite (proj2 (String.eqb_neq _ _) (Hrs a (or_introl eq_refl))).
    rewrite IH; [reflexivity |]. intros r' Hr'. apply Hrs. now right.
Qed.

(** X16.  [remove_rule] answers [False] exactly when no rule has the id,
    and then changes nothing; otherwise it takes out the first rule with
    that id and no other, keeps the order of the rest and rebuilds the
    index.  Removing a rule that was just added under a new id gives back
    the rule list as it was. *)
Theorem remove_rule_removes_first_with_id (e : Engine) (rule_id : string) :
  (fst (remove_rule e rule_id) = false <->
   forall r, In r (rules e) -> id r <> rule_id)
  /\ (fst (remove_rule e rule_id) = false -> snd (remove_rule e rule_id) = e)
  /\ (fst (remove_rule e rule_id) = true ->
      exists pre r post,
        rules e = pre ++ r :: post
        /\ id r = rule_id
        /\ (forall r', In r' pre -> id r' <> rule_id)
        /\ rules (snd (remove_rule e rule_id)) = pre ++ post
        /\ rule_index (snd (remove_rule e rule_id))
           = Some (RuleIndex_init (pre ++ post)))
  /\ (forall r, id r = rule_id ->
        (forall r', In r' (rules e) -> id r' <> rule_id) ->
        remove_rule (add_rule e r) rule_id
        = (true, {| rules := rules e; rule_index := Some (RuleIndex_init (rules e)) |})).
Proof.
  unfold remove_rule. split; [| split; [| split]].
  - rewrite <- remove_first_none.
    destruct (remove_first rule_id (rules e)); cbn; split; congruence.
  - destruct (remove_first rule_id (rules e)); cbn; [discriminate | reflexivity].
  - destruct (remove_first rule_id (rules e)) as [rs' |] eqn:E; cbn; [| discriminate].
    intros _. destruct (remove_first_some _ _ _ E) as (pre & r & post & H1 & H2 & H3 & H4).
    exists pre, r, post. subst rs'. repeat split; assumption.
  - intros r Hid Hnew. cbn [add_rule rules].
    now rewrite (remove_first_last rule_id (rules e) r Hnew Hid).
Qed.

(* --------------------------------------------------------------------- *)
(** ** What the index holds *)

(** grouping by a key, as the [_index_rules] loops do with a dictionary of
    lists *)
Definition group_step (key : Rule -> string) (m : gmap string (list Rule)) (r : Rule)
    : gmap string (list Rule) :=
  <[key r := default [] (m !! key r) ++ [r]]> m.

Lemma group_fold_lookup (key : Rule -> string) (rs : list Rule) :
  forall (m : gmap string (list Rule)) (k : string),
    default [] (fold_left (group_step key) rs m !! k)
    = default [] (m !! k) ++ List.filter (fun r => String.eqb (key r) k) rs.
Proof.
  induction rs as [| r rs IH]; intros m k; cbn [fold_left List.filter].
  - now rewrite app_nil_r.
  - rewrite IH. unfold group_step.
    destruct (String.eqb (key r) k) eqn:E.
    + apply String.eqb_eq in E. subst k. rewrite lookup_insert_eq. cbn.
      now rewrite <- app_assoc.
    + apply String.eqb_neq in E. now rewrite lookup_insert_ne.
Qed.

Lemma rules_by_category_fold (rs : list Rule) (idx : RuleIndex) :
  rules_by_category (fold_left index_rule rs idx)
  = fold_left (group_step category_key) rs (rules_by_category idx).
Proof.
  revert idx. induction rs as [| r rs IH]; intros idx; cbn [fold_left]; [reflexivity |].
  now rewrite IH.
Qed.

Lemma rules_by_risk_fold (rs : list Rule) (idx : RuleIndex) (lvl : RiskLevel) :
  rules_by_risk (fold_left index_rule rs idx) lvl
  = rules_by_risk idx lvl
    ++ List.filter (fun r => RiskLevel_eqb lvl (risk_level r)) rs.
Proof.
  revert idx. induction rs as [| r rs IH]; intros idx; cbn [fold_left List.filter].
  - now rewrite app_nil_r.
  - rewrite IH. cbn [index_rule rules_by_risk].
    destruct (RiskLevel_eqb lvl (risk_level r)); [now rewrite <- app_assoc | reflexivity].
Qed.

Lemma filter_three_levels (rs : list Rule) :
  (length (List.filter (fun r => RiskLevel_eqb L1_SAFE (risk_level r)) rs)
   + length (List.filter (fun r => RiskLevel_eqb L2_REVIEW (risk_level r)) rs)
   + length (List.filter (fun r => RiskLevel_eqb L3_SYSTEM (risk_level r)) rs)
   = length rs)%nat.
Proof.
  induction rs as [| r rs IH]; cbn [List.filter length]; [reflexivity |].
  destruct (risk_level r); cbn [RiskLevel_eqb length] in *; lia.
Qed.

(** X17.  The index built from a rule list files every rule once under its
    risk level and once under its category (or under "uncategorized" when it
    has none), enabled or not, and keeps the configured order inside each
    group; the enabled rules form the third view.  So the three risk groups
    together are as long as the rule list. *)
Theorem index_groups_are_filters (rs : list Rule) :
  (forall lvl,
      get_rules_by_risk (RuleIndex_init rs) lvl
      = List.filter (fun r => RiskLevel_eqb lvl (risk_level r)) rs)
  /\ (forall cat,
      get_rules_by_category (RuleIndex_init rs) cat
      = List.filter (fun r => String.eqb (category_key r) cat) rs)
  /\ enabled_rules (RuleIndex_init rs) = List.filter enabled rs
  /\ (length (get_rules_by_risk (RuleIndex_init rs) L1_SAFE)
      + length (get_rules_by_risk (RuleIndex_init rs) L2_REVIEW)
      + length (get_rules_by_risk (RuleIndex_init rs) L3_SYSTEM)
      = length rs)%nat.
Proof.
  assert (forall lvl,
             get_rules_by_risk (RuleIndex_init rs) lvl
             = List.filter (fun r => RiskLevel_eqb lvl (risk_level r)) rs) as Hrisk.
  { intros lvl. unfold get_rules_by_risk, RuleIndex_init.
    now rewrite rules_by_risk_fold. }
  split; [exact Hrisk |]. split; [| split].
  - intros cat. unfold get_rules_by_category, RuleIndex_init.
    rewrite rules_by_category_fold, group_fold_lookup. cbn [empty_index rules_by_category].
    now rewrite lookup_empty.
  - apply RuleEngineFacts.enabled_rules_init.
  - rewrite !Hrisk. apply filter_three_levels.
Qed.

End RuleEngineMore.

(* ===================================================================== *)
(** * core/rule_engine.py: rules to and from the configuration file *)
(* ===================================================================== *)

Module RuleSerialization.
Import ScanModels RuleEngine.

(** [s.upper()], on ASCII letters as [PyStr.lower] *)
Definition upper_ascii (c : ascii) : ascii :=
  let n := nat_of_ascii c in
  if (97 <=? n)%nat && (n <=? 122)%nat then ascii_of_nat (n - 32) else c.

Fixpoint upper (s : string) : string :=
  match s with
  | EmptyString => EmptyString
  | String c s' => String (upper_ascii c) (upper s')
  end.

(** [RiskLevel.name], which [__str__] returns *)
Definition RiskLevel_name (lvl : RiskLevel) : string :=
  match lvl with
  | L1_SAFE => "L1_SAFE"
  | L2_REVIEW => "L2_REVIEW"
  | L3_SYSTEM => "L3_SYSTEM"
  end.

(** [RiskLevel.from_string]: [cls[value.upper()]], a [KeyError] becoming a
    [ValueError] *)
Definition from_string (value : string) : result RiskLevel :=
  match List.find (fun lvl => String.eqb (RiskLevel_name lvl) (upper value))
          [L1_SAFE; L2_REVIEW; L3_SYSTEM] with
  | Some lvl => Ok lvl
  | None => Raise ("Invalid RiskLevel: " +:+ value
                   +:+ ". Must be one of ['L1_SAFE', 'L2_REVIEW', 'L3_SYSTEM']")
  end.

(** The dictionaries of the configuration file, with the value types
    [to_dict] gives them; [None] stands for a missing key. *)
Record ConditionsData : Type := {
  d_path_pattern : option string;
  d_file_extensions : option (list string);
  d_min_size : option PyNum.num;
  d_max_size : option PyNum.num;
  d_name_pattern : option string
}.

Record RuleData : Type := {
  d_id : option string;
  d_name : option string;
  d_description : option string;
  d_conditions : option ConditionsData;
  d_risk_level : option string;
  d_enabled : option bool;
  d_category : option string
}.

(** [RuleConditions.to_dict] *)
Definition RuleConditions_to_dict (c : RuleConditions) : ConditionsData :=
  {| d_path_pattern := path_pattern c;
     d_file_extensions := Some (file_extensions c);
     d_min_size := min_size c; d_max_size := max_size c;
     d_name_pattern := name_pattern c |}.

(** [Rule.to_dict] *)
Definition Rule_to_dict (r : Rule) : RuleData :=
  {| d_id := Some (id r); d_name := Some (name r);
     d_description := description r;
     d_conditions := Some (RuleConditions_to_dict (conditions r));
     d_risk_level := Some (RiskLevel_name (risk_level r));
     d_enabled := Some (enabled r);
     d_category := category r |}.

Section WithRegex.
Variable re : Regex.

(** [RuleConditions(...)]: the constructor compiles the name pattern *)
Definition RuleConditions_init (path_pattern : option string)
    (file_extensions : option (list string)) (min_size max_size : option PyNum.num)
    (name_pattern : option string) : result RuleConditions :=
  if truthy name_pattern && negb (re_compiles re (pattern_of name_pattern))
  then Raise "ValueError: Invalid regex pattern"
  else Ok {| RuleEngine.path_pattern := path_pattern;
             RuleEngine.file_extensions := default [] file_extensions;
             RuleEngine.min_size := min_size; RuleEngine.max_size := max_size;
             RuleEngine.name_pattern := name_pattern;
             optimized := false |}.

(** [RuleConditions.from_dict] *)
Definition RuleConditions_from_dict (data : ConditionsData) : result RuleConditions :=
  RuleConditions_init (d_path_pattern data) (d_file_extensions data)
    (d_min_size data) (d_max_size data) (d_name_pattern data).

Definition no_conditions : ConditionsData :=
  {| d_path_pattern := None; d_file_extensions := None; d_min_size := None;
     d_max_size := None; d_name_pattern := None |}.

(** [Rule.from_dict]; the arguments are evaluated in the order written *)
Definition Rule_from_dict (data : RuleData) : result Rule :=
  match d_id data with
  | None => Raise "KeyError: 'id'"
  | Some i =>
      match d_name data with
      | None => Raise "KeyError: 'name'"
      | Some n =>
          match RuleConditions_from_dict (default no_conditions (d_conditions data)) with
          | Raise m => Raise m
          | Ok c =>
              match from_string (default "L2_REVIEW" (d_risk_level data)) with
              | Raise m => Raise m
              | Ok lvl =>
                  Ok {| id := i; name := n; conditions := c; risk_level := lvl;
                        enabled := default true (d_enabled data);
                        description := d_description data;
                        category := d_category data |}
              end
          end
      end
  end.

(** what [save_rules] writes under ["rules"] *)
Definition save_rules (e : Engine) : list RuleData := map Rule_to_dict (rules e).

(** what [load_rules] finds in a file with these rule dictionaries *)
Definition config_file (data : list RuleData) : ConfigFile :=
  Parsed (map Rule_from_dict data).

End WithRegex.

End RuleSerialization.

Module RuleSerializationFacts.
Import ScanModels RuleEngine RuleSerialization.

(** the rule as an instance of the base classes *)
Definition plain_rule (r : Rule) : Rule :=
  OptimizedRuleEngine.set_conditions r
    {| path_pattern := path_pattern (conditions r);
       file_extensions := file_extensions (conditions r);
       min_size := min_size (conditions r); max_size := max_size (conditions r);
       name_pattern := name_pattern (conditions r); optimized := false |}.

Lemma plain_rule_base (r : Rule) : optimized (conditions r) = false -> plain_rule r = r.
Proof. destruct r as [i n [pp fe mn mx np o] lvl en d c]. cbn. now intros ->. Qed.

Lemma map_plain_rule_base (rs : list Rule) :
  Forall (fun r => optimized (conditions r) = false) rs -> map plain_rule rs = rs.
Proof.
  induction 1 as [| r rs Hr _ IH]; [reflexivity |].
  cbn [map]. now rewrite (plain_rule_base r Hr), IH.
Qed.

Lemma from_string_name (lvl : RiskLevel) : from_string (RiskLevel_name lvl) = Ok lvl.
Proof. now destruct lvl. Qed.

Section WithRegex.
Variable re : Regex.

(** the name pattern of the rule is one [re.compile] accepts, as it is for
    every rule that was constructed *)
Definition constructible (r : Rule) : Prop :=
  truthy (name_pattern (conditions r)) = true ->
  re_compiles re (pattern_of (name_pattern (conditions r))) = true.

Lemma from_dict_to_dict (r : Rule) :
  constructible r -> Rule_from_dict re (Rule_to_dict r) = Ok (plain_rule r).
Proof.
  intros Hc. unfold Rule_from_dict, Rule_to_dict, RuleConditions_from_dict,
    RuleConditions_to_dict, RuleConditions_init.
  cbn [d_id d_name d_description d_conditions d_risk_level d_enabled d_category
       d_path_pattern d_file_extensions d_min_size d_max_size d_name_pattern
       default from_option Datatypes.id].
  unfold constructible in Hc.
  destruct (truthy (name_pattern (conditions r))); cbn [andb].
  - rewrite (Hc eq_refl). cbn [negb]. now rewrite from_string_name.
  - now rewrite from_string_name.
Qed.

Lemma loaded_entries_cons (x : result Rule) (l : list (result Rule)) :
  loaded_entries (x :: l)
  = match x with
    | Ok r => r :: loaded_entries l
    | Raise _ => loaded_entries l
    end.
Proof. now destruct x. Qed.

Lemma loaded_round_trip (rs : list Rule) :
  Forall constructible rs ->
  loaded_entries (map (Rule_from_dict re) (map Rule_to_dict rs)) = map plain_rule rs.
Proof.
  induction 1 as [| r rs Hr _ IH]; [reflexivity |].
  cbn [map]. now rewrite loaded_entries_cons, (from_dict_to_dict r Hr), IH.
Qed.

(** X18.  Saving and loading gives the rules back.  [Rule.from_dict] undoes
    [Rule.to_dict] for every rule whose name pattern compiles, except that
    the result is an instance of the base classes; so [load_rules] on the
    file [save_rules] wrote restores the rule list in its order, exactly so
    when the rules were base-class rules.  [from_string] undoes [__str__]
    and accepts the name in any letter case. *)
Theorem save_then_load_restores_rules (e e0 : Engine) :
  Forall constructible (rules e) ->
  load_rules (config_file re (save_rules e)) e0
  = Ok {| rules := map plain_rule (rules e);
          rule_index := Some (RuleIndex_init (map plain_rule (rules e))) |}
  /\ (Forall (fun r => optimized (conditions r) = false) (rules e) ->
      load_rules (config_file re (save_rules e)) e0
      = Ok {| rules := rules e; rule_index := Some (RuleIndex_init (rules e)) |})
  /\ (forall r, In r (rules e) -> Rule_from_dict re (Rule_to_dict r) = Ok (plain_rule r))
  /\ (forall lvl, from_string (RiskLevel_name lvl) = Ok lvl)
  /\ (forall s lvl, upper s = RiskLevel_name lvl -> from_string s = Ok lvl).
Proof.
  intros Hall.
  assert (load_rules (config_file re (save_rules e)) e0
          = Ok {| rules := map plain_rule (rules e);
                  rule_index := Some (RuleIndex_init (map plain_rule (rules e))) |}) as H.
  { unfold load_rules, config_file, save_rules. now rewrite loaded_round_trip. }
  split; [exact H |]. split; [| split; [| split]].
  - intros Hbase. rewrite H. now rewrite (map_plain_rule_base (rules e) Hbase).
  - intros r Hin. apply from_dict_to_dict.
    rewrite List.Forall_forall in Hall. now apply Hall.
  - apply from_string_name.
  - intros s lvl Hs. unfold from_string. rewrite Hs. now destruct lvl.
Qed.

End WithRegex.

Lemma save_then_load_restores_rules_witness :
  load_rules (config_file Examples.no_regex (save_rules RuleEngineFacts.two_rules))
    Engine_init
  = Ok RuleEngineFacts.two_rules.
Proof.
  destruct (save_then_load_restores_rules Examples.no_regex RuleEngineFacts.two_rules
              Engine_init) as (_ & H & _).
  - repeat constructor; discriminate.
  - rewrite H; [reflexivity |]. repeat constructor.
Defined.

End RuleSerializationFacts.

(* ===================================================================== *)
(** * More of core/rule_engine_optimized.py: when the index is harmless,
      and the match cache *)
(* ===================================================================== *)

Module OptimizedRuleEngineMore.
Import ScanModels RuleEngine.

(** the rule [OptimizedRuleEngine.load_rules] leaves in place of [r] *)
Definition optimized_rule (r : Rule) : Rule :=
  OptimizedRuleEngine.set_conditions r
    {| path_pattern := path_pattern (conditions r);
       file_extensions := file_extensions (conditions r);
       min_size := min_size (conditions r); max_size := max_size (conditions r);
       name_pattern := name_pattern (conditions r); optimized := true |}.

(** [OptimizedRuleEngine.clear_cache] *)
Definition clear_cache (e : OptimizedRuleEngine.Engine) : OptimizedRuleEngine.Engine :=
  {| OptimizedRuleEngine.rules := OptimizedRuleEngine.rules e;
     OptimizedRuleEngine.rule_index := OptimizedRuleEngine.rule_index e;
     OptimizedRuleEngine.pattern_cache := OptimizedRuleEngine.pattern_cache e;
     OptimizedRuleEngine.match_cache := [];
     OptimizedRuleEngine.cache_size_limit := OptimizedRuleEngine.cache_size_limit e |}.

(** [add_rule], which the optimized engine inherits unchanged: the index it
    builds is a plain [RuleIndex] *)
Definition add_rule (e : OptimizedRuleEngine.Engine) (r : Rule)
    : OptimizedRuleEngine.Engine :=
  let rs := OptimizedRuleEngine.rules e ++ [r] in
  {| OptimizedRuleEngine.rules := rs;
     OptimizedRuleEngine.rule_index :=
       Some (OptimizedRuleEngine.BaseIndex (RuleIndex_init rs));
     OptimizedRuleEngine.pattern_cache := OptimizedRuleEngine.pattern_cache e;
     OptimizedRuleEngine.match_cache := OptimizedRuleEngine.match_cache e;
     OptimizedRuleEngine.cache_size_limit := OptimizedRuleEngine.cache_size_limit e |}.

Section WithRegex.
Variable re : Regex.

(** both patterns of the rule are accepted by [re.compile] *)
Definition compiles (r : Rule) : Prop :=
  (truthy (name_pattern (conditions r)) = true ->
   re_compiles re (pattern_of (name_pattern (conditions r))) = true)
  /\ (truthy (path_pattern (conditions r)) = true ->
      re_compiles re (wildcard_regex (pattern_of (path_pattern (conditions r)))) = true).

(** a rule as the configuration file gives it, which the optimized engine
    can take over *)
Definition plain (r : Rule) : Prop :=
  optimized (conditions r) = false /\ compiles r.

Lemma get_regex_ok (pc : OptimizedRuleEngine.PatternCache) (p : string) :
  re_compiles re p = true -> exists pc', OptimizedRuleEngine.get_regex re pc p = Ok pc'.
Proof.
  intros H. unfold OptimizedRuleEngine.get_regex.
  destruct (bool_decide _); [eauto |]. rewrite H. eauto.
Qed.

Lemma get_wildcard_pattern_ok (pc : OptimizedRuleEngine.PatternCache) (p : string) :
  re_compiles re (wildcard_regex p) = true ->
  exists pc', OptimizedRuleEngine.get_wildcard_pattern re pc p = Ok pc'.
Proof.
  intros H. unfold OptimizedRuleEngine.get_wildcard_pattern.
  destruct (bool_decide _); [eauto |]. rewrite H. eauto.
Qed.

Lemma optimize_rules_ok (rs : list Rule) :
  Forall compiles rs ->
  forall pc, exists pc',
    OptimizedRuleEngine.optimize_rules re pc rs = Ok (map optimized_rule rs, pc').
Proof.
  induction 1 as [| r rs [Hname Hpath] _ IH]; intros pc; cbn [OptimizedRuleEngine.optimize_rules map].
  - eauto.
  - unfold OptimizedRuleEngine.optimize_conditions.
    assert (exists pc1,
               (if truthy (name_pattern (conditions r))
                then if re_compiles re (pattern_of (name_pattern (conditions r)))
                     then OptimizedRuleEngine.get_regex re pc
                            (pattern_of (name_pattern (conditions r)))
                     else Raise "ValueError: Invalid regex pattern"
                else Ok pc) = Ok pc1) as (pc1 & ->).
    { destruct (truthy (name_pattern (conditions r))); [| eauto].
      rewrite (Hname eq_refl). apply get_regex_ok. exact (Hname eq_refl). }
    assert (exists pc2,
               (if truthy (path_pattern (conditions r))
                then OptimizedRuleEngine.get_wildcard_pattern re pc1
                       (pattern_of (path_pattern (conditions r)))
                else Ok pc1) = Ok pc2) as (pc2 & ->).
    { destruct (truthy (path_pattern (conditions r))); [| eauto].
      apply get_wildcard_pattern_ok. exact (Hpath eq_refl). }
    destruct (IH pc2) as (pc' & ->). eauto.
Qed.

(** compiling the patterns ahead changes no verdict *)
Lemma optimized_rule_matches (r : Rule) (f : FileInfo) :
  plain r -> rule_matches re (optimized_rule r) f = rule_matches re r f.
Proof.
  intros (Hbase & _ & Hpath). unfold rule_matches, conditions_matches.
  cbn [optimized_rule OptimizedRuleEngine.set_conditions enabled conditions optimized].
  rewrite Hbase. destruct (enabled r); cbn [negb]; [| reflexivity].
  unfold optimized_matches, base_matches, _match_path_pattern, extension_listed,
    below_min, above_max.
  cbn [path_pattern file_extensions min_size max_size name_pattern].
  destruct (truthy (path_pattern (conditions r))) eqn:Ep; cbn [negb andb].
  - rewrite (Hpath eq_refl).
    destruct (re_match re _ _); cbn [negb];
      destruct (nonempty _ && negb _); reflexivity.
  - reflexivity.
Qed.

(** the first rule of a list that matches the file *)
Definition first_match (l : list Rule) (f : FileInfo) : option Rule :=
  List.find (fun r => rule_matches re r f) l.

Definition answer (o : option Rule) (f : FileInfo) : RuleMatch :=
  match o with
  | Some r => matched_by r f
  | None => unmatched f
  end.

Lemma match_loop_find (l : list Rule) (f : FileInfo) :
  match_loop re l f = answer (first_match l f) f.
Proof.
  induction l as [| r l IH]; cbn [match_loop first_match List.find]; [reflexivity |].
  destruct (rule_matches re r f); [reflexivity | exact IH].
Qed.

Lemma candidate_loop_find (l : list Rule) (f : FileInfo) :
  OptimizedRuleEngine.candidate_loop re l f = answer (first_match l f) f.
Proof.
  induction l as [| r l IH];
    cbn [OptimizedRuleEngine.candidate_loop first_match List.find]; [reflexivity |].
  destruct (enabled r) eqn:E; cbn [negb].
  - destruct (rule_matches re r f); [reflexivity | exact IH].
  - assert (rule_matches re r f = false) as ->
      by (unfold rule_matches; now rewrite E).
    exact IH.
Qed.

End WithRegex.

(* --------------------------------------------------------------------- *)
(** ** The extension index *)

(** the copies of [r] that [ExtensionIndex.add_rule] appends under the key
    [k]: one for each listed extension that lower-cases to [k] *)
Definition listed_times (k : string) (r : Rule) : list Rule :=
  flat_map (fun ext => if String.eqb (PyStr.lower ext) k then [r] else [])
           (file_extensions (conditions r)).

Lemma add_extensions_lookup (r : Rule) (exts : list string) :
  forall (m : gmap string (list Rule)) (k : string),
    default []
      (fold_left (fun m ext => <[PyStr.lower ext
                                 := default [] (m !! PyStr.lower ext) ++ [r]]> m)
                 exts m !! k)
    = default [] (m !! k)
      ++ flat_map (fun ext => if String.eqb (PyStr.lower ext) k then [r] else []) exts.
Proof.
  induction exts as [| ext exts IH]; intros m k; cbn [fold_left flat_map].
  - now rewrite app_nil_r.
  - rewrite IH. destruct (String.eqb (PyStr.lower ext) k) eqn:E.
    + apply String.eqb_eq in E. subst k. rewrite lookup_insert_eq. cbn.
      now rewrite <- app_assoc.
    + apply String.eqb_neq in E. now rewrite lookup_insert_ne.
Qed.

Lemma add_rule_lookup (ix : OptimizedRuleEngine.ExtensionIndex) (r : Rule) (k : string) :
  default [] (OptimizedRuleEngine.rules_by_extension
                (OptimizedRuleEngine.ExtensionIndex_add_rule ix r) !! k)
  = default [] (OptimizedRuleEngine.rules_by_extension ix !! k) ++ listed_times k r.
Proof.
  unfold OptimizedRuleEngine.ExtensionIndex_add_rule, listed_times.
  destruct (file_extensions (conditions r)) as [| ext exts] eqn:E.
  - cbn. now rewrite app_nil_r.
  - cbn [OptimizedRuleEngine.rules_by_extension]. apply add_extensions_lookup.
Qed.

Lemma extension_index_lookup (rs : list Rule) :
  forall (ix : OptimizedRuleEngine.ExtensionIndex) (k : string),
    default [] (OptimizedRuleEngine.rules_by_extension
                  (fold_left OptimizedRuleEngine.ExtensionIndex_add_rule rs ix) !! k)
    = default [] (OptimizedRuleEngine.rules_by_extension ix !! k)
      ++ flat_map (listed_times k) rs.
Proof.
  induction rs as [| r rs IH]; intros ix k; cbn [fold_left flat_map].
  - now rewrite app_nil_r.
  - now rewrite IH, add_rule_lookup, <- app_assoc.
Qed.

Lemma opt_index_fold (rs : list Rule) :
  forall ix : OptimizedRuleEngine.OptimizedRuleIndex,
    OptimizedRuleEngine.ix_enabled_rules
      (fold_left OptimizedRuleEngine.opt_index_rule rs ix)
    = OptimizedRuleEngine.ix_enabled_rules ix ++ List.filter enabled rs
    /\ OptimizedRuleEngine.extension_index
         (fold_left OptimizedRuleEngine.opt_index_rule rs ix)
       = fold_left OptimizedRuleEngine.ExtensionIndex_add_rule rs
           (OptimizedRuleEngine.extension_index ix).
Proof.
  induction rs as [| r rs IH]; intros ix; cbn [fold_left List.filter].
  - now rewrite app_nil_r.
  - destruct (IH (OptimizedRuleEngine.opt_index_rule ix r)) as [-> ->].
    cbn [OptimizedRuleEngine.opt_index_rule OptimizedRuleEngine.ix_enabled_rules
         OptimizedRuleEngine.extension_index].
    split; [| reflexivity].
    destruct (enabled r); [now rewrite <- app_assoc | reflexivity].
Qed.

Lemma find_copies {A} (p : A -> bool) (a : A) (copies rest : list A) :
  copies <> [] -> Forall (eq a) copies ->
  List.find p (copies ++ rest) = if p a then Some a else List.find p rest.
Proof.
  intros Hne Hall. induction Hall as [| x copies <- Hall IH]; [congruence |].
  cbn [app List.find]. destruct (p a) eqn:E; [reflexivity |].
  destruct copies as [| y copies]; [reflexivity |].
  rewrite IH by discriminate. reflexivity.
Qed.

Lemma listed_times_copies (k : string) (r : Rule) :
  Forall (eq r) (listed_times k r)
  /\ (listed_times k r = [] <->
      PyStr.mem k (map PyStr.lower (file_extensions (conditions r))) = false).
Proof.
  unfold listed_times, PyStr.mem.
  induction (file_extensions (conditions r)) as [| ext exts [IHall IHnil]];
    cbn [flat_map map existsb].
  - split; [constructor | tauto].
  - rewrite (String.eqb_sym k (PyStr.lower ext)).
    destruct (String.eqb (PyStr.lower ext) k); cbn [app orb].
    + split; [now constructor | split; discriminate].
    + split; assumption.
Qed.

Lemma find_listed {p : Rule -> bool} (k : string) (rs : list Rule) :
  List.find p (flat_map (listed_times k) rs)
  = List.find p (List.filter
                   (fun r => PyStr.mem k (map PyStr.lower (file_extensions (conditions r))))
                   rs).
Proof.
  induction rs as [| r rs IH]; cbn [flat_map List.filter]; [reflexivity |].
  destruct (listed_times_copies k r) as [Hall Hnil].
  destruct (PyStr.mem k _) eqn:E.
  - assert (listed_times k r <> []) as Hne
      by (intros H; apply Hnil in H; discriminate H).
    rewrite (find_copies p r _ _ Hne Hall). cbn [List.find]. now rewrite IH.
  - rewrite (proj2 Hnil eq_refl). exact IH.
Qed.

Lemma find_filter_implied {A} (p q : A -> bool) (l : list A) :
  (forall a, In a l -> p a = true -> q a = true) ->
  List.find p (List.filter q l) = List.find p l.
Proof.
  intros H. induction l as [| a l IH]; cbn [List.filter List.find]; [reflexivity |].
  assert (List.find p (List.filter q l) = List.find p l) as IH'
    by (apply IH; intros b Hb; apply H; now right).
  destruct (q a) eqn:Eq; cbn [List.find].
  - now rewrite IH'.
  - destruct (p a) eqn:Ep; [| exact IH'].
    rewrite (H a (or_introl eq_refl) Ep) in Eq. discriminate.
Qed.

Lemma flat_map_nil_filter (k : string) (rs : list Rule) :
  flat_map (listed_times k) rs = [] ->
  List.filter (fun r => PyStr.mem k (map PyStr.lower (file_extensions (conditions r)))) rs
  = [].
Proof.
  induction rs as [| r rs IH]; cbn [flat_map List.filter]; [reflexivity |].
  intros H. apply app_eq_nil in H as [H1 H2].
  rewrite (proj1 (proj2 (listed_times_copies k r)) H1). now apply IH.
Qed.

Section Agreement.
Variable re : Regex.

(** a rule the index cannot hide: disabled, or with an extension list *)
Definition indexed (r : Rule) : Prop :=
  enabled r = true -> file_extensions (conditions r) <> [].

Lemma matching_rule_is_listed (r : Rule) (f : FileInfo) :
  indexed r -> optimized (conditions r) = true ->
  rule_matches re r f = true ->
  PyStr.mem (PyStr.lower (ScanModels.file_extension f))
            (map PyStr.lower (file_extensions (conditions r))) = true.
Proof.
  intros Hix Hopt. unfold indexed in Hix.
  unfold rule_matches, conditions_matches. rewrite Hopt.
  destruct (enabled r); cbn [negb]; [| discriminate].
  unfold optimized_matches, extension_listed.
  destruct (file_extensions (conditions r)) as [| ext exts] eqn:E.
  - now contradiction (Hix eq_refl).
  - cbn [nonempty andb]. destruct (PyStr.mem _ _); [reflexivity | discriminate].
Qed.

(** the candidates the optimized [match_file] walks through give the same
    first match as the whole rule list *)
Lemma candidates_first_match (rs : list Rule) (f : FileInfo) :
  Forall (fun r => indexed r /\ optimized (conditions r) = true) rs ->
  let ix := OptimizedRuleEngine.OptimizedRuleIndex_init rs in
  let by_ext := OptimizedRuleEngine.ExtensionIndex_get_rules
                  (OptimizedRuleEngine.extension_index ix)
                  (ScanModels.file_extension f) in
  first_match re (match by_ext with
                  | [] => OptimizedRuleEngine.ix_enabled_rules ix
                  | _ => by_ext
                  end) f
  = first_match re rs f.
Proof.
  intros Hall. cbv zeta. unfold OptimizedRuleEngine.OptimizedRuleIndex_init.
  destruct (opt_index_fold rs
              {| OptimizedRuleEngine.ix_rules := rs;
                 OptimizedRuleEngine.ix_enabled_rules := [];
                 OptimizedRuleEngine.extension_index :=
                   OptimizedRuleEngine.ExtensionIndex_init;
                 OptimizedRuleEngine.ix_rules_by_risk := fun _ => [] |}) as [-> ->].
  unfold OptimizedRuleEngine.ExtensionIndex_get_rules.
  rewrite extension_index_lookup.
  cbn [OptimizedRuleEngine.ix_enabled_rules OptimizedRuleEngine.extension_index
       OptimizedRuleEngine.ExtensionIndex_init OptimizedRuleEngine.rules_by_extension app].
  rewrite lookup_empty. cbn [default app].
  destruct (flat_map _ rs) as [| c cs] eqn:E.
  - unfold first_match. apply find_filter_implied.
    intros r _. apply RuleEngineFacts.rule_matches_enabled.
  - rewrite <- E. unfold first_match. rewrite find_listed.
    apply find_filter_implied. intros r Hin Hm.
    rewrite List.Forall_forall in Hall. destruct (Hall r Hin) as [Hix Hopt].
    now apply (matching_rule_is_listed r f).
Qed.

Lemma first_match_optimized (rs : list Rule) (f : FileInfo) :
  Forall (plain re) rs ->
  first_match re (map optimized_rule rs) f = option_map optimized_rule (first_match re rs f).
Proof.
  induction 1 as [| r rs Hr _ IH]; cbn [map first_match List.find]; [reflexivity |].
  rewrite (optimized_rule_matches re r f Hr).
  destruct (rule_matches re r f); [reflexivity | exact IH].
Qed.

Lemma verdict_answer_optimized (o : option Rule) (f : FileInfo) :
  OptimizedRuleEngineFacts.verdict (answer (option_map optimized_rule o) f)
  = OptimizedRuleEngineFacts.verdict (answer o f).
Proof. destruct o; reflexivity. Qed.

(** both engines, loaded from a configuration that yields the rules [rs] *)
Lemma verdicts_agree (cfg : ConfigFile) (rs : list Rule) (f : FileInfo) :
  RuleEngine.load_rules cfg RuleEngine.Engine_init
  = Ok {| RuleEngine.rules := rs; RuleEngine.rule_index := Some (RuleIndex_init rs) |} ->
  rs <> [] ->
  Forall (fun r => plain re r /\ indexed r) rs ->
  OptimizedRuleEngineFacts.baseline_verdict re cfg f
  = Ok (OptimizedRuleEngineFacts.verdict (match_loop re rs f))
  /\ OptimizedRuleEngineFacts.optimized_verdict re cfg f
     = Ok (OptimizedRuleEngineFacts.verdict (match_loop re rs f)).
Proof.
  intros Hload Hne Hall. split.
  - unfold OptimizedRuleEngineFacts.baseline_verdict. rewrite Hload.
    now rewrite (RuleEngineFacts.match_file_loaded re cfg
                   {| RuleEngine.rules := rs;
                      RuleEngine.rule_index := Some (RuleIndex_init rs) |} f eq_refl).
  - unfold OptimizedRuleEngineFacts.optimized_verdict, OptimizedRuleEngine.load_rules.
    cbn [OptimizedRuleEngine.Engine_init OptimizedRuleEngine.rules].
    change {| RuleEngine.rules := []; RuleEngine.rule_index := None |}
      with RuleEngine.Engine_init.
    rewrite Hload. cbn [RuleEngine.rules].
    assert (Forall (compiles re) rs) as Hcomp.
    { eapply Forall_impl; [exact Hall |]. cbn. intros r [[_ Hc] _]. exact Hc. }
    destruct (optimize_rules_ok re rs Hcomp
                (OptimizedRuleEngine.pattern_cache OptimizedRuleEngine.Engine_init))
      as (pc' & Hopt).
    destruct rs as [| r0 rest]; [congruence |].
    cbv beta iota. set (rs := r0 :: rest) in *.
    rewrite Hopt. unfold OptimizedRuleEngine.match_file.
    cbn [OptimizedRuleEngine.rule_index OptimizedRuleEngine.match_cache
         OptimizedRuleEngine.cache_lookup].
    cbv zeta. rewrite candidate_loop_find.
    rewrite (candidates_first_match (map optimized_rule rs) f).
    + unfold OptimizedRuleEngine.Engine_init.
      cbn [OptimizedRuleEngine.match_cache OptimizedRuleEngine.cache_lookup].
      rewrite first_match_optimized, verdict_answer_optimized, match_loop_find;
        [reflexivity |].
      eapply Forall_impl; [exact Hall |]. cbn. intros r [Hp _]. exact Hp.
    + apply Forall_map. eapply Forall_impl; [exact Hall |]. cbn.
      intros r [_ Hix]. split; [exact Hix | reflexivity].
Qed.

(** X19.  Where the extension index is harmless.  When the configuration
    yields at least one rule, every rule's patterns compile, and every
    enabled rule has an extension list, the optimized engine, loaded and
    asked for the first time, reports the same verdict (matched or not, and
    the id of the rule) as the baseline engine, namely that of the first
    matching rule in configured order.  The built-in default rules are such
    a list. *)
Theorem optimized_agrees_when_rules_list_extensions (entries : list (result Rule))
    (f : FileInfo) :
  loaded_entries entries <> [] ->
  Forall (fun r => plain re r /\ indexed r) (loaded_entries entries) ->
  OptimizedRuleEngineFacts.optimized_verdict re (Parsed entries) f
  = OptimizedRuleEngineFacts.baseline_verdict re (Parsed entries) f
  /\ OptimizedRuleEngineFacts.baseline_verdict re (Parsed entries) f
     = Ok (OptimizedRuleEngineFacts.verdict (match_loop re (loaded_entries entries) f))
  /\ OptimizedRuleEngineFacts.optimized_verdict re Missing f
     = OptimizedRuleEngineFacts.baseline_verdict re Missing f.
Proof.
  intros Hne Hall.
  destruct (verdicts_agree (Parsed entries) (loaded_entries entries) f eq_refl Hne Hall)
    as [Hb Ho].
  split; [now rewrite Hb, Ho |]. split; [exact Hb |].
  destruct (verdicts_agree Missing default_rules f eq_refl) as [Hb' Ho'].
  - discriminate.
  - repeat constructor; cbn; discriminate.
  - now rewrite Hb', Ho'.
Qed.

End Agreement.

Lemma optimized_agrees_when_rules_list_extensions_witness :
  let f := Examples.file "C:\Temp\a.tmp" 10 in
  let entries := [Ok OptimizedRuleEngineFacts.big_tmp_files;
                  Ok OptimizedRuleEngineFacts.tmp_files] in
  OptimizedRuleEngineFacts.optimized_verdict Examples.no_regex (Parsed entries) f
  = OptimizedRuleEngineFacts.baseline_verdict Examples.no_regex (Parsed entries) f
  /\ OptimizedRuleEngineFacts.baseline_verdict Examples.no_regex (Parsed entries) f
     = Ok (OptimizedRuleEngineFacts.verdict
             (match_loop Examples.no_regex (loaded_entries entries) f))
  /\ OptimizedRuleEngineFacts.optimized_verdict Examples.no_regex Missing f
     = OptimizedRuleEngineFacts.baseline_verdict Examples.no_regex Missing f.
Proof.
  cbv zeta.
  apply (optimized_agrees_when_rules_list_extensions Examples.no_regex
           [Ok OptimizedRuleEngineFacts.big_tmp_files;
            Ok OptimizedRuleEngineFacts.tmp_files]
           (Examples.file "C:\Temp\a.tmp" 10)).
  - discriminate.
  - repeat constructor; cbn; discriminate.
Defined.

(* --------------------------------------------------------------------- *)
(** ** The match cache *)

Lemma cache_lookup_store (c : list (string * RuleMatch)) (key : string) (m : RuleMatch) :
  OptimizedRuleEngine.cache_lookup (OptimizedRuleEngine.cache_store c key m) key = Some m.
Proof.
  induction c as [| [k v] c IH];
    cbn [OptimizedRuleEngine.cache_store OptimizedRuleEngine.cache_lookup].
  - now rewrite String.eqb_refl.
  - destruct (String.eqb k key) eqn:E; cbn [OptimizedRuleEngine.cache_lookup]; rewrite E;
      [reflexivity | exact IH].
Qed.

Lemma cache_lookup_store_other (c : list (string * RuleMatch)) (key k : string)
    (m : RuleMatch) :
  k <> key ->
  OptimizedRuleEngine.cache_lookup (OptimizedRuleEngine.cache_store c key m) k
  = OptimizedRuleEngine.cache_lookup c k.
Proof.
  intros Hk. induction c as [| [k' v] c IH];
    cbn [OptimizedRuleEngine.cache_store OptimizedRuleEngine.cache_lookup].
  - now rewrite (proj2 (String.eqb_neq key k)) by congruence.
  - destruct (String.eqb k' key) eqn:E; cbn [OptimizedRuleEngine.cache_lookup].
    + apply String.eqb_eq in E. subst k'.
      now rewrite (proj2 (String.eqb_neq key k)) by congruence.
    + destruct (String.eqb k' k); [reflexivity | exact IH].
Qed.

Lemma cache_store_length (c : list (string * RuleMatch)) (key : string) (m : RuleMatch) :
  (length (OptimizedRuleEngine.cache_store c key m) <= S (length c))%nat.
Proof.
  induction c as [| [k v] c IH]; cbn [OptimizedRuleEngine.cache_store length]; [lia |].
  destruct (String.eqb k key); cbn [length]; lia.
Qed.

Lemma cache_store_new (c : list (string * RuleMatch)) (key : string) (m : RuleMatch) :
  OptimizedRuleEngine.cache_lookup c key = None ->
  OptimizedRuleEngine.cache_store c key m = c ++ [(key, m)].
Proof.
  induction c as [| [k v] c IH];
    cbn [OptimizedRuleEngine.cache_lookup OptimizedRuleEngine.cache_store app];
    [reflexivity |].
  destruct (String.eqb k key); [discriminate |]. intros H. now rewrite IH.
Qed.

Lemma cache_lookup_tail_none (c : list (string * RuleMatch)) (key : string) :
  OptimizedRuleEngine.cache_lookup c key = None ->
  OptimizedRuleEngine.cache_lookup (tail c) key = None.
Proof.
  destruct c as [| [k v] c]; cbn [tail OptimizedRuleEngine.cache_lookup]; [auto |].
  now destruct (String.eqb k key).
Qed.

Lemma cache_lookup_key (c : list (string * RuleMatch)) (k : string) (m : RuleMatch) :
  OptimizedRuleEngine.cache_lookup c k = Some m -> In k (map fst c).
Proof.
  induction c as [| [k1 v1] c IH]; cbn [map fst OptimizedRuleEngine.cache_lookup];
    [discriminate |].
  destruct (String.eqb k1 k) eqn:E.
  - apply String.eqb_eq in E. now left.
  - intros H. right. now apply IH.
Qed.

Lemma cache_lookup_tail (c : list (string * RuleMatch)) (k : string) (m : RuleMatch) :
  List.NoDup (map fst c) ->
  OptimizedRuleEngine.cache_lookup (tail c) k = Some m ->
  OptimizedRuleEngine.cache_lookup c k = Some m.
Proof.
  destruct c as [| [k' v] c]; cbn [tail map fst OptimizedRuleEngine.cache_lookup];
    [auto |].
  intros Hnd H. destruct (String.eqb k' k) eqn:E; [| exact H].
  apply String.eqb_eq in E. subst k'. exfalso.
  apply List.NoDup_cons_iff in Hnd as [Hnin _]. apply Hnin.
  now apply (cache_lookup_key c k m).
Qed.

Lemma cache_store_key_in (c : list (string * RuleMatch)) (key k : string)
    (m : RuleMatch) :
  In k (map fst (OptimizedRuleEngine.cache_store c key m)) -> k = key \/ In k (map fst c).
Proof.
  induction c as [| [k1 v1] c IH]; cbn [OptimizedRuleEngine.cache_store map fst].
  - intros [<- | []]. now left.
  - destruct (String.eqb k1 key); cbn [map fst]; [now right |].
    intros [<- | Hin]; [right; now left |].
    destruct (IH Hin) as [-> | H]; [now left | right; now right].
Qed.

Lemma cache_store_keys (c : list (string * RuleMatch)) (key : string) (m : RuleMatch) :
  List.NoDup (map fst c) -> List.NoDup (map fst (OptimizedRuleEngine.cache_store c key m)).
Proof.
  intros Hnd. induction c as [| [k v] c IH];
    cbn [OptimizedRuleEngine.cache_store map fst] in *.
  - constructor; [intros [] | constructor].
  - apply List.NoDup_cons_iff in Hnd as [Hnin Hnd].
    destruct (String.eqb k key) eqn:E; cbn [map fst].
    + constructor; assumption.
    + constructor; [| now apply IH].
      intros Hin. apply String.eqb_neq in E.
      destruct (cache_store_key_in c key k m Hin) as [-> | H]; [congruence | auto].
Qed.

Section Cache.
Variable re : Regex.

Lemma load_rules_indexed (cfg : ConfigFile) (e e' : OptimizedRuleEngine.Engine) :
  OptimizedRuleEngine.load_rules re cfg e = Ok e' ->
  OptimizedRuleEngine.rule_index e' <> None
  /\ OptimizedRuleEngine.match_cache e' = OptimizedRuleEngine.match_cache e
  /\ OptimizedRuleEngine.cache_size_limit e' = OptimizedRuleEngine.cache_size_limit e.
Proof.
  unfold OptimizedRuleEngine.load_rules.
  destruct (RuleEngine.load_rules cfg _) as [b |] eqn:Eb; [| discriminate].
  pose proof (RuleEngineFacts.load_rules_loaded cfg _ b Eb) as Hb.
  destruct (RuleEngine.rules b) as [| r rs].
  - intros H. inversion H; subst e'. cbn. rewrite Hb. cbn. repeat split. discriminate.
  - destruct (OptimizedRuleEngine.optimize_rules re _ _) as [[rs' pc] |]; [| discriminate].
    intros H. inversion H; subst e'. cbn. repeat split. discriminate.
Qed.

(** the engine [match_file] works on after its first two lines *)
Lemma match_file_loaded_engine (cfg : ConfigFile) (e : OptimizedRuleEngine.Engine)
    (f : FileInfo) (m : RuleMatch) (e1 : OptimizedRuleEngine.Engine) :
  OptimizedRuleEngine.match_file re cfg e f = Ok (m, e1) ->
  exists e',
    OptimizedRuleEngine.rule_index e' <> None
    /\ OptimizedRuleEngine.match_cache e' = OptimizedRuleEngine.match_cache e
    /\ OptimizedRuleEngine.cache_size_limit e' = OptimizedRuleEngine.cache_size_limit e
    /\ OptimizedRuleEngine.match_file re cfg e' f = Ok (m, e1)
    /\ ((OptimizedRuleEngine.cache_lookup (OptimizedRuleEngine.match_cache e')
           (Pathlib.to_string (ScanModels.path f)) = Some m /\ e1 = e')
        \/ (OptimizedRuleEngine.cache_lookup (OptimizedRuleEngine.match_cache e')
              (Pathlib.to_string (ScanModels.path f)) = None
            /\ file_info m = f
            /\ e1 = OptimizedRuleEngine._cache_match e'
                      (Pathlib.to_string (ScanModels.path f)) m)).
Proof.
  intros H.
  assert (exists e',
             (match OptimizedRuleEngine.rule_index e with
              | Some _ => Ok e
              | None => OptimizedRuleEngine.load_rules re cfg e
              end) = Ok e'
             /\ OptimizedRuleEngine.rule_index e' <> None
             /\ OptimizedRuleEngine.match_cache e' = OptimizedRuleEngine.match_cache e
             /\ OptimizedRuleEngine.cache_size_limit e'
                = OptimizedRuleEngine.cache_size_limit e) as (e' & Hl & Hix & Hc & Hlim).
  { unfold OptimizedRuleEngine.match_file in H.
    destruct (OptimizedRuleEngine.rule_index e) eqn:Ei.
    - exists e. rewrite Ei. repeat split. discriminate.
    - destruct (OptimizedRuleEngine.load_rules re cfg e) as [e' |] eqn:El; [| discriminate].
      exists e'. split; [reflexivity |]. now apply (load_rules_indexed cfg e e'). }
  exists e'. split; [assumption |]. split; [assumption |]. split; [assumption |].
  assert (OptimizedRuleEngine.match_file re cfg e' f
          = OptimizedRuleEngine.match_file re cfg e f) as Heq.
  { unfold OptimizedRuleEngine.match_file. rewrite Hl. cbv beta iota zeta.
    destruct (OptimizedRuleEngine.rule_index e') eqn:Ei; [| congruence].
    now rewrite Ei. }
  split; [now rewrite Heq |].
  unfold OptimizedRuleEngine.match_file in H. rewrite Hl in H.
  destruct (OptimizedRuleEngine.rule_index e') as [ix |] eqn:Ei; [| congruence].
  cbv beta iota zeta in H.
  destruct (OptimizedRuleEngine.cache_lookup _ _) as [m0 |] eqn:Ec.
  - left. inversion H; subst. auto.
  - right. destruct ix as [ix | ix]; [discriminate |].
    inversion H; subst. split; [reflexivity |]. split; [| reflexivity].
    rewrite candidate_loop_find. now destruct (first_match _ _ _).
Qed.

Lemma match_file_hit (cfg : ConfigFile) (e : OptimizedRuleEngine.Engine) (g : FileInfo)
    (m : RuleMatch) :
  OptimizedRuleEngine.rule_index e <> None ->
  OptimizedRuleEngine.cache_lookup (OptimizedRuleEngine.match_cache e)
    (Pathlib.to_string (ScanModels.path g)) = Some m ->
  OptimizedRuleEngine.match_file re cfg e g = Ok (m, e).
Proof.
  intros Hix Hhit. unfold OptimizedRuleEngine.match_file.
  destruct (OptimizedRuleEngine.rule_index e) eqn:Ei; [| congruence].
  cbv beta iota zeta. now rewrite Hhit.
Qed.

(** X20.  The optimized engine remembers its answers by the text of the
    path alone.  Once [match_file] has answered for a file, every later
    call for a file with the same path string returns that very answer,
    whatever the size or extension of the file now given (the answer still
    carries the file first asked about), and leaves the engine as it is.
    [clear_cache] empties the cache. *)
Theorem match_file_answers_from_cache (cfg : ConfigFile) (e : OptimizedRuleEngine.Engine)
    (f : FileInfo) (m : RuleMatch) (e1 : OptimizedRuleEngine.Engine) :
  OptimizedRuleEngine.match_file re cfg e f = Ok (m, e1) ->
  (forall g,
      Pathlib.to_string (ScanModels.path g) = Pathlib.to_string (ScanModels.path f) ->
      OptimizedRuleEngine.match_file re cfg e1 g = Ok (m, e1))
  /\ (OptimizedRuleEngine.cache_lookup (OptimizedRuleEngine.match_cache e)
        (Pathlib.to_string (ScanModels.path f)) = None -> file_info m = f)
  /\ OptimizedRuleEngine.match_cache (clear_cache e1) = [].
Proof.
  intros H.
  destruct (match_file_loaded_engine cfg e f m e1 H)
    as (e' & Hix & Hc & _ & _ & [[Hhit ->] | (Hmiss & Hfile & ->)]).
  - split; [| split; [| reflexivity]].
    + intros g Hg. apply match_file_hit; [assumption |]. now rewrite Hg.
    + intros Hnone. rewrite <- Hc in Hnone. congruence.
  - split; [| split; [| reflexivity]].
    + intros g Hg. apply match_file_hit; [assumption |].
      cbn [OptimizedRuleEngine._cache_match OptimizedRuleEngine.match_cache].
      rewrite Hg. apply cache_lookup_store.
    + intros _. exact Hfile.
Qed.

(** the cache holds each path once and no more entries than its limit *)
Definition cache_in_bounds (e : OptimizedRuleEngine.Engine) : Prop :=
  List.NoDup (map fst (OptimizedRuleEngine.match_cache e))
  /\ (N.of_nat (length (OptimizedRuleEngine.match_cache e))
      <= OptimizedRuleEngine.cache_size_limit e)%N.

(** X21.  The match cache stays within its limit and is first in, first
    out.  If it holds each path once and at most [cache_size_limit] entries
    (the limit being at least one, as the 10000 of a new engine is), the
    same is true after any [match_file]; an answer found in the cache
    afterwards is the one returned by this call or was there before,
    unchanged; below the limit nothing is dropped; and a new answer goes to
    the end of the cache, after the oldest entry has been dropped if the
    cache was at its limit. *)
Theorem match_cache_stays_in_bounds (cfg : ConfigFile) (e : OptimizedRuleEngine.Engine)
    (f : FileInfo) (m : RuleMatch) (e1 : OptimizedRuleEngine.Engine) :
  cache_in_bounds e ->
  (1 <= OptimizedRuleEngine.cache_size_limit e)%N ->
  OptimizedRuleEngine.match_file re cfg e f = Ok (m, e1) ->
  cache_in_bounds e1
  /\ OptimizedRuleEngine.cache_size_limit e1 = OptimizedRuleEngine.cache_size_limit e
  /\ (forall k m0,
        OptimizedRuleEngine.cache_lookup (OptimizedRuleEngine.match_cache e1) k = Some m0 ->
        OptimizedRuleEngine.cache_lookup (OptimizedRuleEngine.match_cache e) k = Some m0
        \/ (k = Pathlib.to_string (ScanModels.path f) /\ m0 = m))
  /\ ((N.of_nat (length (OptimizedRuleEngine.match_cache e))
       < OptimizedRuleEngine.cache_size_limit e)%N ->
      forall k m0,
        OptimizedRuleEngine.cache_lookup (OptimizedRuleEngine.match_cache e) k = Some m0 ->
        OptimizedRuleEngine.cache_lookup (OptimizedRuleEngine.match_cache e1) k = Some m0)
  /\ (OptimizedRuleEngine.cache_lookup (OptimizedRuleEngine.match_cache e)
        (Pathlib.to_string (ScanModels.path f)) = None ->
      OptimizedRuleEngine.match_cache e1
      = (if (OptimizedRuleEngine.cache_size_limit e
             <=? N.of_nat (length (OptimizedRuleEngine.match_cache e)))%N
         then tail (OptimizedRuleEngine.match_cache e)
         else OptimizedRuleEngine.match_cache e)
        ++ [(Pathlib.to_string (ScanModels.path f), m)]).
Proof.
  intros [Hnd Hlen] Hlim H.
  destruct (match_file_loaded_engine cfg e f m e1 H)
    as (e' & _ & Hc & Hl & _ & [[Hhit ->] | (Hmiss & _ & ->)]).
  - unfold cache_in_bounds. rewrite Hc, Hl.
    split; [split; assumption |]. split; [reflexivity |]. split; [auto |].
    split; [auto |]. intros Hnone. rewrite Hc in Hhit. congruence.
  - unfold cache_in_bounds.
    cbn [OptimizedRuleEngine._cache_match OptimizedRuleEngine.match_cache
         OptimizedRuleEngine.cache_size_limit].
    rewrite Hc in *. rewrite Hl in *.
    set (key := Pathlib.to_string (ScanModels.path f)) in *.
    set (c := OptimizedRuleEngine.match_cache e) in *.
    set (limit := OptimizedRuleEngine.cache_size_limit e) in *.
    pose proof (cache_store_length c key m) as Hs1.
    pose proof (cache_store_length (tail c) key m) as Hs2.
    assert (List.NoDup (map fst (tail c))) as Hndt.
    { destruct c as [| [k v] c']; [exact Hnd |]. cbn [tail].
      cbn [map fst] in Hnd. now apply List.NoDup_cons_iff in Hnd as [_ Hnd]. }
    assert (length (tail c) = pred (length c)) as Htl by (now destruct c).
    destruct (N.leb_spec limit (N.of_nat (length c))) as [Hfull | Hroom].
    + split; [split; [now apply cache_store_keys | lia] |].
      split; [reflexivity |]. split; [| split; [lia |]].
      * intros k m0 Hk. destruct (String.eqb k key) eqn:E.
        -- apply String.eqb_eq in E. subst k. rewrite cache_lookup_store in Hk.
           right. split; [reflexivity | congruence].
        -- apply String.eqb_neq in E.
           rewrite cache_lookup_store_other in Hk by assumption.
           left. now apply cache_lookup_tail.
      * intros _. apply cache_store_new. now apply cache_lookup_tail_none.
    + split; [split; [now apply cache_store_keys | lia] |].
      split; [reflexivity |]. split; [| split].
      * intros k m0 Hk. destruct (String.eqb k key) eqn:E.
        -- apply String.eqb_eq in E. subst k. rewrite cache_lookup_store in Hk.
           right. split; [reflexivity | congruence].
        -- apply String.eqb_neq in E.
           rewrite cache_lookup_store_other in Hk by assumption. now left.
      * intros _ k m0 Hk. destruct (String.eqb k key) eqn:E.
        -- apply String.eqb_eq in E. subst k. congruence.
        -- apply String.eqb_neq in E.
           now rewrite cache_lookup_store_other by assumption.
      * intros _. now apply cache_store_new.
Qed.

(** X22.  [add_rule] leaves the optimized engine unable to match.  The
    inherited method rebuilds the index as a plain [RuleIndex], which has no
    extension lookup: afterwards [match_file] raises AttributeError for
    every file whose path is not in the match cache, and for a cached path
    it still returns the old answer, found without the new rule.
    [load_rules] brings a working index back but reads the rules from the
    file again, as if the rule had never been added. *)
Theorem add_rule_breaks_optimized_matching (cfg : ConfigFile)
    (e : OptimizedRuleEngine.Engine) (r : Rule) (f : FileInfo) :
  (OptimizedRuleEngine.cache_lookup (OptimizedRuleEngine.match_cache e)
     (Pathlib.to_string (ScanModels.path f)) = None ->
   OptimizedRuleEngine.match_file re cfg (add_rule e r) f
   = Raise "AttributeError: 'RuleIndex' object has no attribute 'get_rules_by_extension'")
  /\ (forall m,
        OptimizedRuleEngine.cache_lookup (OptimizedRuleEngine.match_cache e)
          (Pathlib.to_string (ScanModels.path f)) = Some m ->
        OptimizedRuleEngine.match_file re cfg (add_rule e r) f = Ok (m, add_rule e r))
  /\ OptimizedRuleEngine.match_file re cfg (clear_cache (add_rule e r)) f
     = Raise "AttributeError: 'RuleIndex' object has no attribute 'get_rules_by_extension'"
  /\ OptimizedRuleEngine.load_rules re cfg (add_rule e r)
     = OptimizedRuleEngine.load_rules re cfg e.
Proof.
  split; [| split; [| split]].
  - intros Hmiss. unfold OptimizedRuleEngine.match_file.
    cbn [add_rule OptimizedRuleEngine.rule_index OptimizedRuleEngine.match_cache].
    now rewrite Hmiss.
  - intros m Hhit. apply match_file_hit; [discriminate | exact Hhit].
  - reflexivity.
  - unfold OptimizedRuleEngine.load_rules.
    cbn [add_rule OptimizedRuleEngine.rules OptimizedRuleEngine.pattern_cache
         OptimizedRuleEngine.match_cache OptimizedRuleEngine.cache_size_limit].
    assert (forall rs, RuleEngine.load_rules cfg
                         {| RuleEngine.rules := rs; RuleEngine.rule_index := None |}
                       = RuleEngine.load_rules cfg RuleEngine.Engine_init) as H
      by (intros rs; now destruct cfg).
    now rewrite !H.
Qed.

End Cache.

(** the optimized engine with the two temp-file rules loaded *)
Definition loaded_engine : OptimizedRuleEngine.Engine :=
  match OptimizedRuleEngine.load_rules Examples.no_regex
          (Parsed [Ok OptimizedRuleEngineFacts.big_tmp_files;
                   Ok OptimizedRuleEngineFacts.tmp_files])
          OptimizedRuleEngine.Engine_init with
  | Ok e => e
  | Raise _ => OptimizedRuleEngine.Engine_init
  end.

(** the answer and the engine after a first question about a 10-byte
    [a.tmp] *)
Definition asked_once : RuleMatch * OptimizedRuleEngine.Engine :=
  match OptimizedRuleEngine.match_file Examples.no_regex Missing loaded_engine
          (Examples.file "C:\Temp\a.tmp" 10) with
  | Ok out => out
  | Raise _ => (unmatched (Examples.file "C:\Temp\a.tmp" 10), loaded_engine)
  end.

Lemma match_file_answers_from_cache_witness :
  (forall g,
      Pathlib.to_string (ScanModels.path g)
      = Pathlib.to_string (ScanModels.path (Examples.file "C:\Temp\a.tmp" 10)) ->
      OptimizedRuleEngine.match_file Examples.no_regex Missing (snd asked_once) g
      = Ok (fst asked_once, snd asked_once))
  /\ option_map id (rule (fst asked_once)) = Some "tmp"
  /\ rule_matches Examples.no_regex OptimizedRuleEngineFacts.big_tmp_files
       (Examples.file "C:\Temp\a.tmp" 5000) = true.
Proof.
  split; [| split; reflexivity].
  exact (proj1 (match_file_answers_from_cache Examples.no_regex Missing loaded_engine
                  (Examples.file "C:\Temp\a.tmp" 10) (fst asked_once) (snd asked_once)
                  eq_refl)).
Defined.

Lemma match_cache_stays_in_bounds_witness :
  cache_in_bounds (snd asked_once)
  /\ OptimizedRuleEngine.cache_size_limit (snd asked_once) = 10000%N.
Proof.
  destruct (match_cache_stays_in_bounds Examples.no_regex Missing loaded_engine
              (Examples.file "C:\Temp\a.tmp" 10) (fst asked_once) (snd asked_once))
    as (Hb & Hl & _).
  - split; [constructor | cbn; lia].
  - cbn. lia.
  - reflexivity.
  - split; [exact Hb | exact Hl].
Defined.

End OptimizedRuleEngineMore.

(* ===================================================================== *)
(** * More of controllers/state_manager.py: how long a cancel request lasts *)
(* ===================================================================== *)

Module StateManagerMore.
Import StateManager.

(** [get_valid_transitions] *)
Definition get_valid_transitions (m : t) (from_state : option SystemState)
    : list SystemState :=
  VALID_TRANSITIONS (match from_state with
                     | Some s => s
                     | None => current_state m
                     end).

(** a caller that asks for a transition and carries on after a refusal *)
Definition attempt (m : t) (s : SystemState) : t :=
  match transition_to m s with
  | Returns _ m' => m'
  | Raises _ m' => m'
  end.

Lemma attempt_cases (m : t) (s : SystemState) :
  (In s (get_valid_transitions m None)
   /\ attempt m s = {| _state := s; _cancel_flag := false |})
  \/ (~ In s (get_valid_transitions m None) /\ attempt m s = m).
Proof.
  unfold attempt, get_valid_transitions, current_state.
  destruct (StateManagerFacts.allowed_dec (_state m) s) as [Hin | Hnin].
  - left. now rewrite (StateManagerFacts.transition_to_allowed m s Hin).
  - right. now rewrite (StateManagerFacts.transition_to_refused m s Hnin).
Qed.

Lemma no_request_stays (attempts : list SystemState) :
  forall m, is_cancel_requested m = false ->
            is_cancel_requested (fold_left attempt attempts m) = false.
Proof.
  induction attempts as [| s attempts IH]; intros m Hm; cbn [fold_left]; [exact Hm |].
  apply IH. destruct (attempt_cases m s) as [[_ ->] | [_ ->]]; [reflexivity | exact Hm].
Qed.

Lemma self_transition_refused (s : SystemState) : ~ In s (VALID_TRANSITIONS s).
Proof. destruct s; cbn; intuition discriminate. Qed.

(** X23.  A cancel request lasts exactly until the next transition that is
    accepted.  After [request_cancel], however many transitions are asked
    for, [is_cancel_requested] is still true precisely when every one of
    them was refused, and then the state has not moved; the first accepted
    transition clears the request for good, and no transition sets it.  A
    transition to the current state is always refused, so it never clears
    the request. *)
Theorem cancel_request_lasts_until_next_transition (m : t)
    (attempts : list SystemState) :
  let m' := fold_left attempt attempts (request_cancel m) in
  (is_cancel_requested m' = true <->
   Forall (fun s => ~ In s (get_valid_transitions m None)) attempts)
  /\ (is_cancel_requested m' = true -> current_state m' = current_state m)
  /\ is_cancel_requested (attempt (request_cancel m) (current_state m)) = true.
Proof.
  cbv zeta.
  assert (forall m0, is_cancel_requested m0 = true ->
            (is_cancel_requested (fold_left attempt attempts m0) = true <->
             Forall (fun s => ~ In s (get_valid_transitions m0 None)) attempts)
            /\ (is_cancel_requested (fold_left attempt attempts m0) = true ->
                fold_left attempt attempts m0 = m0)) as H.
  { induction attempts as [| s attempts IH]; intros m0 Hm0; cbn [fold_left].
    - split; [split; [constructor | auto] | reflexivity].
    - destruct (attempt_cases m0 s) as [[Hin ->] | [Hnin ->]].
      + rewrite (no_request_stays attempts) by reflexivity.
        split; [split; [discriminate |] | discriminate].
        intros Hall. inversion Hall; subst. contradiction.
      + destruct (IH m0 Hm0) as [Hiff Hsame]. split; [| exact Hsame].
        rewrite Hiff. split.
        * intros Hall. now constructor.
        * intros Hall. now inversion Hall. }
  destruct (H (request_cancel m) eq_refl) as [Hiff Hsame].
  split; [exact Hiff |]. split.
  - intros Hc. now rewrite (Hsame Hc).
  - destruct (attempt_cases (request_cancel m) (current_state m)) as [[Hin _] | [_ ->]].
    + exfalso. exact (self_transition_refused _ Hin).
    + reflexivity.
Qed.

End StateManagerMore.

(* ===================================================================== *)
(** * More of the size formatters: what later reads say *)
(* ===================================================================== *)

Module FormatMore.
Import ScanModels PyNum.
Local Open Scope Q_scope.

(** [1024 ** n] as a rational *)
Definition KB_power (n : nat) : Q := inject_Z (1024 ^ Z.of_nat n).

Lemma KB_power_S (n : nat) : KB_power (S n) == (1024 # 1) * KB_power n.
Proof.
  unfold KB_power. rewrite Nat2Z.inj_succ, Z.pow_succ_r by lia.
  rewrite inject_Z_mult. reflexivity.
Qed.

Lemma below_KB (x : num) : value x < (1024 # 1) -> ltb x KB = true.
Proof.
  intros H. unfold ltb, KB. cbn [value].
  destruct (Qle_bool (1024 # 1) (value x)) eqn:E; [| reflexivity].
  apply Qle_bool_iff in E. lra.
Qed.

(** the loop ends below 1024 when it has units enough for the value *)
Lemma format_loop_ends_below_KB (units : list string) :
  forall x : num,
    value x < KB_power (S (length units)) ->
    ltb (snd (format_loop units x)) KB = true.
Proof.
  induction units as [| unit rest IH]; intros x Hx; cbn [format_loop].
  - cbn [snd]. apply below_KB. unfold KB_power in Hx. cbn in Hx. exact Hx.
  - destruct (ltb x KB) eqn:E; cbn [snd]; [exact E |].
    apply IH. rewrite FormatFacts.value_truediv_KB.
    cbn [length] in Hx. rewrite KB_power_S in Hx.
    unfold FormatFacts.div1024, Qdiv. change (/ (1024 # 1)) with (1 # 1024). lra.
Qed.

(** the string is always the number left in the field, to two places, and
    a unit *)
Lemma format_loop_string (units : list string) :
  forall x : num,
    exists unit,
      In unit (units ++ ["PB"])
      /\ fst (format_loop units x)
         = format_f 2 (snd (format_loop units x)) +:+ " " +:+ unit.
Proof.
  induction units as [| unit rest IH]; intros x; cbn [format_loop app].
  - exists "PB". split; [now left | reflexivity].
  - destruct (ltb x KB).
    + exists unit. split; [now left | reflexivity].
    + destruct (IH (truediv x KB)) as (u & Hin & Hs).
      exists u. split; [now right | exact Hs].
Qed.

Lemma format_loop_below_KB (x : num) :
  ltb x KB = true -> format_loop UNITS x = (format_f 2 x +:+ " B", x).
Proof. intros H. unfold UNITS. cbn [format_loop]. now rewrite H. Qed.

Lemma exact_bytes_below (x : num) (z : Z) :
  FormatFacts.exact_bytes x z -> value x < KB_power 6.
Proof.
  intros [-> Hz]. cbn [value]. unfold KB_power. rewrite <- Zlt_Qlt.
  assert (2 ^ 53 < 1024 ^ Z.of_nat 6)%Z by reflexivity. lia.
Qed.

(** X24.  After the first read the unit is lost.  For a [total_size] that
    is a byte count of at most 2**53 (so that the float arithmetic is
    exact), the first read of [formatted_size] gives the scaled number with
    its unit and leaves the scaled number in the field; every later read
    leaves the object alone and gives that same number followed by "B".
    [FileInfo.format_size] behaves alike. *)
Theorem formatted_size_settles_on_bytes :
  (forall (r : Cleaner.CleanResult) (z : Z),
      FormatFacts.exact_bytes (Cleaner.total_size r) z ->
      (0 <= z)%Z ->
      let first := Cleaner.formatted_size r in
      let second := Cleaner.formatted_size (snd first) in
      (exists unit,
          In unit ["B"; "KB"; "MB"; "GB"; "TB"; "PB"]
          /\ fst first
             = format_f 2 (Cleaner.total_size (snd first)) +:+ " " +:+ unit)
      /\ fst second = format_f 2 (Cleaner.total_size (snd first)) +:+ " B"
      /\ snd second = snd first)
  /\ (forall (f : FileInfo) (z : Z),
      FormatFacts.exact_bytes (ScanModels.size f) z ->
      (0 <= z)%Z ->
      let first := format_size f in
      let second := format_size (snd first) in
      (exists unit,
          In unit ["B"; "KB"; "MB"; "GB"; "TB"; "PB"]
          /\ fst first = format_f 2 (ScanModels.size (snd first)) +:+ " " +:+ unit)
      /\ fst second = format_f 2 (ScanModels.size (snd first)) +:+ " B"
      /\ snd second = snd first)
  /\ (fst (Cleaner.formatted_size (FormatFacts.freed (5 * 1024 * 1024))) = "5.00 MB"
      /\ fst (Cleaner.formatted_size
                (snd (Cleaner.formatted_size (FormatFacts.freed (5 * 1024 * 1024)))))
         = "5.00 B").
Proof.
  split; [| split].
  - intros r z Hz _. cbv zeta. unfold Cleaner.formatted_size.
    pose proof (format_loop_ends_below_KB UNITS (Cleaner.total_size r)
                  (exact_bytes_below _ z Hz)) as Hb.
    destruct (format_loop_string UNITS (Cleaner.total_size r)) as (u & Hin & Hs).
    destruct (format_loop UNITS (Cleaner.total_size r)) as [s v].
    cbn [fst snd Cleaner.set_total_size Cleaner.total_size] in *.
    rewrite (format_loop_below_KB v Hb). cbn [fst snd].
    split; [exists u; split; assumption |]. split; reflexivity.
  - intros f z Hz _. cbv zeta. unfold format_size.
    pose proof (format_loop_ends_below_KB UNITS (ScanModels.size f)
                  (exact_bytes_below _ z Hz)) as Hb.
    destruct (format_loop_string UNITS (ScanModels.size f)) as (u & Hin & Hs).
    destruct (format_loop UNITS (ScanModels.size f)) as [s v].
    cbn [fst snd set_size ScanModels.size] in *.
    rewrite (format_loop_below_KB v Hb). cbn [fst snd].
    split; [exists u; split; assumption |]. split; reflexivity.
  - split; vm_compute; reflexivity.
Qed.

End FormatMore.

(* ===================================================================== *)
(** * controllers/scan_controller.py: sorting scanned files by risk *)
(* ===================================================================== *)

Module ScanController.
Import ScanModels RuleEngine.

(** [ScanResult], as far as the controller reads it *)
Record ScanResult : Type := {
  files : list FileInfo;
  error_message : option string
}.

(** [ScanResult.is_success] *)
Definition is_success (result : ScanResult) : bool :=
  match error_message result with
  | None => true
  | Some _ => false
  end.

(** The controller: its rule engine and the dictionary [_matched_files],
    whose four keys are created by [__init__] in this order and never
    change.  A file stored under a risk key has had that level attached to
    it as [risk_level]. *)
Record t : Type := {
  rule_engine : RuleEngine.Engine;
  L1_SAFE_files : list FileInfo;
  L2_REVIEW_files : list FileInfo;
  L3_SYSTEM_files : list FileInfo;
  UNMATCHED_files : list FileInfo
}.

(** the four keys *)
Inductive Key : Type := Level (lvl : RiskLevel) | UNMATCHED.

(** [risk_level.name] and ['UNMATCHED'] *)
Definition key_name (k : Key) : string :=
  match k with
  | Level L1_SAFE => "L1_SAFE"
  | Level L2_REVIEW => "L2_REVIEW"
  | Level L3_SYSTEM => "L3_SYSTEM"
  | UNMATCHED => "UNMATCHED"
  end.

(** [self._matched_files[key]] *)
Definition bucket (c : t) (k : Key) : list FileInfo :=
  match k with
  | Level L1_SAFE => L1_SAFE_files c
  | Level L2_REVIEW => L2_REVIEW_files c
  | Level L3_SYSTEM => L3_SYSTEM_files c
  | UNMATCHED => UNMATCHED_files c
  end.

(** [self._matched_files[key].append(file_info)] *)
Definition append (c : t) (k : Key) (f : FileInfo) : t :=
  match k with
  | Level L1_SAFE =>
      {| rule_engine := rule_engine c; L1_SAFE_files := L1_SAFE_files c ++ [f];
         L2_REVIEW_files := L2_REVIEW_files c; L3_SYSTEM_files := L3_SYSTEM_files c;
         UNMATCHED_files := UNMATCHED_files c |}
  | Level L2_REVIEW =>
      {| rule_engine := rule_engine c; L1_SAFE_files := L1_SAFE_files c;
         L2_REVIEW_files := L2_REVIEW_files c ++ [f];
         L3_SYSTEM_files := L3_SYSTEM_files c; UNMATCHED_files := UNMATCHED_files c |}
  | Level L3_SYSTEM =>
      {| rule_engine := rule_engine c; L1_SAFE_files := L1_SAFE_files c;
         L2_REVIEW_files := L2_REVIEW_files c;
         L3_SYSTEM_files := L3_SYSTEM_files c ++ [f];
         UNMATCHED_files := UNMATCHED_files c |}
  | UNMATCHED =>
      {| rule_engine := rule_engine c; L1_SAFE_files := L1_SAFE_files c;
         L2_REVIEW_files := L2_REVIEW_files c; L3_SYSTEM_files := L3_SYSTEM_files c;
         UNMATCHED_files := UNMATCHED_files c ++ [f] |}
  end.

Definition set_rule_engine (c : t) (e : RuleEngine.Engine) : t :=
  {| rule_engine := e; L1_SAFE_files := L1_SAFE_files c;
     L2_REVIEW_files := L2_REVIEW_files c; L3_SYSTEM_files := L3_SYSTEM_files c;
     UNMATCHED_files := UNMATCHED_files c |}.

Section WithRegex.
Variable re : Regex.
Variable cfg : ConfigFile.

(** the [for file_info in result.files] loop of [_handle_scan_result]; an
    exception of [match_file] sends the file to ['UNMATCHED'] *)
Fixpoint handle_files (c : t) (fs : list FileInfo) : t :=
  match fs with
  | [] => c
  | file_info :: rest =>
      if ScanModels.is_dir file_info then handle_files c rest
      else
        match RuleEngine.match_file re cfg (rule_engine c) file_info with
        | Ok (m, e) =>
            let c := set_rule_engine c e in
            if matched m
            then handle_files
                   (append c (Level (RuleEngineMore.RuleMatch_risk_level m)) file_info)
                   rest
            else handle_files (append c UNMATCHED file_info) rest
        | Raise _ => handle_files (append c UNMATCHED file_info) rest
        end
  end.

(** [_handle_scan_result] *)
Definition _handle_scan_result (c : t) (result : ScanResult) : t :=
  if negb (is_success result) then c else handle_files c (files result).

End WithRegex.

(** [get_matched_files]: an empty string counts as no filter *)
Definition get_matched_files (c : t) (risk_level : option string) : list FileInfo :=
  if truthy risk_level then
    let name := pattern_of risk_level in
    match List.find (fun k => String.eqb (key_name k) name)
            [Level L1_SAFE; Level L2_REVIEW; Level L3_SYSTEM; UNMATCHED] with
    | Some k => bucket c k
    | None => []
    end
  else L1_SAFE_files c ++ L2_REVIEW_files c ++ L3_SYSTEM_files c.

(** [get_scan_summary]["total_files"] *)
Definition total_files (c : t) : nat :=
  (length (L1_SAFE_files c) + length (L2_REVIEW_files c)
   + length (L3_SYSTEM_files c) + length (UNMATCHED_files c))%nat.

End ScanController.

Module ScanControllerFacts.
Import ScanModels RuleEngine ScanController.

Definition Key_eqb (a b : Key) : bool :=
  match a, b with
  | Level x, Level y => RiskLevel_eqb x y
  | UNMATCHED, UNMATCHED => true
  | _, _ => false
  end.

Section WithRegex.
Variable re : Regex.
Variable cfg : ConfigFile.

(** the key a file is filed under: the level of the first rule, in
    configured order, that matches it *)
Definition key_of (rules : list Rule) (f : FileInfo) : Key :=
  match OptimizedRuleEngineMore.first_match re rules f with
  | Some r => Level (risk_level r)
  | None => UNMATCHED
  end.

Definition filed_under (rules : list Rule) (k : Key) (f : FileInfo) : bool :=
  negb (ScanModels.is_dir f) && Key_eqb k (key_of rules f).

Lemma bucket_append (c : t) (k k' : Key) (f : FileInfo) :
  bucket (append c k' f) k = if Key_eqb k k' then bucket c k ++ [f] else bucket c k.
Proof. destruct k as [[] |], k' as [[] |]; reflexivity. Qed.

Lemma handle_files_buckets (fs : list FileInfo) :
  forall c : t,
    rule_index (rule_engine c) = Some (RuleIndex_init (rules (rule_engine c))) ->
    rule_engine (handle_files re cfg c fs) = rule_engine c
    /\ forall k,
         bucket (handle_files re cfg c fs) k
         = bucket c k ++ List.filter (filed_under (rules (rule_engine c)) k) fs.
Proof.
  induction fs as [| f fs IH]; intros c Hl; cbn [handle_files List.filter].
  - split; [reflexivity |]. intros k. now rewrite app_nil_r.
  - unfold filed_under at 1. destruct (ScanModels.is_dir f); cbn [negb andb].
    + now apply IH.
    + rewrite (RuleEngineFacts.match_file_loaded re cfg (rule_engine c) f Hl).
      rewrite OptimizedRuleEngineMore.match_loop_find. unfold key_of.
      assert (set_rule_engine c (rule_engine c) = c) as -> by now destruct c.
      destruct (OptimizedRuleEngineMore.first_match re (rules (rule_engine c)) f)
        as [r |]; cbn [OptimizedRuleEngineMore.answer matched matched_by unmatched].
      * destruct (IH (append c (Level (RuleEngineMore.RuleMatch_risk_level
                                         (matched_by r f))) f)) as [He Hb].
        { now destruct (RuleEngineMore.RuleMatch_risk_level (matched_by r f)). }
        split.
        -- rewrite He. now destruct (RuleEngineMore.RuleMatch_risk_level _).
        -- intros k. rewrite Hb, bucket_append.
           assert (rule_engine (append c (Level (RuleEngineMore.RuleMatch_risk_level
                                                   (matched_by r f))) f)
                   = rule_engine c) as ->
               by now destruct (RuleEngineMore.RuleMatch_risk_level _).
           cbn [RuleEngineMore.RuleMatch_risk_level matched_by rule].
           destruct (Key_eqb k (Level (risk_level r)));
             [now rewrite <- app_assoc | reflexivity].
      * destruct (IH (append c UNMATCHED f) Hl) as [He Hb].
        split; [exact He |].
        intros k. rewrite Hb, bucket_append.
        cbn [append rule_engine].
        destruct (Key_eqb k UNMATCHED); [now rewrite <- app_assoc | reflexivity].
Qed.

Lemma filed_once (rules : list Rule) (fs : list FileInfo) :
  (length (List.filter (filed_under rules (Level L1_SAFE)) fs)
   + length (List.filter (filed_under rules (Level L2_REVIEW)) fs)
   + length (List.filter (filed_under rules (Level L3_SYSTEM)) fs)
   + length (List.filter (filed_under rules UNMATCHED) fs)
   = length (List.filter (fun f => negb (ScanModels.is_dir f)) fs))%nat.
Proof.
  induction fs as [| f fs IH]; cbn [List.filter]; [reflexivity |].
  assert (forall k, filed_under rules k f
                    = negb (ScanModels.is_dir f) && Key_eqb k (key_of rules f)) as Hstep
    by reflexivity.
  rewrite !Hstep.
  destruct (ScanModels.is_dir f); cbn [negb andb]; [exact IH |].
  destruct (key_of rules f) as [[] |]; cbn [Key_eqb RiskLevel_eqb length]; lia.
Qed.

(** X25.  [_handle_scan_result] files every scanned file that is not a
    directory under exactly one key: the risk level of the first rule, in
    configured order, that matches it, or 'UNMATCHED' when none does.  The
    order of the scan is kept inside each key, directories are left out,
    earlier entries stay, and a failed scan result changes nothing.  Hence
    the total of the summary grows by the number of files that are not
    directories, and [get_matched_files()] without a level returns the three
    risk groups one after the other, not in scan order, without the
    unmatched files. *)
Theorem handle_scan_result_files_each_file_once (c : t) (result : ScanResult) :
  rule_index (rule_engine c) = Some (RuleIndex_init (rules (rule_engine c))) ->
  let c' := _handle_scan_result re cfg c result in
  let rs := rules (rule_engine c) in
  (is_success result = false -> c' = c)
  /\ (is_success result = true ->
      rule_engine c' = rule_engine c
      /\ (forall k, bucket c' k
                    = bucket c k ++ List.filter (filed_under rs k) (files result))
      /\ total_files c'
         = (total_files c
            + length (List.filter (fun f => negb (ScanModels.is_dir f)) (files result)))%nat
      /\ get_matched_files c' None
         = (bucket c (Level L1_SAFE)
              ++ List.filter (filed_under rs (Level L1_SAFE)) (files result))
           ++ (bucket c (Level L2_REVIEW)
                 ++ List.filter (filed_under rs (Level L2_REVIEW)) (files result))
           ++ (bucket c (Level L3_SYSTEM)
                 ++ List.filter (filed_under rs (Level L3_SYSTEM)) (files result))).
Proof.
  intros Hl. cbv zeta. unfold _handle_scan_result.
  destruct (is_success result); cbn [negb].
  - split; [discriminate |]. intros _.
    destruct (handle_files_buckets (files result) c Hl) as [He Hb].
    split; [exact He |]. split; [exact Hb |]. split.
    + pose proof (filed_once (rules (rule_engine c)) (files result)) as Hsum.
      unfold total_files.
      change (L1_SAFE_files (handle_files re cfg c (files result)))
        with (bucket (handle_files re cfg c (files result)) (Level L1_SAFE)).
      change (L2_REVIEW_files (handle_files re cfg c (files result)))
        with (bucket (handle_files re cfg c (files result)) (Level L2_REVIEW)).
      change (L3_SYSTEM_files (handle_files re cfg c (files result)))
        with (bucket (handle_files re cfg c (files result)) (Level L3_SYSTEM)).
      change (UNMATCHED_files (handle_files re cfg c (files result)))
        with (bucket (handle_files re cfg c (files result)) UNMATCHED).
      rewrite !Hb, !length_app. cbn [bucket]. lia.
    + unfold get_matched_files. cbn [truthy].
      change (L1_SAFE_files (handle_files re cfg c (files result)))
        with (bucket (handle_files re cfg c (files result)) (Level L1_SAFE)).
      change (L2_REVIEW_files (handle_files re cfg c (files result)))
        with (bucket (handle_files re cfg c (files result)) (Level L2_REVIEW)).
      change (L3_SYSTEM_files (handle_files re cfg c (files result)))
        with (bucket (handle_files re cfg c (files result)) (Level L3_SYSTEM)).
      now rewrite !Hb.
  - split; [reflexivity | discriminate].
Qed.

End WithRegex.

(** a controller at start, with the two example rules loaded *)
Definition two_rule_controller : t :=
  {| rule_engine := RuleEngineFacts.two_rules; L1_SAFE_files := [];
     L2_REVIEW_files := []; L3_SYSTEM_files := []; UNMATCHED_files := [] |}.

Definition five_scanned : ScanResult :=
  {| files := Examples.five_files; error_message := None |}.

Lemma handle_scan_result_files_each_file_once_witness :
  total_files (_handle_scan_result Examples.no_regex Missing two_rule_controller
                 five_scanned) = 5%nat
  /\ length (get_matched_files
               (_handle_scan_result Examples.no_regex Missing two_rule_controller
                  five_scanned) (Some "L1_SAFE")) = 5%nat.
Proof.
  destruct (handle_scan_result_files_each_file_once Examples.no_regex Missing
              two_rule_controller five_scanned eq_refl) as [_ H].
  destruct (H eq_refl) as (_ & _ & Ht & _).
  split; [exact Ht | reflexivity].
Defined.

End ScanControllerFacts.
